(** * ODD-Mapper backend: junction analysis and ODD-compliant network extraction

    A shallow embedding of the parts of
    [app/service/junction/junction_analysis.py] and
    [app/service/network/network_task.py] that the specification describes,
    followed by theorems about what the specification states of them.

    Conventions of the embedding.
    - Python [float]s are idealised: a finite float is an exact rational
      ([Q]) where the code only parses, multiplies, adds and compares
      (width parsing, ODD thresholds), and a real number ([R]) where the
      code takes square roots and arc cosines (angles, segment lengths).
      Rounding and overflow are not modelled; [inf] and [nan], which
      [float()] can return for the strings "inf" and "nan", are.
    - Python [str]s are modelled as ASCII strings.  A character above 127 is
      treated as neither digit, letter nor white space.
    - Exceptions are explicit: a function that can raise returns a
      [result].
    - Dictionaries with string keys ([odd], edge [metadata], OSM edge [data])
      are [gmap string pyval]; their values are scalars or flat lists of
      scalars, which is what OSMnx and the request schema produce. *)

From Stdlib Require Import ZArith QArith Qabs Reals Lra Lia String Ascii List.
From stdpp Require Import gmap strings list fin_maps.
Import ListNotations.

Open Scope string_scope.

(* ===================================================================== *)
(** * Part I: definitions *)
(* ===================================================================== *)

(** ** Python values and exceptions *)

Inductive pyfloat : Type :=
| FFin (q : Q)
| FInf (neg : bool)
| FNaN.

Inductive exn : Type :=
| ValueError
| TypeError
| IndexError
| KeyError
| AttributeError
| OverflowError
| ZeroDivisionError.

Inductive result (A : Type) : Type :=
| Ok (a : A)
| Raise (e : exn).

Arguments Ok {A} a.
Arguments Raise {A} e.

Definition bind {A B : Type} (m : result A) (k : A -> result B) : result B :=
  match m with
  | Ok a => k a
  | Raise e => Raise e
  end.

Notation "'let*' x ':=' m 'in' k" := (bind m (fun x => k))
  (at level 10, x name, m at level 100, k at level 200).

(** Scalars as they come out of JSON documents and OSM tags. *)
Inductive atom : Type :=
| ANone
| ABool (b : bool)
| AInt (z : Z)
| AFloat (f : pyfloat)
| AStr (s : string).

(** A value is a scalar or a flat list of scalars. *)
Inductive pyval : Type :=
| PAtom (a : atom)
| PList (l : list atom).

Abbreviation pydict := (gmap string pyval).

(** ** Floats *)

Definition Q_ltb (a b : Q) : bool := negb (Qle_bool b a).

(** [a < b] on floats; every comparison with [nan] is false. *)
Definition flt_lt (a b : pyfloat) : bool :=
  match a, b with
  | FNaN, _ | _, FNaN => false
  | FFin x, FFin y => Q_ltb x y
  | FFin _, FInf neg => negb neg
  | FInf neg, FFin _ => neg
  | FInf n1, FInf n2 => n1 && negb n2
  end.

Definition flt_gt (a b : pyfloat) : bool := flt_lt b a.

(** [f * c] for a finite constant [c > 0]. *)
Definition flt_scale (f : pyfloat) (c : Q) : pyfloat :=
  match f with
  | FFin q => FFin (q * c)
  | other => other
  end.

(** ** Characters and strings *)

Definition code (c : ascii) : nat := nat_of_ascii c.

Definition is_digit (c : ascii) : bool :=
  (48 <=? code c)%nat && (code c <=? 57)%nat.

(** White space as [str.strip], [float] and the regular expression class
    [\s] see it, below 128: TAB..CR, FS..US and the blank. *)
Definition is_space (c : ascii) : bool :=
  ((9 <=? code c)%nat && (code c <=? 13)%nat)
  || ((28 <=? code c)%nat && (code c <=? 32)%nat).

Definition is_lower (c : ascii) : bool :=
  (97 <=? code c)%nat && (code c <=? 122)%nat.

Definition is_upper (c : ascii) : bool :=
  (65 <=? code c)%nat && (code c <=? 90)%nat.

Definition lower_char (c : ascii) : ascii :=
  if is_upper c then ascii_of_nat (code c + 32) else c.

Definition upper_char (c : ascii) : ascii :=
  if is_lower c then ascii_of_nat (code c - 32) else c.

Definition is_char (k : nat) (c : ascii) : bool := (code c =? k)%nat.

Fixpoint str_map (f : ascii -> ascii) (s : string) : string :=
  match s with
  | EmptyString => EmptyString
  | String c r => String (f c) (str_map f r)
  end.

Definition py_lower : string -> string := str_map lower_char.
Definition py_upper : string -> string := str_map upper_char.

Definition is_empty (s : string) : bool :=
  match s with
  | EmptyString => true
  | String _ _ => false
  end.

(** Longest prefix whose characters satisfy [p], and the rest. *)
Fixpoint span (p : ascii -> bool) (s : string) : string * string :=
  match s with
  | EmptyString => (EmptyString, EmptyString)
  | String c r =>
      if p c then let '(a, b) := span p r in (String c a, b)
      else (EmptyString, s)
  end.

Definition lstrip (s : string) : string := snd (span is_space s).

Fixpoint rstrip (s : string) : string :=
  match s with
  | EmptyString => EmptyString
  | String c r =>
      match rstrip r with
      | EmptyString => if is_space c then EmptyString else String c EmptyString
      | r' => String c r'
      end
  end.

Definition py_strip (s : string) : string := rstrip (lstrip s).

(** [s.split(sep)] for a one-character separator: never the empty list. *)
Fixpoint py_split (sep : nat) (s : string) : list string :=
  match s with
  | EmptyString => [EmptyString]
  | String c r =>
      if is_char sep c then EmptyString :: py_split sep r
      else match py_split sep r with
           | [] => [String c EmptyString]
           | x :: xs => String c x :: xs
           end
  end.

Definition in_strs (s : string) (l : list string) : bool :=
  existsb (String.eqb s) l.

(** Value of a string of decimal digits. *)
Fixpoint digits_val (acc : Z) (s : string) : Z :=
  match s with
  | EmptyString => acc
  | String c r => digits_val (10 * acc + Z.of_nat (code c - 48)) r
  end.

(** ** [float(s)] on strings

    CPython strips white space, checks that every underscore stands between
    two digits and removes them, then accepts, case-insensitively,
    [[sign] (inf | infinity | nan | digits [. [digits]] [exp] | . digits [exp])]
    with [exp = e [sign] digits]; anything else is a [ValueError]. *)

Fixpoint underscores_ok (prev : ascii) (s : string) : bool :=
  match s with
  | EmptyString => negb (is_char 95 prev)
  | String c r =>
      (if is_char 95 c then is_digit prev
       else negb (is_char 95 prev) || is_digit c)
      && underscores_ok c r
  end.

Fixpoint remove_underscores (s : string) : string :=
  match s with
  | EmptyString => EmptyString
  | String c r =>
      if is_char 95 c then remove_underscores r
      else String c (remove_underscores r)
  end.

Definition split_sign (s : string) : bool * string :=
  match s with
  | String c r =>
      if is_char 43 c then (false, r)
      else if is_char 45 c then (true, r)
      else (false, s)
  | EmptyString => (false, s)
  end.

(** The exponent part: empty, or [e [sign] digits] up to the end. *)
Definition parse_exponent (s : string) : option Z :=
  match s with
  | EmptyString => Some 0%Z
  | String c r =>
      if is_char 101 c then
        let '(neg, r1) := split_sign r in
        let '(ds, r2) := span is_digit r1 in
        if is_empty ds || negb (is_empty r2) then None
        else Some (if neg then (- digits_val 0 ds)%Z else digits_val 0 ds)
      else None
  end.

Definition parse_float_body (s : string) : option pyfloat :=
  let '(neg, s1) := split_sign s in
  if in_strs s1 ["inf"; "infinity"] then Some (FInf neg)
  else if String.eqb s1 "nan" then Some FNaN
  else
    let '(ip, r1) := span is_digit s1 in
    let '(fp, r2) :=
      match r1 with
      | String c r => if is_char 46 c then span is_digit r else (EmptyString, r1)
      | EmptyString => (EmptyString, r1)
      end in
    if is_empty ip && is_empty fp then None
    else
      match parse_exponent r2 with
      | None => None
      | Some e =>
          let m := digits_val 0 (ip ++ fp) in
          let q := (inject_Z m * Qpower 10 (e - Z.of_nat (String.length fp)))%Q in
          Some (FFin (if neg then - q else q)%Q)
      end.

Definition py_float (s : string) : option pyfloat :=
  let t := py_strip s in
  if underscores_ok zero t
  then parse_float_body (py_lower (remove_underscores t))
  else None.

(** ** Width strings: [_convert_to_meters] *)

(** [re.match(r"^(\d+)\s*'\s*(\d+)", s)]: the two groups.  The character
    classes that follow one another are disjoint, so the greedy match is the
    only one. *)
Definition match_feet_inches (s : string) : option (string * string) :=
  let '(ft, r1) := span is_digit s in
  if is_empty ft then None
  else
    match snd (span is_space r1) with
    | String c r3 =>
        if is_char 39 c then
          let '(inch, _) := span is_digit (snd (span is_space r3)) in
          if is_empty inch then None else Some (ft, inch)
        else None
    | EmptyString => None
    end.

(** [re.match(r"^([\d\.]+)\s*([a-z]+)", s)]: the two groups. *)
Definition match_number_unit (s : string) : option (string * string) :=
  let '(num, r1) := span (fun c => is_digit c || is_char 46 c) s in
  if is_empty num then None
  else
    let '(unit, _) := span is_lower (snd (span is_space r1)) in
    if is_empty unit then None else Some (num, unit).

(** The last step of [_convert_to_meters]: a bare number, 0.0 when [float]
    raises [ValueError]. *)
Definition bare_number (s : string) : result pyfloat :=
  match py_float s with
  | Some f => Ok f
  | None => Ok (FFin 0)
  end.

Definition _convert_to_meters (val : string) : result pyfloat :=
  let s := py_lower (py_strip val) in
  match match_feet_inches s with
  | Some (ft, inch) =>
      Ok (FFin (inject_Z (digits_val 0 ft) * 0.3048
                + inject_Z (digits_val 0 inch) * 0.0254)%Q)
  | None =>
      match match_number_unit s with
      | Some (num, unit) =>
          match py_float num with
          | None => Raise ValueError
          | Some f =>
              if in_strs unit ["m"; "meter"; "meters"] then Ok f
              else if in_strs unit ["km"; "kilometer"; "kilometre"]
              then Ok (flt_scale f 1000)
              else if in_strs unit ["mi"; "mile"; "miles"]
              then Ok (flt_scale f 1609.344)
              else if in_strs unit ["ft"; "feet"] then Ok (flt_scale f 0.3048)
              else if in_strs unit ["in"; "inch"; "inches"]
              then Ok (flt_scale f 0.0254)
              else bare_number s
          end
      | None => bare_number s
      end
  end.

(** Sixteen feet three inches: 16'3 followed by the double quote. *)
Definition sixteen_feet_three : string :=
  "16'3" ++ String (ascii_of_nat 34) EmptyString.

Definition flt_close (f : pyfloat) (target tol : Q) : Prop :=
  match f with
  | FFin q => (Qabs (q - target) <= tol)%Q
  | _ => False
  end.

Definition flt_is (f : pyfloat) (target : Q) : Prop :=
  match f with
  | FFin q => (q == target)%Q
  | _ => False
  end.

(** ** Enumerations of [junction_models.py] *)

Module JunctionType.
Inductive t : Type :=
| ROUNDABOUT | CIRCULAR | JUGHANDLE
| MINI_ROUNDABOUT | TURNING_CIRCLE | TURNING_LOOP
| MOTORWAY_JUNCTION | ISLAND | PASSING_PLACE
| T_JUNCTION | Y_JUNCTION | CROSSROAD.
End JunctionType.

Module Direction.
Inductive t : Type := THRU | TURN | CROSS | REVERSE.

Definition eqb (a b : t) : bool :=
  match a, b with
  | THRU, THRU | TURN, TURN | CROSS, CROSS | REVERSE, REVERSE => true
  | _, _ => false
  end.
End Direction.

Module NbrPosition.
Inductive t : Type := OPP | NEAR | FAR.

Definition eqb (a b : t) : bool :=
  match a, b with
  | OPP, OPP | NEAR, NEAR | FAR, FAR => true
  | _, _ => false
  end.
End NbrPosition.

Module JuncConflict.
Inductive t : Type := INTERSECT | MERGE | NO_CONFLICT.

Definition eqb (a b : t) : bool :=
  match a, b with
  | INTERSECT, INTERSECT | MERGE, MERGE | NO_CONFLICT, NO_CONFLICT => true
  | _, _ => false
  end.
End JuncConflict.

Module LaneTurn.
Inductive t : Type :=
| THROUGH | LEFT | SLIGHT_LEFT | SHARP_LEFT
| RIGHT | SLIGHT_RIGHT | SHARP_RIGHT
| REVERSE | MERGE_TO_LEFT | MERGE_TO_RIGHT.

Definition eqb (a b : t) : bool :=
  match a, b with
  | THROUGH, THROUGH | LEFT, LEFT | SLIGHT_LEFT, SLIGHT_LEFT
  | SHARP_LEFT, SHARP_LEFT | RIGHT, RIGHT | SLIGHT_RIGHT, SLIGHT_RIGHT
  | SHARP_RIGHT, SHARP_RIGHT | REVERSE, REVERSE
  | MERGE_TO_LEFT, MERGE_TO_LEFT | MERGE_TO_RIGHT, MERGE_TO_RIGHT => true
  | _, _ => false
  end.

(** [LaneTurn[d]]: [None] stands for the [KeyError]. *)
Definition of_name (d : string) : option t :=
  if String.eqb d "THROUGH" then Some THROUGH
  else if String.eqb d "LEFT" then Some LEFT
  else if String.eqb d "SLIGHT_LEFT" then Some SLIGHT_LEFT
  else if String.eqb d "SHARP_LEFT" then Some SHARP_LEFT
  else if String.eqb d "RIGHT" then Some RIGHT
  else if String.eqb d "SLIGHT_RIGHT" then Some SLIGHT_RIGHT
  else if String.eqb d "SHARP_RIGHT" then Some SHARP_RIGHT
  else if String.eqb d "REVERSE" then Some REVERSE
  else if String.eqb d "MERGE_TO_LEFT" then Some MERGE_TO_LEFT
  else if String.eqb d "MERGE_TO_RIGHT" then Some MERGE_TO_RIGHT
  else None.
End LaneTurn.

(** ** Truth values, [int()] and [float()] of scalars *)

Definition is_nil {A : Type} (l : list A) : bool :=
  match l with
  | [] => true
  | _ :: _ => false
  end.

Definition truthy_atom (a : atom) : bool :=
  match a with
  | ANone => false
  | ABool b => b
  | AInt z => negb (z =? 0)%Z
  | AFloat (FFin q) => negb (Qeq_bool q 0)
  | AFloat _ => true
  | AStr s => negb (is_empty s)
  end.

Definition truthy (v : pyval) : bool :=
  match v with
  | PAtom a => truthy_atom a
  | PList l => negb (is_nil l)
  end.

(** [bool(d.get(k))] *)
Definition get_truthy (d : pydict) (k : string) : bool :=
  match d !! k with
  | Some v => truthy v
  | None => false
  end.

(** [int(s)] on a string, base 10: white space stripped, an optional sign,
    digits with single underscores between them. *)
Definition int_of_string (s : string) : option Z :=
  let t := py_strip s in
  if underscores_ok zero t then
    let '(neg, ds) := split_sign (remove_underscores t) in
    if is_empty ds || negb (is_empty (snd (span is_digit ds))) then None
    else Some (if neg then (- digits_val 0 ds)%Z else digits_val 0 ds)
  else None.

Definition py_int (a : atom) : result Z :=
  match a with
  | ANone => Raise TypeError
  | ABool b => Ok (if b then 1 else 0)%Z
  | AInt z => Ok z
  | AFloat (FFin q) => Ok (Z.quot (Qnum q) (Zpos (Qden q)))
  | AFloat (FInf _) => Raise OverflowError
  | AFloat FNaN => Raise ValueError
  | AStr s =>
      match int_of_string s with
      | Some z => Ok z
      | None => Raise ValueError
      end
  end.

(** ** Lane data of an edge: [_parse_lane_data] *)

(** A set of lane turns, as the list of its elements. *)
Definition turns_add (x : LaneTurn.t) (s : list LaneTurn.t) : list LaneTurn.t :=
  if existsb (LaneTurn.eqb x) s then s else s ++ [x].

(** The inner loop over [lane_str.split(';')]. *)
Definition add_lane_turns (lane_str : string) (turns : list LaneTurn.t)
  : list LaneTurn.t :=
  fold_left
    (fun acc direction =>
       let d := py_upper (py_strip direction) in
       if is_empty d then acc
       else match LaneTurn.of_name d with
            | Some t => turns_add t acc
            | None => acc
            end)
    (py_split 59 lane_str) turns.

(** [str(x)] of a list element, as far as the loop above can tell: the
    text of [None], of a bool or of a number holds no [';'] and is no lane
    turn name, so it stands for a string that adds no turn. *)
Definition lane_str_of (a : atom) : string :=
  match a with
  | AStr s => s
  | _ => "None"
  end.

(** The [lanes] list built from [tag_raw]; a truthy value that is neither a
    list nor a string has no [split]. *)
Definition lanes_of_tag (tag_raw : pyval) : result (list string) :=
  if negb (truthy tag_raw) then Ok []
  else match tag_raw with
       | PList l => Ok (map lane_str_of l)
       | PAtom (AStr s) => Ok (py_split 124 s)
       | PAtom _ => Raise AttributeError
       end.

(** [len(tag_raw)] *)
Definition tag_len (tag_raw : pyval) : result Z :=
  match tag_raw with
  | PList l => Ok (Z.of_nat (length l))
  | PAtom (AStr s) => Ok (Z.of_nat (String.length s))
  | PAtom _ => Raise TypeError
  end.

Definition side_of (data : pydict) : string :=
  if get_truthy data "reversed" then "backward" else "forward".

Definition turn_tag (data : pydict) : pyval :=
  default (PAtom (AStr EmptyString)) (data !! ("turn:lanes:" ++ side_of data)).

Definition lanes_tag (data : pydict) : option pyval :=
  data !! ("lanes:" ++ side_of data).

Definition _parse_lane_data (data : pydict)
  : result (list LaneTurn.t * Z * bool) :=
  let tag_raw := turn_tag data in
  let* lanes := lanes_of_tag tag_raw in
  let turns := fold_left (fun acc lane_str => add_lane_turns lane_str acc) lanes [] in
  let turns := if is_nil turns then [LaneTurn.THROUGH] else turns in
  match lanes_tag data with
  | Some (PList lanes_val) =>
      if truthy tag_raw then
        let* n := tag_len tag_raw in Ok (turns, n, false)
      else
        match lanes_val with
        | [] => Ok (turns, 1%Z, true)                (* IndexError *)
        | first :: _ =>
            match py_int first with
            | Ok n => Ok (turns, n, true)
            | Raise ValueError | Raise TypeError | Raise IndexError =>
                Ok (turns, 1%Z, true)
            | Raise e => Raise e
            end
        end
  | Some (PAtom ANone) | None => Ok (turns, 1%Z, true)
  | Some (PAtom a) =>
      match py_int a with
      | Ok n => Ok (turns, n, false)
      | Raise ValueError | Raise TypeError => Ok (turns, 1%Z, true)
      | Raise e => Raise e
      end
  end.

(** ** The road graph

    [G : nx.MultiDiGraph] with the node attributes ['x'] and ['y'].  The
    edges are listed in the order in which networkx iterates over them
    (by source node, then by successor), one entry for each key. *)

Definition point : Type := (R * R)%type.

Record MultiDiGraph : Type := {
  g_nodes : gmap Z point;
  g_edges : list (Z * Z)
}.

(** [(G.nodes[n]['x'], G.nodes[n]['y'])] *)
Definition node_xy (G : MultiDiGraph) (n : Z) : result point :=
  match g_nodes G !! n with
  | Some p => Ok p
  | None => Raise KeyError
  end.

Definition add_new (x : Z) (l : list Z) : list Z :=
  if existsb (Z.eqb x) l then l else l ++ [x].

(** [list(G.to_undirected().neighbors(n))]: the distinct nodes joined to
    [n] by an edge in either direction, in the order in which
    [to_undirected] meets them. *)
Definition und_neighbors (G : MultiDiGraph) (n : Z) : list Z :=
  fold_left
    (fun acc e =>
       if (fst e =? n)%Z then add_new (snd e) acc
       else if (snd e =? n)%Z then add_new (fst e) acc
       else acc)
    (g_edges G) [].

Fixpoint mapM {A B : Type} (f : A -> result B) (l : list A) : result (list B) :=
  match l with
  | [] => Ok []
  | x :: r => let* y := f x in let* ys := mapM f r in Ok (y :: ys)
  end.

(** ** Junction type by degree and angle *)

Open Scope R_scope.

(** [np.linalg.norm(v)] and [(v[0]**2 + v[1]**2)**0.5] *)
Definition norm (v : point) : R := sqrt (fst v * fst v + snd v * snd v).

(** [np.clip(a, lo, hi)] *)
Definition clip (a lo hi : R) : R := Rmin (Rmax a lo) hi.

(** [np.degrees] and [math.degrees] *)
Definition degrees (a : R) : R := a * (180 / PI).

(** The angle in degrees between [p2 - p1] and [p3 - p2]; [None] stands for
    numpy's [nan], the value of [0.0 / 0.0] when one of the vectors is null. *)
Definition _calculate_angle (p1 p2 p3 : point) : option R :=
  let vec1 := (fst p2 - fst p1, snd p2 - snd p1) in
  let vec2 := (fst p3 - fst p2, snd p3 - snd p2) in
  let dot_product := fst vec1 * fst vec2 + snd vec1 * snd vec2 in
  let norm1 := norm vec1 in
  let norm2 := norm vec2 in
  if Req_dec_T (norm1 * norm2) 0 then None
  else
    let cos_angle := dot_product / (norm1 * norm2) in
    Some (degrees (acos (clip cos_angle (-1) 1))).

(** Comparisons of floats that may be [nan]: false as soon as one is. *)
Definition nan_gt (a b : option R) : bool :=
  match a, b with
  | Some x, Some y => if Rgt_dec x y then true else false
  | _, _ => false
  end.

Definition nan_le (a b : option R) : bool :=
  match a, b with
  | Some x, Some y => if Rle_dec x y then true else false
  | _, _ => false
  end.

(** [max(l)] for a non-empty list: the first element is kept until a
    later one compares greater. *)
Definition py_max (first : option R) (rest : list (option R)) : option R :=
  fold_left (fun m x => if nan_gt x m then x else m) rest first.

Definition classify_node_other (G : MultiDiGraph) (node_id : Z)
    (angle_threshold : R) : result (option JunctionType.t) :=
  let nbrs := und_neighbors G node_id in
  let deg := length nbrs in
  if (deg <=? 2)%nat then Ok None
  else if (4 <=? deg)%nat then Ok (Some JunctionType.CROSSROAD)
  else
    let* p0 := node_xy G node_id in
    let* pts := mapM (node_xy G) nbrs in
    let angles :=
      map (fun i => _calculate_angle (nth i pts (0, 0)) p0
                      (nth ((i + 1) mod 3) pts (0, 0)))
          (seq 0 3) in
    match angles with
    | a :: rest =>
        if nan_le (py_max a rest) (Some angle_threshold)
        then Ok (Some JunctionType.T_JUNCTION)
        else Ok (Some JunctionType.Y_JUNCTION)
    | [] => Raise ValueError
    end.

(** ** Legs and their relative position *)

(** What the code asks of a shapely [LineString]. *)
Class LineOps (L : Type) : Type := {
  project : L -> point -> R;        (* geom.project(pt) *)
  interpolate : L -> R -> point;    (* geom.interpolate(dist) *)
  line_length : L -> R              (* geom.length *)
}.

Record leg (L : Type) : Type := {
  nbr_id : Z;
  nbr_coord : point;
  in_turns : option (list LaneTurn.t);
  geom : L
}.

Arguments nbr_id {L} _.
Arguments nbr_coord {L} _.
Arguments in_turns {L} _.
Arguments geom {L} _.

Definition get_dir_vector {L : Type} `{LineOps L} (node_pt : point)
    (l : leg L) : point :=
  let g := geom l in
  let proj_dist := project g node_pt in
  let pt_on := interpolate g proj_dist in
  let eps := Rmin (line_length g * (1 / 100)) (1 / 1000) in
  let pt2 :=
    if Rle_dec (proj_dist + eps) (line_length g)
    then interpolate g (proj_dist + eps)
    else interpolate g (proj_dist - eps) in
  (fst pt2 - fst pt_on, snd pt2 - snd pt_on).

(** [a / b] on Python floats. *)
Definition py_div (a b : R) : result R :=
  if Req_dec_T b 0 then Raise ZeroDivisionError else Ok (a / b).

Definition get_position {L : Type} `{LineOps L} (G : MultiDiGraph)
    (node_id : Z) (leg1 leg2 : leg L) (angle_threshold : R)
    (right_lane_drive : bool) : result NbrPosition.t :=
  let* node_pt := node_xy G node_id in
  let v1 := get_dir_vector node_pt leg1 in
  let v2 := get_dir_vector node_pt leg2 in
  let dot := fst v1 * fst v2 + snd v1 * snd v2 in
  let mag1 := norm v1 in
  let mag2 := norm v2 in
  if Req_dec_T mag1 0 then Ok NbrPosition.FAR
  else if Req_dec_T mag2 0 then Ok NbrPosition.FAR
  else
    let* c := py_div dot (mag1 * mag2) in
    let cosang := Rmax (-1) (Rmin 1 c) in
    let angle := degrees (acos cosang) in
    if Rgt_dec angle (180 - angle_threshold) then Ok NbrPosition.OPP
    else if Rlt_dec (Rabs (angle - 90)) angle_threshold then
      let cross := fst v1 * snd v2 - snd v1 * fst v2 in
      if right_lane_drive
      then Ok (if Rlt_dec cross 0 then NbrPosition.NEAR else NbrPosition.FAR)
      else Ok (if Rgt_dec cross 0 then NbrPosition.NEAR else NbrPosition.FAR)
    else Ok NbrPosition.FAR.

Close Scope R_scope.

(** ** Conflict lookup and counting *)

Definition Direction_of_name (s : string) : result Direction.t :=
  if String.eqb s "THRU" then Ok Direction.THRU
  else if String.eqb s "TURN" then Ok Direction.TURN
  else if String.eqb s "CROSS" then Ok Direction.CROSS
  else if String.eqb s "REVERSE" then Ok Direction.REVERSE
  else Raise KeyError.

Definition NbrPosition_of_name (s : string) : result NbrPosition.t :=
  if String.eqb s "OPP" then Ok NbrPosition.OPP
  else if String.eqb s "NEAR" then Ok NbrPosition.NEAR
  else if String.eqb s "FAR" then Ok NbrPosition.FAR
  else Raise KeyError.

Definition JuncConflict_of_name (s : string) : result JuncConflict.t :=
  if String.eqb s "INTERSECT" then Ok JuncConflict.INTERSECT
  else if String.eqb s "MERGE" then Ok JuncConflict.MERGE
  else if String.eqb s "NO_CONFLICT" then Ok JuncConflict.NO_CONFLICT
  else Raise KeyError.

(** One row of the JSON-like classifier table. *)
Record rule : Type := {
  this_move : string;
  other_move : string;
  nbr_pos : string;
  conflict : string
}.

(** The [and] chain of the source evaluates its second and third enum
    lookup only when the comparisons before them succeeded. *)
Fixpoint get_conflict_type (this other : Direction.t) (pos : NbrPosition.t)
    (conflict_classifier : list rule) : result JuncConflict.t :=
  match conflict_classifier with
  | [] => Ok JuncConflict.NO_CONFLICT
  | entry :: rest =>
      let* a := Direction_of_name (this_move entry) in
      if Direction.eqb a this then
        let* b := Direction_of_name (other_move entry) in
        if Direction.eqb b other then
          let* p := NbrPosition_of_name (nbr_pos entry) in
          if NbrPosition.eqb p pos
          then JuncConflict_of_name (conflict entry)
          else get_conflict_type this other pos rest
        else get_conflict_type this other pos rest
      else get_conflict_type this other pos rest
  end.

Definition left_variants : list LaneTurn.t :=
  [LaneTurn.LEFT; LaneTurn.SLIGHT_LEFT; LaneTurn.SHARP_LEFT;
   LaneTurn.MERGE_TO_LEFT].

Definition right_variants : list LaneTurn.t :=
  [LaneTurn.RIGHT; LaneTurn.SLIGHT_RIGHT; LaneTurn.SHARP_RIGHT;
   LaneTurn.MERGE_TO_RIGHT].

Definition _to_direction (right_lane_drive : bool) (turn : LaneTurn.t)
  : Direction.t :=
  match turn with
  | LaneTurn.THROUGH => Direction.THRU
  | LaneTurn.REVERSE => Direction.REVERSE
  | _ =>
      if existsb (LaneTurn.eqb turn)
           (if right_lane_drive then right_variants else left_variants)
      then Direction.TURN
      else Direction.CROSS
  end.

(** A [Counter]: the count of a key, 0 for a key it does not hold. *)
Definition Counter : Type := JuncConflict.t -> nat.

Definition incr (k : JuncConflict.t) (c : Counter) : Counter :=
  fun k' => if JuncConflict.eqb k k' then S (c k') else c k'.

(** The calls a run makes, oldest first.  They are recorded next to the
    counter so that one can say how often a position was computed and a
    pair of movements classified. *)
Inductive call : Type :=
| CallGetPosition
| CallGetConflictType (this other : Direction.t) (pos : NbrPosition.t).

Record run_state : Type := {
  conflict_counter : Counter;
  calls : list call
}.

(** State that outlives an exception, and a result. *)
Definition M (A : Type) : Type := run_state -> result A * run_state.

Definition ret {A : Type} (a : A) : M A := fun s => (Ok a, s).

Definition mbind_M {A B : Type} (m : M A) (k : A -> M B) : M B :=
  fun s =>
    match m s with
    | (Ok a, s') => k a s'
    | (Raise e, s') => (Raise e, s')
    end.

Notation "'let!' x ':=' m 'in' k" := (mbind_M m (fun x => k))
  (at level 10, x name, m at level 100, k at level 200).

Definition count (k : JuncConflict.t) : M unit :=
  fun s => (Ok tt, {| conflict_counter := incr k (conflict_counter s);
                      calls := calls s |}).

(** Run a pure, possibly failing, computation and record the call. *)
Definition called {A : Type} (c : call) (r : result A) : M A :=
  fun s => (r, {| conflict_counter := conflict_counter s;
                  calls := calls s ++ [c] |}).

Fixpoint for_each {A : Type} (l : list A) (body : A -> M unit) : M unit :=
  match l with
  | [] => ret tt
  | x :: r => let! _u := body x in for_each r body
  end.

(** [itertools.product(a, b)] *)
Definition product {A B : Type} (a : list A) (b : list B) : list (A * B) :=
  flat_map (fun x => map (fun y => (x, y)) b) a.

Definition count_pair_interaction {L : Type} `{LineOps L}
    (G : MultiDiGraph) (node_id : Z) (leg1 leg2 : leg L)
    (conflict_classifier : list rule) (angle_threshold : R)
    (right_lane_drive : bool) : M unit :=
  match in_turns leg1, in_turns leg2 with
  | Some leg1_in_turns, Some leg2_in_turns =>
      let! pos := called CallGetPosition
                  (get_position G node_id leg1 leg2 angle_threshold
                     right_lane_drive) in
      for_each (product leg1_in_turns leg2_in_turns)
        (fun t =>
           let this := _to_direction right_lane_drive (fst t) in
           let other := _to_direction right_lane_drive (snd t) in
           let! c := called (CallGetConflictType this other pos)
                     (get_conflict_type this other pos conflict_classifier) in
           count c)
  | _, _ => count JuncConflict.NO_CONFLICT
  end.

(** The default table of [WebRequest.junc_conflict_classifier]. *)
Definition mk_rule (a b p c : string) : rule :=
  {| this_move := a; other_move := b; nbr_pos := p; conflict := c |}.

Definition default_conflict_classifier : list rule :=
  [ mk_rule "THRU" "THRU" "OPP" "NO_CONFLICT";
    mk_rule "THRU" "THRU" "NEAR" "INTERSECT";
    mk_rule "THRU" "THRU" "FAR" "INTERSECT";
    mk_rule "THRU" "TURN" "OPP" "NO_CONFLICT";
    mk_rule "THRU" "TURN" "NEAR" "MERGE";
    mk_rule "THRU" "TURN" "FAR" "NO_CONFLICT";
    mk_rule "THRU" "CROSS" "OPP" "INTERSECT";
    mk_rule "THRU" "CROSS" "NEAR" "INTERSECT";
    mk_rule "THRU" "CROSS" "FAR" "MERGE";
    mk_rule "THRU" "REVERSE" "OPP" "MERGE";
    mk_rule "THRU" "REVERSE" "NEAR" "INTERSECT";
    mk_rule "THRU" "REVERSE" "FAR" "INTERSECT";
    mk_rule "TURN" "THRU" "OPP" "NO_CONFLICT";
    mk_rule "TURN" "THRU" "NEAR" "NO_CONFLICT";
    mk_rule "TURN" "THRU" "FAR" "MERGE";
    mk_rule "TURN" "TURN" "OPP" "NO_CONFLICT";
    mk_rule "TURN" "TURN" "NEAR" "NO_CONFLICT";
    mk_rule "TURN" "TURN" "FAR" "NO_CONFLICT";
    mk_rule "TURN" "CROSS" "OPP" "MERGE";
    mk_rule "TURN" "CROSS" "NEAR" "NO_CONFLICT";
    mk_rule "TURN" "CROSS" "FAR" "NO_CONFLICT";
    mk_rule "TURN" "REVERSE" "OPP" "NO_CONFLICT";
    mk_rule "TURN" "REVERSE" "NEAR" "MERGE";
    mk_rule "TURN" "REVERSE" "FAR" "NO_CONFLICT";
    mk_rule "CROSS" "THRU" "OPP" "INTERSECT";
    mk_rule "CROSS" "THRU" "NEAR" "MERGE";
    mk_rule "CROSS" "THRU" "FAR" "INTERSECT";
    mk_rule "CROSS" "TURN" "OPP" "MERGE";
    mk_rule "CROSS" "TURN" "NEAR" "NO_CONFLICT";
    mk_rule "CROSS" "TURN" "FAR" "NO_CONFLICT";
    mk_rule "CROSS" "CROSS" "OPP" "INTERSECT";
    mk_rule "CROSS" "CROSS" "NEAR" "INTERSECT";
    mk_rule "CROSS" "CROSS" "FAR" "INTERSECT";
    mk_rule "CROSS" "REVERSE" "OPP" "INTERSECT";
    mk_rule "CROSS" "REVERSE" "NEAR" "INTERSECT";
    mk_rule "CROSS" "REVERSE" "FAR" "MERGE";
    mk_rule "REVERSE" "THRU" "OPP" "MERGE";
    mk_rule "REVERSE" "THRU" "NEAR" "INTERSECT";
    mk_rule "REVERSE" "THRU" "FAR" "INTERSECT";
    mk_rule "REVERSE" "TURN" "OPP" "NO_CONFLICT";
    mk_rule "REVERSE" "TURN" "NEAR" "NO_CONFLICT";
    mk_rule "REVERSE" "TURN" "FAR" "MERGE";
    mk_rule "REVERSE" "CROSS" "OPP" "INTERSECT";
    mk_rule "REVERSE" "CROSS" "NEAR" "MERGE";
    mk_rule "REVERSE" "CROSS" "FAR" "INTERSECT";
    mk_rule "REVERSE" "REVERSE" "OPP" "INTERSECT";
    mk_rule "REVERSE" "REVERSE" "NEAR" "INTERSECT";
    mk_rule "REVERSE" "REVERSE" "FAR" "INTERSECT" ].

(** ** ODD compliance of one edge *)

Definition float_of_atom (a : atom) : result pyfloat :=
  match a with
  | ANone => Raise TypeError
  | ABool b => Ok (FFin (if b then 1 else 0))
  | AInt z => Ok (FFin (inject_Z z))
  | AFloat f => Ok f
  | AStr s =>
      match py_float s with
      | Some f => Ok f
      | None => Raise ValueError
      end
  end.

(** The numeric value of a scalar for [==]: bools and ints compare as
    numbers. *)
Definition num_of_atom (a : atom) : option pyfloat :=
  match a with
  | ABool b => Some (FFin (if b then 1 else 0))
  | AInt z => Some (FFin (inject_Z z))
  | AFloat f => Some f
  | _ => None
  end.

Definition flt_eqb (a b : pyfloat) : bool :=
  match a, b with
  | FFin x, FFin y => Qeq_bool x y
  | FInf n1, FInf n2 => Bool.eqb n1 n2
  | _, _ => false
  end.

(** [a == b] on scalars. *)
Definition atom_eqb (a b : atom) : bool :=
  match a, b with
  | ANone, ANone => true
  | AStr s, AStr t => String.eqb s t
  | _, _ =>
      match num_of_atom a, num_of_atom b with
      | Some x, Some y => flt_eqb x y
      | _, _ => false
      end
  end.

Fixpoint atoms_eqb (l1 l2 : list atom) : bool :=
  match l1, l2 with
  | [], [] => true
  | a :: r1, b :: r2 => atom_eqb a b && atoms_eqb r1 r2
  | _, _ => false
  end.

(** [a == b] on values. *)
Definition py_eqb (a b : pyval) : bool :=
  match a, b with
  | PAtom x, PAtom y => atom_eqb x y
  | PList l1, PList l2 => atoms_eqb l1 l2
  | _, _ => false
  end.

(** [value in lst] *)
Definition py_in (value : pyval) (lst : list atom) : bool :=
  existsb (fun x => py_eqb value (PAtom x)) lst.

Definition ALL : pyval := PAtom (AStr "ALL").

(** [d.get(k)] and [d.get(k, default)] *)
Definition get (d : pydict) (k : string) : pyval :=
  default (PAtom ANone) (d !! k).

Definition get_or (d : pydict) (k : string) (dflt : pyval) : pyval :=
  default dflt (d !! k).

Definition is_none (v : pyval) : bool :=
  match v with
  | PAtom ANone => true
  | _ => false
  end.

(** One round of the loop over [compliance_rules]: does the edge pass? *)
Definition rule_passes (value odd_value : pyval) : bool :=
  match odd_value with
  | PList (x :: l) =>
      negb (negb (py_in ALL (x :: l))
            && (is_none value || negb (py_in value (x :: l))))
  | _ =>
      negb (negb (py_eqb odd_value ALL) && negb (py_eqb value odd_value))
  end.

(** A boolean ODD flag: a non-empty list stands for its first element. *)
Definition unwrap_flag (v : pyval) : pyval :=
  match v with
  | PList (x :: _) => PAtom x
  | _ => v
  end.

(** [to_float] of [get_min_numeric]: [None] when [float] raises
    [TypeError] or [ValueError]. *)
Definition to_float (a : atom) : option pyfloat :=
  match float_of_atom a with
  | Ok f => Some f
  | Raise _ => None
  end.

(** [min(l)] for a non-empty list *)
Definition py_min (first : pyfloat) (rest : list pyfloat) : pyfloat :=
  fold_left (fun m x => if flt_lt x m then x else m) rest first.

Definition get_min_numeric (source : pydict) (key : string)
    (fallback : pyval) : option pyfloat :=
  match get_or source key fallback with
  | PList val =>
      match omap to_float val with
      | [] => None
      | x :: r => Some (py_min x r)
      end
  | PAtom val => to_float val
  end.

Definition check_single_edge_odd_compliance (odd metadata : pydict) : bool :=
  if negb (rule_passes (get metadata "highway_type")
             (get_or odd "highway_type" ALL)) then false
  else if negb (rule_passes (get metadata "lane_markings_forward")
                  (get_or odd "lane_markings" ALL)) then false
  else
    let oneway_odd := unwrap_flag (get_or odd "oneway" (PAtom (ABool true))) in
    if negb (truthy oneway_odd) && negb (truthy (get metadata "oneway"))
    then false
    else
      let major_road_odd :=
        unwrap_flag (get_or odd "is_major_road" (PAtom (ABool true))) in
      if negb (truthy major_road_odd)
         && negb (truthy (get metadata "is_major_road"))
      then false
      else
        let min_speed_limit :=
          get_min_numeric metadata "speed_limit" (PAtom (AInt 999)) in
        let odd_speed_limit :=
          get_min_numeric odd "speed_limit" (PAtom ANone) in
        let min_lane_width :=
          get_min_numeric metadata "lane_width" (PAtom (AInt 0)) in
        let odd_lane_width :=
          get_min_numeric odd "lane_width" (PAtom ANone) in
        if match min_speed_limit, odd_speed_limit with
           | Some m, Some o => flt_gt m o
           | _, _ => false
           end
        then false
        else if match min_lane_width, odd_lane_width with
                | Some m, Some o => flt_lt m o
                | _, _ => false
                end
        then false
        else true.

(** ** The longest compliant network

    What [shape(doc['geometry'])] can be, over a type [P] of coordinate
    tuples.  Coordinate tuples are graph nodes, so they are compared with
    a decidable equality; a function [xy] places them in the plane. *)

Inductive geometry (P : Type) : Type :=
| LineString (coords : list P)
| MultiLineString (lines : list (list P))
| OtherGeometry.

Arguments LineString {P} coords.
Arguments MultiLineString {P} lines.
Arguments OtherGeometry {P}.

(** An [nx.Graph], as far as networkx documents it: its nodes in insertion
    order and its edges, each unordered pair once, in insertion order. *)
Record Graph (P : Type) : Type := {
  nodes : list P;
  edges : list (P * P)
}.

Arguments nodes {P} _.
Arguments edges {P} _.

Section Network.

Context {P : Type} `{EqDecision P}.

(** The planar position of a coordinate tuple. *)
Variable xy : P -> point.

Definition empty_graph : Graph P := {| nodes := []; edges := [] |}.

Definition has_edge (G : Graph P) (u v : P) : bool :=
  bool_decide ((u, v) ∈ edges G ∨ (v, u) ∈ edges G).

Definition add_node (G : Graph P) (u : P) : Graph P :=
  if decide (u ∈ nodes G) then G
  else {| nodes := nodes G ++ [u]; edges := edges G |}.

(** [G.add_edge(u, v, line=line)]; the attribute plays no part in the
    result. *)
Definition add_edge (G : Graph P) (u v : P) : Graph P :=
  let G1 := add_node (add_node G u) v in
  if has_edge G1 u v then G1
  else {| nodes := nodes G1; edges := edges G1 ++ [(u, v)] |}.

(** The loop over [range(len(coords) - 1)] for one line. *)
Fixpoint add_segments (G : Graph P) (coords : list P) : Graph P :=
  match coords with
  | a :: (b :: _) as r => add_segments (add_edge G a b) r
  | _ => G
  end.

Definition neighbors (G : Graph P) (u : P) : list P :=
  flat_map
    (fun e =>
       if decide (fst e = u) then [snd e]
       else if decide (snd e = u) then [fst e]
       else [])
    (edges G).

(** Breadth-first search by levels: [frontier] is the last level found. *)
Fixpoint bfs (G : Graph P) (fuel : nat) (seen frontier : list P) : list P :=
  match fuel with
  | O => seen
  | S n =>
      match remove_dups
              (list_difference (flat_map (neighbors G) frontier) seen) with
      | [] => seen
      | next => bfs G n (seen ++ next) next
      end
  end.

(** [_plain_bfs(G, v)]: the nodes reachable from [v]. *)
Definition plain_bfs (G : Graph P) (v : P) : list P :=
  bfs G (length (nodes G)) [v] [v].

Fixpoint components_from (G : Graph P) (todo seen : list P)
  : list (list P) :=
  match todo with
  | [] => []
  | v :: r =>
      if decide (v ∈ seen) then components_from G r seen
      else
        let c := plain_bfs G v in
        c :: components_from G r (seen ++ c)
  end.

(** [nx.connected_components(G)], in the order in which they are yielded. *)
Definition connected_components (G : Graph P) : list (list P) :=
  components_from G (nodes G) [].

(** [G.subgraph(c).copy().edges] *)
Definition subgraph_edges (G : Graph P) (c : list P) : list (P * P) :=
  filter (fun e => fst e ∈ c ∧ snd e ∈ c) (edges G).

(** [LineString([u, v]).length] *)
Definition segment_length (e : P * P) : R :=
  let u := xy (fst e) in
  let v := xy (snd e) in
  sqrt ((fst u - fst v) * (fst u - fst v) + (snd u - snd v) * (snd u - snd v)).

(** [sum(LineString([u, v]).length for u, v in sg.edges)] *)
Definition total_length (es : list (P * P)) : R :=
  fold_right (fun e acc => (segment_length e + acc)%R) 0%R es.

(** [max(items, key=key)]: the first item with the greatest key; a
    [ValueError] when there is none. *)
Fixpoint max_from {A : Type} (key : A -> R) (best : A) (l : list A) : A :=
  match l with
  | [] => best
  | x :: r => max_from key (if Rgt_dec (key x) (key best) then x else best) r
  end.

Definition py_max_by {A : Type} (key : A -> R) (l : list A) : result A :=
  match l with
  | [] => Raise ValueError
  | x :: r => Ok (max_from key x r)
  end.

Definition line_coords (g : geometry P) : option (list P) :=
  match g with
  | LineString coords => Some coords
  | _ => None
  end.

Definition segment_graph (lines : list (list P)) : Graph P :=
  fold_left add_segments lines empty_graph.

(** The returned feature is identified with its geometry, the
    [MultiLineString] of two-point lines. *)
Definition get_longest_network (compliant_geom : list (geometry P))
  : result (option (geometry P)) :=
  let lines := omap line_coords compliant_geom in
  if is_nil lines then Ok None
  else
    let G := segment_graph lines in
    let* longest_subgraph :=
      py_max_by total_length
        (map (subgraph_edges G) (connected_components G)) in
    let lines_out := map (fun e => [fst e; snd e]) longest_subgraph in
    if is_nil lines_out then Ok None
    else Ok (Some (MultiLineString lines_out)).

(** *** What the statements about the network say *)

Definition adjacent (G : Graph P) (u v : P) : Prop :=
  (u, v) ∈ edges G \/ (v, u) ∈ edges G.

(** Joined by a path of edges. *)
Definition connected (G : Graph P) : P -> P -> Prop := rtc (adjacent G).

(** A connected component, as the list of its nodes: a non-empty set of
    nodes that holds, with each of its nodes, exactly the nodes joined to
    it. *)
Definition is_component (G : Graph P) (c : list P) : Prop :=
  c <> []
  /\ (forall u, u ∈ c -> u ∈ nodes G)
  /\ (forall u v, u ∈ c -> (v ∈ c <-> connected G u v)).

Fixpoint pairwise_disjoint (cs : list (list P)) : Prop :=
  match cs with
  | [] => True
  | c :: r => Forall (fun c' => forall x, x ∈ c -> x ∉ c') r /\ pairwise_disjoint r
  end.

(** A partition of the nodes into connected components. *)
Definition is_partition (G : Graph P) (cs : list (list P)) : Prop :=
  Forall (is_component G) cs
  /\ (forall v, v ∈ nodes G -> exists c, c ∈ cs /\ v ∈ c)
  /\ pairwise_disjoint cs.

(** [u] and [v] follow one another in the coordinate list. *)
Fixpoint consecutive (u v : P) (coords : list P) : Prop :=
  match coords with
  | a :: (b :: _) as r => (a = u /\ b = v) \/ consecutive u v r
  | _ => False
  end.

(** What networkx maintains: no node twice, every edge between nodes, no
    edge twice in either direction, and, here, no node without an edge. *)
Definition graph_wf (G : Graph P) : Prop :=
  NoDup (nodes G)
  /\ (forall u v, (u, v) ∈ edges G -> u ∈ nodes G /\ v ∈ nodes G)
  /\ (forall u, u ∈ nodes G -> exists v, adjacent G u v).

(** What holds of [seen] and [frontier] at each level of the search
    from [v]. *)
Definition bfs_inv (G : Graph P) (v : P) (seen frontier : list P) : Prop :=
  NoDup seen
  /\ (forall x, x ∈ seen -> x ∈ nodes G)
  /\ v ∈ seen
  /\ (forall x, x ∈ seen -> connected G v x)
  /\ (forall x, x ∈ frontier -> x ∈ seen)
  /\ (forall x y, x ∈ seen -> x ∉ frontier -> adjacent G x y -> y ∈ seen).

Definition is_line_string (g : geometry P) : bool :=
  match g with
  | LineString _ => true
  | _ => false
  end.

(** A [LineString] with at least two coordinates. *)
Definition has_segment (g : geometry P) : Prop :=
  exists a b r, g = LineString (a :: b :: r).

(** The two-point lines of the returned [MultiLineString]. *)
Definition as_lines (es : list (P * P)) : list (list P) :=
  map (fun e => [fst e; snd e]) es.

End Network.

(** Integer grid points, for examples. *)
Definition grid_xy (p : Z * Z) : point := (IZR (fst p), IZR (snd p)).

(** ** Vocabulary of the statements *)

(** [_convert_to_meters s] returns a finite float within [tol] of
    [target], respectively equal to it. *)
Definition returns_close (s : string) (target tol : Q) : Prop :=
  exists f, _convert_to_meters s = Ok f /\ flt_close f target tol.

Definition returns_exactly (s : string) (target : Q) : Prop :=
  exists f, _convert_to_meters s = Ok f /\ flt_is f target.

(** The angle the docstring of [_calculate_angle] describes: between the
    vectors from [p1] to [p2] and from [p3] to [p2], that is the interior
    angle at the junction node [p2] between the legs to [p1] and [p3]. *)
Definition interior_angle_doc (p1 p2 p3 : point) : option R :=
  let vec1 := (fst p2 - fst p1, snd p2 - snd p1)%R in
  let vec2 := (fst p2 - fst p3, snd p2 - snd p3)%R in
  let dot_product := (fst vec1 * fst vec2 + snd vec1 * snd vec2)%R in
  if Req_dec_T (norm vec1 * norm vec2) 0 then None
  else
    Some (degrees (acos (clip (dot_product / (norm vec1 * norm vec2)) (-1) 1))).

(** The three angles [classify_node_other] computes at a node with the
    neighbours at [pa], [pb] and [pc]. *)
Definition leg_angles (p0 pa pb pc : point) : list (option R) :=
  [_calculate_angle pa p0 pb; _calculate_angle pb p0 pc;
   _calculate_angle pc p0 pa].

(** The three interior angles of the docstring at the same node. *)
Definition interior_angles_doc (p0 pa pb pc : point) : list (option R) :=
  [interior_angle_doc pa p0 pb; interior_angle_doc pb p0 pc;
   interior_angle_doc pc p0 pa].

(** Every name of a classifier row is a member of its enumeration. *)
Definition is_ok {A : Type} (r : result A) : Prop :=
  match r with
  | Ok _ => True
  | Raise _ => False
  end.

Definition rule_wf (r : rule) : Prop :=
  is_ok (Direction_of_name (this_move r))
  /\ is_ok (Direction_of_name (other_move r))
  /\ is_ok (NbrPosition_of_name (nbr_pos r))
  /\ is_ok (JuncConflict_of_name (conflict r)).

(** The conflict type looked up for a pair of lane turns is [k]. *)
Definition looks_up (table : list rule) (right_lane_drive : bool)
    (pos : NbrPosition.t) (k : JuncConflict.t)
    (t : LaneTurn.t * LaneTurn.t) : bool :=
  match get_conflict_type (_to_direction right_lane_drive (fst t))
          (_to_direction right_lane_drive (snd t)) pos table with
  | Ok c => JuncConflict.eqb c k
  | Raise _ => false
  end.

(** How many pairs of [pairs] look up [k]. *)
Definition tally (table : list rule) (right_lane_drive : bool)
    (pos : NbrPosition.t) (k : JuncConflict.t)
    (pairs : list (LaneTurn.t * LaneTurn.t)) : nat :=
  length (List.filter (looks_up table right_lane_drive pos k) pairs).

Definition call_of_pair (right_lane_drive : bool) (pos : NbrPosition.t)
    (t : LaneTurn.t * LaneTurn.t) : call :=
  CallGetConflictType (_to_direction right_lane_drive (fst t))
    (_to_direction right_lane_drive (snd t)) pos.

(** ** Inputs of the examples *)

(** An edge with a turn-lanes tag of three lanes and no lanes tag. *)
Definition turn_only_data : pydict :=
  {[ "turn:lanes:forward" := PAtom (AStr "left|through|right") ]}.

(** An edge whose lanes tag is a list and whose turn-lanes tag is a
    pre-split list. *)
Definition turn_list_data : pydict :=
  <[ "lanes:forward" := PList [AStr "2"; AStr "3"] ]>
    {[ "turn:lanes:forward" := PList [AStr "left"; AStr "through;right"] ]}.

(** An ODD that only caps the speed limit at 50, one that only asks for
    lanes at least 3 wide, and an edge record with no attribute at all. *)
Definition odd_speed_50 : pydict := {[ "speed_limit" := PList [AInt 50] ]}.
Definition odd_width_3 : pydict := {[ "lane_width" := PList [AInt 3] ]}.
Definition bare_metadata : pydict := ∅.

(** A node with three neighbours, two of them in the same direction:
    legs towards (1, 0), (2, 0) and (-1, 0). *)
Definition fork_graph : MultiDiGraph :=
  {| g_nodes := <[0%Z := (0, 0)%R]> (<[1%Z := (1, 0)%R]>
                  (<[2%Z := (2, 0)%R]> (<[3%Z := (-1, 0)%R]> ∅)));
     g_edges := [(0, 1); (0, 2); (0, 3)]%Z |}.

(** The point of the unit circle at [d] degrees, and a node at the origin
    with legs at 0, 100 and -130 degrees: interior angles 100, 130, 130. *)
Definition unit_at (d : R) : point :=
  (cos (d * (PI / 180)), sin (d * (PI / 180)))%R.

Definition three_way_graph : MultiDiGraph :=
  {| g_nodes := <[0%Z := (0, 0)%R]> (<[1%Z := unit_at 0]>
                  (<[2%Z := unit_at 100]> (<[3%Z := unit_at (-130)]> ∅)));
     g_edges := [(0, 1); (2, 0); (0, 3)]%Z |}.

(** A node at the origin with legs at 0, 150 and 210 degrees: interior
    angles 150, 60 and 150. *)
Definition wye_graph : MultiDiGraph :=
  {| g_nodes := <[0%Z := (0, 0)%R]> (<[1%Z := unit_at 0]>
                  (<[2%Z := unit_at 150]> (<[3%Z := unit_at 210]> ∅)));
     g_edges := [(1, 0); (0, 2); (0, 3)]%Z |}.

(** A line string that shrank to one point: every distance along it is 0
    and every interpolation gives that point. *)
Definition point_line_ops : LineOps point :=
  {| project := fun _ _ => 0%R;
     interpolate := fun l _ => l;
     line_length := fun _ => 0%R |}.

Definition collapsed_leg : leg point :=
  {| nbr_id := 1; nbr_coord := (1, 0)%R;
     in_turns := Some [LaneTurn.THROUGH; LaneTurn.LEFT]; geom := (0, 0)%R |}.

Definition other_leg : leg point :=
  {| nbr_id := 2; nbr_coord := (2, 0)%R;
     in_turns := Some [LaneTurn.RIGHT]; geom := (2, 0)%R |}.

Definition empty_run : run_state :=
  {| conflict_counter := fun _ => 0%nat; calls := [] |}.

(** Two separate sets of lines on the integer grid: one segment of length
    10, and an L of two lines of lengths 15 and 10. *)
Definition short_line : list (Z * Z) := [(0, 0); (10, 0)]%Z.
Definition long_line_1 : list (Z * Z) := [(0, 5); (15, 5)]%Z.
Definition long_line_2 : list (Z * Z) := [(15, 5); (15, 15)]%Z.

Definition two_networks : list (geometry (Z * Z)) :=
  [LineString short_line; LineString long_line_1; LineString long_line_2].

(** Geometries none of which is a [LineString]. *)
Definition no_line_strings : list (geometry (Z * Z)) :=
  [MultiLineString [short_line; long_line_1]; OtherGeometry].

(** ** Further vocabulary: strings *)

Fixpoint str_forall (p : ascii -> bool) (s : string) : bool :=
  match s with
  | EmptyString => true
  | String c r => p c && str_forall p r
  end.

(** The string is not empty and its first character satisfies [p]. *)
Definition starts_with (p : ascii -> bool) (s : string) : bool :=
  match s with
  | EmptyString => false
  | String c _ => p c
  end.

Definition is_digit_or_dot (c : ascii) : bool := is_digit c || is_char 46 c.

(** The factor [_convert_to_meters] applies for a unit it knows. *)
Definition unit_factor (unit : string) : option Q :=
  if in_strs unit ["m"; "meter"; "meters"] then Some 1%Q
  else if in_strs unit ["km"; "kilometer"; "kilometre"] then Some 1000%Q
  else if in_strs unit ["mi"; "mile"; "miles"] then Some 1609.344%Q
  else if in_strs unit ["ft"; "feet"] then Some 0.3048%Q
  else if in_strs unit ["in"; "inch"; "inches"] then Some 0.0254%Q
  else None.


(** The characters of a number, of blanks and of a unit. *)
Definition plain_char (c : ascii) : bool :=
  is_digit_or_dot c || is_space c || is_lower c.

(** ** Further vocabulary: the classifier table and positions *)

(** A row whose three names stand for the triple looked up. *)
Definition rule_matches (this other : Direction.t) (pos : NbrPosition.t)
    (r : rule) : bool :=
  match Direction_of_name (this_move r), Direction_of_name (other_move r),
        NbrPosition_of_name (nbr_pos r) with
  | Ok a, Ok b, Ok p =>
      Direction.eqb a this && Direction.eqb b other && NbrPosition.eqb p pos
  | _, _, _ => false
  end.

(** The position of the first leg as seen from the second one. *)
Definition mirror (pos : NbrPosition.t) : NbrPosition.t :=
  match pos with
  | NbrPosition.OPP => NbrPosition.OPP
  | NbrPosition.NEAR => NbrPosition.FAR
  | NbrPosition.FAR => NbrPosition.NEAR
  end.

(** A leg that leaves the origin in the direction [d]: distances along it
    are measured from the origin, and it is one unit long. *)
Definition ray_line_ops : LineOps point :=
  {| project := fun _ _ => 0%R;
     interpolate := fun d t => (t * fst d, t * snd d)%R;
     line_length := fun _ => 1%R |}.

Definition east_leg : leg point :=
  {| nbr_id := 1; nbr_coord := (1, 0)%R;
     in_turns := Some [LaneTurn.THROUGH]; geom := (1, 0)%R |}.

Definition north_leg : leg point :=
  {| nbr_id := 2; nbr_coord := (0, 1)%R;
     in_turns := Some [LaneTurn.THROUGH]; geom := (0, 1)%R |}.

(** ** ODD compliance of one junction

    [needle in hay] on two strings. *)
Fixpoint is_substring (needle hay : string) : bool :=
  String.prefix needle hay
  || match hay with
     | EmptyString => false
     | String _ r => is_substring needle r
     end.

(** [x in container]: membership in a list, a substring test in a string;
    a string asks for a string on its left, and no other scalar is
    iterable. *)
Definition py_contains (x container : pyval) : result bool :=
  match container with
  | PList l => Ok (py_in x l)
  | PAtom (AStr s) =>
      match x with
      | PAtom (AStr t) => Ok (is_substring t s)
      | _ => Raise TypeError
      end
  | PAtom _ => Raise TypeError
  end.

(** [member in container] for a member of [JuncConflict]: a plain [Enum]
    member equals no string, number or [None], so it is in no list of
    scalars; a string refuses it as left operand. *)
Definition enum_in (container : pyval) : result bool :=
  match container with
  | PList _ => Ok false
  | PAtom _ => Raise TypeError
  end.

(** The metadata of a junction feature: [metadata.get('junc_type')] and
    the items of [metadata.get('conflict_counter', {})], counts as the
    integers [analyze_node] wrote. *)
Record junction_metadata : Type := {
  junc_type : pyval;
  conflict_counter_str : gmap string Z
}.

(** [Counter({JuncConflict[name]: count for name, count in ...})] *)
Definition counter_of_names (items : list (string * Z))
  : result (list (JuncConflict.t * Z)) :=
  mapM (fun item =>
          let* c := JuncConflict_of_name (fst item) in Ok (c, snd item))
       items.

(** The loop over the counter: is there a counted conflict that is not
    in the list of the ODD? *)
Fixpoint conflict_outside (conflict_counter : list (JuncConflict.t * Z))
    (odd_junction_conflicts : pyval) : result bool :=
  match conflict_counter with
  | [] => Ok false
  | (_, n) :: rest =>
      if (n =? 0)%Z then conflict_outside rest odd_junction_conflicts
      else
        let* listed := enum_in odd_junction_conflicts in
        if negb listed then Ok true
        else conflict_outside rest odd_junction_conflicts
  end.

Definition check_single_junction_odd_incompliance (odd : pydict)
    (metadata : junction_metadata) : result bool :=
  let odd_junction_types := get_or odd "junction_type" (PList [AStr "ALL"]) in
  let odd_junction_conflicts :=
    get_or odd "junction_conflict" (PList [AStr "ALL"]) in
  let junction_type := junc_type metadata in
  let* conflict_counter :=
    counter_of_names (map_to_list (conflict_counter_str metadata)) in
  let* all_types := py_contains ALL odd_junction_types in
  let* wrong_type :=
    if all_types then Ok false
    else if is_none junction_type then Ok true
    else
      let* listed := py_contains junction_type odd_junction_types in
      Ok (negb listed) in
  if wrong_type then Ok true
  else
    let* all_conflicts := py_contains ALL odd_junction_conflicts in
    if all_conflicts then Ok false
    else conflict_outside conflict_counter odd_junction_conflicts.

(** Every name of the counter is a member of [JuncConflict]. *)
Definition counter_names_known (m : gmap string Z) : Prop :=
  forall name n, m !! name = Some n -> is_ok (JuncConflict_of_name name).


(** A T-junction with two merging conflicts. *)
Definition merging_t_junction : junction_metadata :=
  {| junc_type := PAtom (AStr "T_JUNCTION");
     conflict_counter_str := {[ "MERGE" := 2%Z ]} |}.

(** A junction document whose counter holds a name that is no member. *)
Definition stale_junction : junction_metadata :=
  {| junc_type := PAtom (AStr "CROSSROAD");
     conflict_counter_str := {[ "CROSSING" := 1%Z ]} |}.

(** A junction document without a type. *)
Definition untyped_junction : junction_metadata :=
  {| junc_type := PAtom ANone; conflict_counter_str := ∅ |}.

(** ** The flags of the edge check on their own

    [check_single_edge_odd_compliance_simulated] of
    [reproduce_boolean_bug.py]. *)
Definition check_single_edge_odd_compliance_simulated (odd metadata : pydict)
  : bool :=
  let oneway_odd := unwrap_flag (get_or odd "oneway" (PAtom (ABool true))) in
  if negb (truthy oneway_odd) && negb (truthy (get metadata "oneway"))
  then false
  else
    let major_road_odd :=
      unwrap_flag (get_or odd "is_major_road" (PAtom (ABool true))) in
    if negb (truthy major_road_odd)
       && negb (truthy (get metadata "is_major_road"))
    then false
    else true.

(** An ODD as the spreadsheet of predefined ODDs gives it, every cell as
    text, and a two-way edge. *)
Definition odd_oneway_text_false : pydict :=
  {[ "oneway" := PList [AStr "False"] ]}.

Definition two_way_edge : pydict := {[ "oneway" := PAtom (ABool false) ]}.

(** An edge as the road-feature documents store it. *)
Definition marked_edge : pydict :=
  <[ "lane_markings_forward" := PList [AStr "left"; AStr "through"] ]>
    (<[ "highway_type" := PAtom (AStr "primary") ]>
       (<[ "speed_limit" := PList [AInt 30; AInt 60] ]> ∅)).

Definition odd_markings : pydict :=
  {[ "lane_markings" := PList [AStr "left"; AStr "through"] ]}.

(** ** Further vocabulary: turn lanes and widths *)

(** Every [direction] the loops of [_parse_lane_data] visit. *)
Definition turn_tokens (lanes : list string) : list string :=
  flat_map (py_split 59) lanes.

(** The token [tok] is the name of the turn [t], whatever its case and
    the blanks around it. *)
Definition names_turn (tok : string) (t : LaneTurn.t) : Prop :=
  LaneTurn.of_name (py_upper (py_strip tok)) = Some t.

(** ** The width of an edge: [_parse_edge_width] *)

(** [nl = int(x)] kept when it is at least 1, under a [try] that catches
    [ValueError], [TypeError] and, for a list element, [IndexError]. *)
Definition lanes_at_least_one (x : atom) : result (option Z) :=
  match py_int x with
  | Ok nl => Ok (if (1 <=? nl)%Z then Some nl else None)
  | Raise ValueError | Raise TypeError | Raise IndexError => Ok None
  | Raise e => Raise e
  end.

Section EdgeWidth.

(** [str(val)], the first step of [_convert_to_meters]: the text itself
    when the value is a string.  The text of a float or of a list is not
    modelled, so the function is a parameter. *)
Variable py_str : pyval -> string.

(** [_convert_to_meters(data[k])] *)
Definition convert_value (v : pyval) : result pyfloat :=
  _convert_to_meters (py_str v).

Definition _parse_edge_width (data : pydict) (default_lane_width : Q)
  : result (pyfloat * bool) :=
  match data !! "width" with
  | Some v => let* w := convert_value v in Ok (w, false)
  | None =>
      match data !! "est_width" with
      | Some v => let* w := convert_value v in Ok (w, true)
      | None =>
          let lanes_val := get data "lanes" in
          (* a) single int or numeric string *)
          let* num_lanes :=
            match lanes_val with
            | PList _ | PAtom ANone => Ok None
            | PAtom a => lanes_at_least_one a
            end in
          (* b) use _parse_lane_data *)
          let* parsed :=
            match num_lanes with
            | Some n => Ok (Some n, None)
            | None =>
                let* r := _parse_lane_data data in
                let '(_, parsed_lanes, parsed_est) := r in
                Ok (if (1 <=? parsed_lanes)%Z then Some parsed_lanes else None,
                    Some parsed_est)
            end in
          let '(num_lanes, parsed_est) := parsed in
          (* c) the first element of a lanes list *)
          let* num_lanes :=
            match num_lanes, lanes_val, parsed_est with
            | None, PList l, Some true =>
                match l with
                | [] => Ok None
                | first :: _ => lanes_at_least_one first
                end
            | _, _, _ => Ok num_lanes
            end in
          (* d) final fallback *)
          let num_lanes :=
            match num_lanes with
            | Some n => if (n <? 1)%Z then 1%Z else n
            | None => 1%Z
            end in
          Ok (FFin (default_lane_width * inject_Z num_lanes), true)
      end
  end.

End EdgeWidth.

(** [str] where the examples need it: the text of a string, of [None]
    and of a boolean.  The examples hold no number and no list; these are
    given the text of [None] here. *)
Definition str_of_scalar (v : pyval) : string :=
  match v with
  | PAtom (AStr s) => s
  | PAtom (ABool true) => "True"
  | PAtom (ABool false) => "False"
  | _ => "None"
  end.

(** An edge with a turn-lanes tag in mixed case with blanks and an
    unknown turn. *)
Definition mixed_turn_data : pydict :=
  {[ "turn:lanes:forward" := PAtom (AStr "Left; through |sideways| RIGHT ;left") ]}.

(** An edge whose width is given in centimetres, and one with a lane
    count only. *)
Definition width_in_cm_data : pydict :=
  <[ "width" := PAtom (AStr "350 cm") ]> {[ "lanes" := PAtom (AStr "2") ]}.

Definition two_lane_data : pydict := {[ "lanes" := PAtom (AStr "2") ]}.

(** ** The graph with its tags

    What the junction functions read from [G] beside the coordinates: the
    other attributes of a node, and the edges that leave and reach a node
    of the graph, each with its attributes and its ['geometry'], in the
    order [G.out_edges(n, data=True, keys=True)] (which is also
    [G.edges([n], ...)] and [G.edges(n, ...)]) and
    [G.in_edges(n, data=True, keys=True)] give them. *)
Inductive raw_geom (L : Type) : Type :=
| NoGeometry                (* no 'geometry' attribute *)
| Line (l : L)              (* a LineString *)
| Wkt (s : string).         (* a WKT string *)

Arguments NoGeometry {L}.
Arguments Line {L} l.
Arguments Wkt {L} s.

Record osm_edge (L : Type) : Type := {
  e_src : Z;
  e_dst : Z;
  e_data : pydict;
  e_geometry : raw_geom L
}.

Arguments e_src {L} _.
Arguments e_dst {L} _.
Arguments e_data {L} _.
Arguments e_geometry {L} _.

Record OsmGraph (L : Type) : Type := {
  og_graph : MultiDiGraph;
  og_tags : gmap Z pydict;
  og_out_edges : Z -> list (osm_edge L);
  og_in_edges : Z -> list (osm_edge L)
}.

Arguments og_graph {L} _.
Arguments og_tags {L} _.
Arguments og_out_edges {L} _ _.
Arguments og_in_edges {L} _ _.

(** ** Junction type by tag *)

(** [key in JunctionType.__members__] and [JunctionType[key]] *)
Definition JunctionType_of_name (key : string) : option JunctionType.t :=
  if String.eqb key "ROUNDABOUT" then Some JunctionType.ROUNDABOUT
  else if String.eqb key "CIRCULAR" then Some JunctionType.CIRCULAR
  else if String.eqb key "JUGHANDLE" then Some JunctionType.JUGHANDLE
  else if String.eqb key "MINI_ROUNDABOUT" then Some JunctionType.MINI_ROUNDABOUT
  else if String.eqb key "TURNING_CIRCLE" then Some JunctionType.TURNING_CIRCLE
  else if String.eqb key "TURNING_LOOP" then Some JunctionType.TURNING_LOOP
  else if String.eqb key "MOTORWAY_JUNCTION"
       then Some JunctionType.MOTORWAY_JUNCTION
  else if String.eqb key "ISLAND" then Some JunctionType.ISLAND
  else if String.eqb key "PASSING_PLACE" then Some JunctionType.PASSING_PLACE
  else if String.eqb key "T_JUNCTION" then Some JunctionType.T_JUNCTION
  else if String.eqb key "Y_JUNCTION" then Some JunctionType.Y_JUNCTION
  else if String.eqb key "CROSSROAD" then Some JunctionType.CROSSROAD
  else None.

(** [raw.replace(':', '_').upper()] *)
Definition tag_key (raw : string) : string :=
  py_upper (str_map (fun c => if is_char 58 c then "_"%char else c) raw).

(** The loop of [classify_edge_tag] over the attributes of the edges. *)
Fixpoint first_edge_tag (datas : list pydict) : result (option JunctionType.t) :=
  match datas with
  | [] => Ok None
  | data :: rest =>
      let raw := get data "junction" in
      if negb (truthy raw) then first_edge_tag rest
      else
        match raw with
        | PAtom (AStr s) =>
            match JunctionType_of_name (tag_key s) with
            | Some jt => Ok (Some jt)
            | None => first_edge_tag rest
            end
        | _ => Raise AttributeError          (* no [replace] *)
        end
  end.

Definition classify_edge_tag {L : Type} (G : OsmGraph L) (node_id : Z)
  : result (option JunctionType.t) :=
  first_edge_tag (map e_data (og_out_edges G node_id)).

(** The loop of [classify_node_tag] over the tags. *)
Fixpoint first_node_tag (tags : list atom) : result (option JunctionType.t) :=
  match tags with
  | [] => Ok None
  | AStr t :: rest =>
      match JunctionType_of_name (tag_key t) with
      | Some jt => Ok (Some jt)
      | None => first_node_tag rest
      end
  | _ :: _ => Raise AttributeError            (* no [replace] *)
  end.

Definition classify_node_tag {L : Type} (G : OsmGraph L) (node_id : Z)
  : result (option JunctionType.t) :=
  match g_nodes (og_graph G) !! node_id with
  | None => Raise KeyError
  | Some _ =>
      let data := default ∅ (og_tags G !! node_id) in
      let raw := get data "junction" in
      let raw := if is_none raw then get data "highway" else raw in
      if is_none raw then Ok None
      else
        first_node_tag
          match raw with
          | PList tags => tags
          | PAtom t => [t]
          end
  end.

(** [classify_edge_tag(G, n) or classify_node_tag(G, n) or
    classify_node_other(G, n, threshold)] of [analyze_node], which is also
    the body of the loop of [classify_all]: a member of [JunctionType] is
    true, [None] is not. *)
Definition junction_type_of {L : Type} (G : OsmGraph L) (node_id : Z)
    (junc_ty_angle_threshold : R) : result (option JunctionType.t) :=
  let* by_edge := classify_edge_tag G node_id in
  match by_edge with
  | Some jt => Ok (Some jt)
  | None =>
      let* by_node := classify_node_tag G node_id in
      match by_node with
      | Some jt => Ok (Some jt)
      | None => classify_node_other (og_graph G) node_id junc_ty_angle_threshold
      end
  end.

(** An edge attribute dict whose junction tag, if any, names no junction
    type: the loop of [classify_edge_tag] passes it over. *)
Definition edge_tag_unknown (data : pydict) : Prop :=
  truthy (get data "junction") = false
  \/ exists s, get data "junction" = PAtom (AStr s)
               /\ JunctionType_of_name (tag_key s) = None.

(** A node tagged as a turning circle whose second outgoing edge belongs
    to a roundabout; the node itself has no coordinates. *)
Definition roundabout_exit : OsmGraph point :=
  {| og_graph := {| g_nodes := ∅; g_edges := [(7, 8); (7, 9)]%Z |};
     og_tags := {[ 7%Z := {[ "highway" := PAtom (AStr "turning_circle") ]} ]};
     og_out_edges := fun n =>
       if (n =? 7)%Z then
         [ {| e_src := 7; e_dst := 8;
              e_data := {[ "junction" := PAtom (AStr "yes") ]};
              e_geometry := NoGeometry |};
           {| e_src := 7; e_dst := 9;
              e_data := {[ "junction" := PAtom (AStr "Roundabout") ]};
              e_geometry := NoGeometry |} ]
       else [];
     og_in_edges := fun _ => [] |}.

(** A node with a junction tag that names no junction type and a highway
    tag that does. *)
Definition shadowed_turning_circle : OsmGraph point :=
  {| og_graph := {| g_nodes := {[ 7%Z := (0, 0)%R ]}; g_edges := [] |};
     og_tags :=
       {[ 7%Z := <[ "junction" := PAtom (AStr "yes") ]>
                   {[ "highway" := PAtom (AStr "turning_circle") ]} ]};
     og_out_edges := fun _ => [];
     og_in_edges := fun _ => [] |}.

(** ** The legs of a node: [get_legs] *)

Section Legs.

Context {L : Type}.

(** [shapely.wkt.loads] *)
Variable wkt_loads : string -> result L.

(** The loop over the incoming edges. *)
Fixpoint incoming_legs (G : OsmGraph L) (node_id : Z)
    (in_edges : list (osm_edge L)) : result (list (leg (raw_geom L))) :=
  match in_edges with
  | [] => Ok []
  | e :: rest =>
      if negb (e_dst e =? node_id)%Z then incoming_legs G node_id rest
      else
        let nbr_id := e_src e in
        let* coord := node_xy (og_graph G) nbr_id in
        let* parsed := _parse_lane_data (e_data e) in
        let '(turns, _, _) := parsed in
        let geom := e_geometry e in
        let* legs := incoming_legs G node_id rest in
        Ok ({| nbr_id := nbr_id; nbr_coord := coord;
               in_turns := Some turns; geom := geom |} :: legs)
  end.

(** The loop over the outgoing edges; [seen] holds the neighbours that
    have a leg already. *)
Fixpoint outgoing_legs (G : OsmGraph L) (node_id : Z) (seen : list Z)
    (out_edges : list (osm_edge L)) : result (list (leg (raw_geom L))) :=
  match out_edges with
  | [] => Ok []
  | e :: rest =>
      if negb (e_src e =? node_id)%Z then outgoing_legs G node_id seen rest
      else
        let nbr_id := e_dst e in
        if existsb (Z.eqb nbr_id) seen then outgoing_legs G node_id seen rest
        else
          let* coord := node_xy (og_graph G) nbr_id in
          let* geom :=
            match e_geometry e with
            | Wkt s => let* l := wkt_loads s in Ok (Line l)
            | raw_geom => Ok raw_geom
            end in
          let* legs := outgoing_legs G node_id (nbr_id :: seen) rest in
          Ok ({| nbr_id := nbr_id; nbr_coord := coord;
                 in_turns := None; geom := geom |} :: legs)
  end.

Definition get_legs (G : OsmGraph L) (node_id : Z)
  : result (list (leg (raw_geom L))) :=
  let* incoming := incoming_legs G node_id (og_in_edges G node_id) in
  let* outgoing :=
    outgoing_legs G node_id (map nbr_id incoming) (og_out_edges G node_id) in
  Ok (incoming ++ outgoing)%list.

End Legs.

(** ** The counting loop of a node *)

(** [itertools.combinations(l, 2)] *)
Fixpoint combinations2 {A : Type} (l : list A) : list (A * A) :=
  match l with
  | [] => []
  | x :: r => (map (fun y => (x, y)) r ++ combinations2 r)%list
  end.

(** [for leg1, leg2 in itertools.combinations(legs, 2):
       count_pair_interaction(G, node_id, leg1, leg2, ctr, ...)] *)
Definition count_node_interactions {L : Type} `{LineOps L}
    (G : MultiDiGraph) (node_id : Z) (legs : list (leg L))
    (conflict_classifier : list rule) (angle_threshold : R)
    (right_lane_drive : bool) : M unit :=
  for_each (combinations2 legs)
    (fun pair =>
       count_pair_interaction G node_id (fst pair) (snd pair)
         conflict_classifier angle_threshold right_lane_drive).

(** The number of counts a pair of legs adds: one for each pair of turns,
    one when a leg has no turns. *)
Definition pair_weight {L : Type} (pair : leg L * leg L) : nat :=
  match in_turns (fst pair), in_turns (snd pair) with
  | Some turns1, Some turns2 => (length turns1 * length turns2)%nat
  | _, _ => 1%nat
  end.

(** [sum(ctr.values())] *)
Definition counter_total (c : Counter) : nat :=
  (c JuncConflict.INTERSECT + c JuncConflict.MERGE
   + c JuncConflict.NO_CONFLICT)%nat.

(** A junction of a two-way street with node 1, a one-way street that
    arrives from node 2 with two parallel carriageways, and a one-way
    street that leaves for node 3 and is stored as WKT. *)
Definition mixed_junction : OsmGraph point :=
  {| og_graph :=
       {| g_nodes := <[0%Z := (0, 0)%R]> (<[1%Z := (1, 0)%R]>
                       (<[2%Z := (0, 1)%R]> (<[3%Z := (-1, 0)%R]> ∅)));
          g_edges := [(0, 1); (0, 3); (1, 0); (2, 0); (2, 0)]%Z |};
     og_tags := ∅;
     og_out_edges := fun n =>
       if (n =? 0)%Z then
         [ {| e_src := 0; e_dst := 1; e_data := ∅; e_geometry := Line (1, 0)%R |};
           {| e_src := 0; e_dst := 3; e_data := ∅; e_geometry := Wkt "LINESTRING (0 0, -1 0)" |} ]
       else [];
     og_in_edges := fun n =>
       if (n =? 0)%Z then
         [ {| e_src := 1; e_dst := 0;
              e_data := {[ "turn:lanes:forward" := PAtom (AStr "left|through") ]};
              e_geometry := Line (1, 0)%R |};
           {| e_src := 2; e_dst := 0; e_data := ∅; e_geometry := Line (0, 1)%R |};
           {| e_src := 2; e_dst := 0; e_data := ∅; e_geometry := Line (0, 1)%R |} ]
       else [] |}.

(** A WKT reader for the examples: every text is the same line. *)
Definition wkt_west (s : string) : result point := Ok (-1, 0)%R.

(** Three legs with line geometries: turns left and through, through
    alone, and no turns. *)
Definition west_leg : leg point :=
  {| nbr_id := 3; nbr_coord := (-1, 0)%R; in_turns := None;
     geom := (-1, 0)%R |}.

Definition east_leg_two_turns : leg point :=
  {| nbr_id := 1; nbr_coord := (1, 0)%R;
     in_turns := Some [LaneTurn.LEFT; LaneTurn.THROUGH]; geom := (1, 0)%R |}.

(** A copy of [three_way_graph] whose edges are listed in another order,
    so that the neighbours of node 0 come out as 3, 1, 2. *)
Definition three_way_graph_reordered : MultiDiGraph :=
  {| g_nodes := g_nodes three_way_graph;
     g_edges := [(0, 3); (1, 0); (0, 2)]%Z |}.
(* ===================================================================== *)
(** * Part II: theorems *)
(* ===================================================================== *)

(** ** Width strings *)

Lemma convert_12m : _convert_to_meters "12m" = Ok (FFin 12).
Proof. reflexivity. Qed.

Lemma convert_40ft : returns_close "40ft" 12.192 0.001.
Proof.
  eexists; split; [vm_compute; reflexivity |].
  vm_compute. discriminate.
Qed.

Lemma convert_5mi : returns_exactly "5mi" 8046.72.
Proof. eexists; split; [vm_compute; reflexivity | reflexivity]. Qed.

Lemma convert_bare_7 : _convert_to_meters "7" = Ok (FFin 7).
Proof. reflexivity. Qed.

Lemma convert_sixteen_feet_three : returns_exactly sixteen_feet_three 4.953.
Proof. eexists; split; [vm_compute; reflexivity | reflexivity]. Qed.

(** C4, as stated, fails on its third input: sixteen feet three inches are
    16 * 0.3048 + 3 * 0.0254 = 4.953 m, which is further than 0.001 from
    4.9784. *)
Lemma convert_sixteen_feet_three_not_4_9784 :
  ~ returns_close sixteen_feet_three 4.9784 0.001.
Proof.
  intros [f [Hf Hc]].
  vm_compute in Hf. inversion Hf; subst f; clear Hf.
  vm_compute in Hc. apply Hc. reflexivity.
Qed.

(** C4, amended: the width parser returns 12.0 for "12m", 12.192 (within
    0.001) for "40ft", 4.953 for sixteen feet three inches, 8046.72 for
    "5mi" and 7.0 for the bare "7". *)
Theorem convert_to_meters_examples :
  returns_exactly "12m" 12
  /\ returns_close "40ft" 12.192 0.001
  /\ returns_exactly sixteen_feet_three 4.953
  /\ returns_close sixteen_feet_three 4.953 0.001
  /\ returns_exactly "5mi" 8046.72
  /\ returns_exactly "7" 7.
Proof.
  repeat split.
  - eexists; split; [apply convert_12m | reflexivity].
  - apply convert_40ft.
  - apply convert_sixteen_feet_three.
  - eexists; split; [vm_compute; reflexivity | vm_compute; discriminate].
  - apply convert_5mi.
  - eexists; split; [apply convert_bare_7 | reflexivity].
Qed.

(** The only exception [_convert_to_meters] lets out is the [ValueError]
    of the unguarded [float(num)] in the number-and-unit branch. *)
Lemma convert_to_meters_raises (val : string) (e : exn) :
  _convert_to_meters val = Raise e ->
  e = ValueError
  /\ exists num unit,
       match_number_unit (py_lower (py_strip val)) = Some (num, unit)
       /\ py_float num = None.
Proof.
  unfold _convert_to_meters, bare_number. cbv zeta.
  destruct (match_feet_inches _) as [[ft inch]|]; [intros Hd; discriminate Hd |].
  destruct (match_number_unit _) as [[num unit]|].
  - destruct (py_float num) as [f|] eqn:Hnum.
    + repeat (match goal with
              | |- context [if ?b then _ else _] => destruct b
              end; try (intros Hd; discriminate Hd)).
      destruct (py_float (py_lower _)); intros Hd; discriminate Hd.
    + intros He. inversion He. split; [reflexivity | eauto].
  - destruct (py_float _); intros Hd; discriminate Hd.
Qed.

(** And it raises whenever that branch is reached with a number that is
    no float literal. *)
Lemma convert_to_meters_raises_iff (val : string) :
  _convert_to_meters val = Raise ValueError
  <-> match_feet_inches (py_lower (py_strip val)) = None
      /\ exists num unit,
           match_number_unit (py_lower (py_strip val)) = Some (num, unit)
           /\ py_float num = None.
Proof.
  split.
  - intros Hr. split; [| apply (convert_to_meters_raises val ValueError Hr)].
    unfold _convert_to_meters in Hr. cbv zeta in Hr.
    destruct (match_feet_inches _) as [[ft inch]|]; [discriminate Hr | reflexivity].
  - intros [Hfi (num & unit & Hnu & Hf)].
    unfold _convert_to_meters. cbv zeta. rewrite Hfi, Hnu, Hf. reflexivity.
Qed.

(** The bare-number branch recovers: a string with no leading digit or dot
    never makes the parser raise. *)
Lemma convert_to_meters_no_number (val : string) :
  match_number_unit (py_lower (py_strip val)) = None ->
  exists f, _convert_to_meters val = Ok f.
Proof.
  intros Hm. destruct (_convert_to_meters val) as [f|e] eqn:Hc; [eauto |].
  apply convert_to_meters_raises in Hc as [_ [num [unit [Hm' _]]]].
  congruence.
Qed.

(** C5 fails on the code: a dot followed by a unit makes [float] raise a
    [ValueError] that nothing catches. *)
Theorem convert_to_meters_dot_unit_raises :
  _convert_to_meters ".m" = Raise ValueError
  /\ _convert_to_meters "3..5 m" = Raise ValueError
  /\ _convert_to_meters "1.2.3 km" = Raise ValueError
  /\ _convert_to_meters "1.2.3" = Ok (FFin 0).
Proof. repeat split. Qed.

(** ** Lane data *)

(** C3, as stated, fails on the code: with a turn-lanes tag of three lanes
    and no lanes tag the count is 1, flagged as an estimate, not 3. *)
Lemma parse_lane_data_turn_tag_only :
  lanes_of_tag (turn_tag turn_only_data) = Ok ["left"; "through"; "right"]
  /\ lanes_tag turn_only_data = None
  /\ _parse_lane_data turn_only_data
     = Ok ([LaneTurn.LEFT; LaneTurn.THROUGH; LaneTurn.RIGHT], 1%Z, true).
Proof. repeat split. Qed.

(** C3, amended: the lane count follows the form of the directional lanes
    tag, whatever the turn-lanes tag says.  A single value is converted to
    an integer and used, not an estimate (1, an estimate, when it does not
    convert); a list gives its first element, an estimate (1 when there is
    none or it does not convert), unless a non-empty turn-lanes tag is
    there, and when that tag is a list the count is the number of its
    elements, not an estimate; with no lanes tag the count is 1, an
    estimate. *)
Theorem parse_lane_data_lane_count (data : pydict) (lanes : list string) :
  lanes_of_tag (turn_tag data) = Ok lanes ->
  exists turns,
    (forall a n,
        lanes_tag data = Some (PAtom a) -> py_int a = Ok n ->
        _parse_lane_data data = Ok (turns, n, false))
    /\ (forall a,
        lanes_tag data = Some (PAtom a) ->
        py_int a = Raise ValueError \/ py_int a = Raise TypeError ->
        _parse_lane_data data = Ok (turns, 1%Z, true))
    /\ (forall first rest n,
        lanes_tag data = Some (PList (first :: rest)) ->
        truthy (turn_tag data) = false -> py_int first = Ok n ->
        _parse_lane_data data = Ok (turns, n, true))
    /\ (forall l,
        lanes_tag data = Some (PList l) ->
        truthy (turn_tag data) = false ->
        match l with
        | [] => True
        | first :: _ =>
            py_int first = Raise ValueError \/ py_int first = Raise TypeError
        end ->
        _parse_lane_data data = Ok (turns, 1%Z, true))
    /\ (forall l t,
        lanes_tag data = Some (PList l) ->
        turn_tag data = PList t -> t <> [] ->
        _parse_lane_data data = Ok (turns, Z.of_nat (length t), false))
    /\ (lanes_tag data = None ->
        _parse_lane_data data = Ok (turns, 1%Z, true)).
Proof.
  intros Hl. unfold _parse_lane_data. rewrite Hl. cbn [bind].
  eexists. repeat split.
  - intros a n Ha Hn. rewrite Ha. destruct a; rewrite ?Hn; try reflexivity.
    discriminate Hn.
  - intros a Ha Hn. rewrite Ha.
    destruct a; try reflexivity; destruct Hn as [Hn|Hn]; rewrite Hn; reflexivity.
  - intros first rest n Ha Ht Hn. rewrite Ha, Ht, Hn. reflexivity.
  - intros l Ha Ht Hf. rewrite Ha, Ht.
    destruct l as [|first rest]; [reflexivity |].
    destruct Hf as [Hn|Hn]; rewrite Hn; reflexivity.
  - intros l t Ha Ht Hne. rewrite Ha, Ht.
    destruct t as [|x t']; [congruence | reflexivity].
  - intros Ha. rewrite Ha. reflexivity.
Qed.

Lemma parse_lane_data_lane_count_witness :
  lanes_of_tag (turn_tag turn_list_data) = Ok ["left"; "through;right"]
  /\ exists turns, _parse_lane_data turn_list_data = Ok (turns, 2%Z, false).
Proof.
  split; [reflexivity |].
  destruct (parse_lane_data_lane_count turn_list_data
              ["left"; "through;right"] eq_refl)
    as [turns [_ [_ [_ [_ [Hlist _]]]]]].
  exists turns.
  apply (Hlist [AStr "2"; AStr "3"] [AStr "left"; AStr "through;right"]).
  - reflexivity.
  - reflexivity.
  - discriminate.
Defined.

(** ** ODD compliance of an edge *)

Lemma get_or_insert_eq (d : pydict) (k : string) (v dflt : pyval) :
  get_or (<[k := v]> d) k dflt = v.
Proof. unfold get_or. rewrite lookup_insert_eq. reflexivity. Qed.

Lemma get_or_insert_ne (d : pydict) (k k' : string) (v dflt : pyval) :
  k <> k' -> get_or (<[k := v]> d) k' dflt = get_or d k' dflt.
Proof. intros Hne. unfold get_or. rewrite lookup_insert_ne by exact Hne. reflexivity. Qed.

Lemma get_min_numeric_insert_ne (d : pydict) (k k' : string) (v dflt : pyval) :
  k <> k' ->
  get_min_numeric (<[k := v]> d) k' dflt = get_min_numeric d k' dflt.
Proof. intros Hne. unfold get_min_numeric. rewrite get_or_insert_ne by exact Hne. reflexivity. Qed.

(** A scalar flag and the one-element list of it unwrap to the same
    value. *)
Lemma unwrap_flag_singleton (a : atom) :
  unwrap_flag (PList [a]) = unwrap_flag (PAtom a).
Proof. reflexivity. Qed.

(** C6: the verdict on an edge is the same whether the ODD gives its
    [oneway] policy, or its [is_major_road] policy, as the boolean [b] or
    as the list [[b]]. *)
Theorem flag_scalar_or_singleton (odd metadata : pydict) (b : bool) :
  check_single_edge_odd_compliance (<["oneway" := PAtom (ABool b)]> odd) metadata
  = check_single_edge_odd_compliance (<["oneway" := PList [ABool b]]> odd) metadata
  /\ check_single_edge_odd_compliance
       (<["is_major_road" := PAtom (ABool b)]> odd) metadata
     = check_single_edge_odd_compliance
         (<["is_major_road" := PList [ABool b]]> odd) metadata.
Proof.
  split; unfold check_single_edge_odd_compliance;
    rewrite ?get_or_insert_eq, ?unwrap_flag_singleton;
    rewrite !get_or_insert_ne by discriminate;
    rewrite !get_min_numeric_insert_ne by discriminate;
    reflexivity.
Qed.

(** The regression of [reproduce_boolean_bug.py]: [[False]] against a
    two-way edge is incompliant, as the scalar [False] is. *)
Lemma oneway_false_list_rejects :
  check_single_edge_odd_compliance
    {[ "oneway" := PList [ABool false] ]} {[ "oneway" := PAtom (ABool false) ]}
  = false.
Proof. reflexivity. Qed.

Lemma get_min_numeric_absent (d : pydict) (k : string) (z : Z) :
  d !! k = None ->
  get_min_numeric d k (PAtom (AInt z)) = Some (FFin (inject_Z z)).
Proof. intros Hk. unfold get_min_numeric, get_or. rewrite Hk. reflexivity. Qed.

Lemma get_or_delete_ne (d : pydict) (k k' : string) (dflt : pyval) :
  k <> k' -> get_or (delete k d) k' dflt = get_or d k' dflt.
Proof. intros Hne. unfold get_or. rewrite lookup_delete_ne by exact Hne. reflexivity. Qed.

Lemma get_min_numeric_null (d : pydict) (k : string) (dflt : pyval) :
  d !! k = Some (PAtom ANone) -> get_min_numeric d k dflt = None.
Proof. intros Hk. unfold get_min_numeric, get_or. rewrite Hk. reflexivity. Qed.

(** An attribute that is there with the value [None], which is how the
    road-feature documents store a speed limit or lane width that is not
    known, is not compared at all: the verdict is that of the ODD without
    the two thresholds. *)
Lemma null_attribute_skips_thresholds (odd metadata : pydict) :
  metadata !! "speed_limit" = Some (PAtom ANone) ->
  metadata !! "lane_width" = Some (PAtom ANone) ->
  check_single_edge_odd_compliance odd metadata
  = check_single_edge_odd_compliance
      (delete "speed_limit" (delete "lane_width" odd)) metadata.
Proof.
  intros Hs Hw. unfold check_single_edge_odd_compliance.
  rewrite !(get_min_numeric_null metadata _ _ Hs),
    !(get_min_numeric_null metadata _ _ Hw).
  rewrite !get_or_delete_ne by discriminate.
  reflexivity.
Qed.

(** C2, as stated, fails on the code: an edge with no speed limit is
    rejected by a ceiling of 50, and one with no lane width by a floor of
    3, although the same edge passes when the ODD sets no threshold. *)
Lemma absent_attribute_rejected :
  bare_metadata !! "speed_limit" = None
  /\ bare_metadata !! "lane_width" = None
  /\ check_single_edge_odd_compliance ∅ bare_metadata = true
  /\ check_single_edge_odd_compliance odd_speed_50 bare_metadata = false
  /\ check_single_edge_odd_compliance odd_width_3 bare_metadata = false.
Proof. repeat split. Qed.

(** C2, amended: for an edge record without [speed_limit] the value 999
    is compared, and without [lane_width] the value 0; these fallbacks
    reject: the edge fails as soon as the ODD's speed-limit ceiling is
    below 999, and as soon as its lane-width floor is above 0. *)
Theorem absent_attribute_fallbacks (odd metadata : pydict) (t : pyfloat) :
  (metadata !! "speed_limit" = None
   /\ get_min_numeric odd "speed_limit" (PAtom ANone) = Some t
   /\ flt_lt t (FFin 999) = true)
  \/ (metadata !! "lane_width" = None
      /\ get_min_numeric odd "lane_width" (PAtom ANone) = Some t
      /\ flt_lt (FFin 0) t = true) ->
  check_single_edge_odd_compliance odd metadata = false
  /\ (metadata !! "speed_limit" = None ->
      get_min_numeric metadata "speed_limit" (PAtom (AInt 999))
      = Some (FFin 999))
  /\ (metadata !! "lane_width" = None ->
      get_min_numeric metadata "lane_width" (PAtom (AInt 0)) = Some (FFin 0)).
Proof.
  intros Hcase. split; [| split; intros Hk; apply (get_min_numeric_absent _ _ _ Hk)].
  unfold check_single_edge_odd_compliance.
  repeat (match goal with
          | |- (if ?c then false else _) = false =>
              lazymatch c with
              | context [get_min_numeric] => fail
              | _ => destruct c; [reflexivity |]
              end
          end).
  destruct Hcase as [[Hk [Ht Hlt]] | [Hk [Ht Hlt]]].
  - rewrite (get_min_numeric_absent _ _ 999 Hk), Ht.
    unfold flt_gt. change (FFin (inject_Z 999)) with (FFin 999).
    rewrite Hlt. reflexivity.
  - rewrite (get_min_numeric_absent _ _ 0 Hk), Ht.
    change (FFin (inject_Z 0)) with (FFin 0). rewrite Hlt.
    destruct (match get_min_numeric metadata "speed_limit" _ with
              | Some _ => _ | None => _ end); reflexivity.
Qed.

Lemma absent_attribute_fallbacks_witness :
  check_single_edge_odd_compliance odd_speed_50 bare_metadata = false.
Proof.
  apply (absent_attribute_fallbacks odd_speed_50 bare_metadata (FFin 50)).
  left. repeat split.
Defined.

(** ** Junction type by degree and angle *)

Open Scope R_scope.

Lemma norm_on_x_axis (a b : R) : b = 0 -> norm (a, b) = Rabs a.
Proof.
  intros ->. unfold norm. simpl.
  replace (a * a + 0 * 0) with (Rsqr a) by (unfold Rsqr; ring).
  apply sqrt_Rsqr_abs.
Qed.

Lemma clip_inside (c : R) : -1 <= c <= 1 -> clip c (-1) 1 = c.
Proof.
  intros [Hlo Hhi]. unfold clip.
  rewrite Rmax_left by lra. apply Rmin_left; lra.
Qed.

Lemma degrees_PI : degrees PI = 180.
Proof. unfold degrees. field. apply PI_neq0. Qed.

Lemma degrees_0 : degrees 0 = 0.
Proof. unfold degrees. field. apply PI_neq0. Qed.

Lemma acos_minus_1 : acos (-1) = PI.
Proof.
  replace (IZR (-1)) with (Ropp 1) by lra.
  rewrite acos_opp, acos_1. ring.
Qed.

(** Legs on the x axis through a node at the origin: the computed angle
    is 180 when both neighbours lie on the same side, 0 when they lie on
    opposite sides. *)
Lemma calculate_angle_same_side (a c : R) :
  0 < a * c -> _calculate_angle (a, 0) (0, 0) (c, 0) = Some 180.
Proof.
  intros Hac. unfold _calculate_angle. cbn [fst snd].
  rewrite !norm_on_x_axis by ring.
  assert (Ha : a <> 0) by (intros ->; lra).
  assert (Hc : c <> 0) by (intros ->; lra).
  replace (0 - a) with (- a) by ring. replace (c - 0) with c by ring.
  rewrite Rabs_Ropp.
  assert (Hn : Rabs a * Rabs c = a * c).
  { rewrite <- Rabs_mult. apply Rabs_pos_eq. lra. }
  rewrite Hn.
  destruct (Req_dec_T (a * c) 0) as [E|_]; [lra |].
  replace ((- a * c + (0 - 0) * (0 - 0)) / (a * c)) with (-1) by (field; auto).
  rewrite clip_inside by lra.
  rewrite acos_minus_1, degrees_PI. reflexivity.
Qed.

Lemma calculate_angle_opposite_sides (a c : R) :
  a * c < 0 -> _calculate_angle (a, 0) (0, 0) (c, 0) = Some 0.
Proof.
  intros Hac. unfold _calculate_angle. cbn [fst snd].
  rewrite !norm_on_x_axis by ring.
  assert (Ha : a <> 0) by (intros ->; lra).
  assert (Hc : c <> 0) by (intros ->; lra).
  replace (0 - a) with (- a) by ring. replace (c - 0) with c by ring.
  rewrite Rabs_Ropp.
  assert (Hn : Rabs a * Rabs c = - (a * c)).
  { rewrite <- Rabs_mult. apply Rabs_left. lra. }
  rewrite Hn.
  destruct (Req_dec_T (- (a * c)) 0) as [E|_]; [lra |].
  replace ((- a * c + (0 - 0) * (0 - 0)) / - (a * c)) with 1 by (field; auto).
  rewrite clip_inside by lra.
  rewrite acos_1, degrees_0. reflexivity.
Qed.

Lemma norm_opp (x y : R) : norm (- x, - y) = norm (x, y).
Proof. unfold norm. cbn [fst snd]. f_equal. ring. Qed.

Lemma clip_opp (c : R) : clip (- c) (-1) 1 = - clip c (-1) 1.
Proof.
  unfold clip, Rmin, Rmax.
  repeat (destruct (Rle_dec _ _)); lra.
Qed.

(** The angle the code computes is the supplement of the interior angle
    of the docstring: the second vector points away from the node. *)
Lemma calculate_angle_supplement (p1 p2 p3 : point) :
  _calculate_angle p1 p2 p3
  = match interior_angle_doc p1 p2 p3 with
    | Some a => Some (180 - a)
    | None => None
    end.
Proof.
  unfold _calculate_angle, interior_angle_doc. cbn [fst snd].
  replace (norm (fst p3 - fst p2, snd p3 - snd p2))
    with (norm (fst p2 - fst p3, snd p2 - snd p3))
    by (rewrite <- norm_opp; f_equal; f_equal; ring).
  destruct (Req_dec_T _ 0) as [|Hn]; [reflexivity |].
  f_equal.
  match goal with
  | |- degrees (acos (clip ?c _ _)) = 180 - degrees (acos (clip ?d _ _)) =>
      replace c with (- d)
        by (field; split; intros Hz; apply Hn; rewrite Hz; ring)
  end.
  rewrite clip_opp, acos_opp. unfold degrees. field. apply PI_neq0.
Qed.

(** What the degree-3 branch returns, in terms of the computed angles. *)
Lemma classify_node_other_three_way (G : MultiDiGraph) (n a b c : Z)
    (p0 pa pb pc : point) (angle_threshold : R) :
  und_neighbors G n = [a; b; c] ->
  g_nodes G !! n = Some p0 ->
  g_nodes G !! a = Some pa ->
  g_nodes G !! b = Some pb ->
  g_nodes G !! c = Some pc ->
  classify_node_other G n angle_threshold
  = Ok (Some (if nan_le (py_max (_calculate_angle pa p0 pb)
                           [_calculate_angle pb p0 pc;
                            _calculate_angle pc p0 pa])
                   (Some angle_threshold)
              then JunctionType.T_JUNCTION
              else JunctionType.Y_JUNCTION)).
Proof.
  intros Hn H0 Ha Hb Hc. unfold classify_node_other.
  rewrite Hn. cbn [length Nat.leb]. unfold node_xy. rewrite H0. cbn [bind mapM].
  rewrite Ha, Hb, Hc. cbn [bind mapM seq map nth Nat.add].
  change ((0 + 1) mod 3)%nat with 1%nat.
  change ((1 + 1) mod 3)%nat with 2%nat.
  change ((2 + 1) mod 3)%nat with 0%nat.
  cbn [nth].
  destruct (nan_le _ _); reflexivity.
Qed.

Lemma py_max_three (x y z : R) :
  py_max (Some x) [Some y; Some z] = Some (Rmax x (Rmax y z)).
Proof.
  unfold py_max, nan_gt. cbn [fold_left].
  destruct (Rgt_dec y x) as [Hyx|Hyx]; destruct (Rgt_dec z _) as [Hz|Hz];
    f_equal; unfold Rmax; repeat destruct (Rle_dec _ _); lra.
Qed.

(** With three defined angles the node is a [T_JUNCTION] exactly when the
    greatest angle does not exceed the threshold. *)
Lemma classify_node_other_by_max (G : MultiDiGraph) (n a b c : Z)
    (p0 pa pb pc : point) (x y z angle_threshold : R) :
  und_neighbors G n = [a; b; c] ->
  g_nodes G !! n = Some p0 ->
  g_nodes G !! a = Some pa ->
  g_nodes G !! b = Some pb ->
  g_nodes G !! c = Some pc ->
  leg_angles p0 pa pb pc = [Some x; Some y; Some z] ->
  (Rmax x (Rmax y z) <= angle_threshold ->
   classify_node_other G n angle_threshold = Ok (Some JunctionType.T_JUNCTION))
  /\ (Rmax x (Rmax y z) > angle_threshold ->
      classify_node_other G n angle_threshold = Ok (Some JunctionType.Y_JUNCTION)).
Proof.
  intros Hn H0 Ha Hb Hc Hang. unfold leg_angles in Hang.
  injection Hang as Hx Hy Hz.
  rewrite (classify_node_other_three_way G n a b c p0 pa pb pc _ Hn H0 Ha Hb Hc).
  rewrite Hx, Hy, Hz, py_max_three. unfold nan_le.
  split; intros Hcmp; destruct (Rle_dec _ _); try reflexivity; lra.
Qed.

Lemma interior_angle_of_computed (p1 p2 p3 : point) (x : R) :
  _calculate_angle p1 p2 p3 = Some x ->
  interior_angle_doc p1 p2 p3 = Some (180 - x).
Proof.
  rewrite calculate_angle_supplement.
  destruct (interior_angle_doc p1 p2 p3) as [a|]; [| discriminate].
  intros Hx. injection Hx as <-. f_equal. lra.
Qed.

Lemma computed_angle_of_interior (p1 p2 p3 : point) (a : R) :
  interior_angle_doc p1 p2 p3 = Some a ->
  _calculate_angle p1 p2 p3 = Some (180 - a).
Proof. intros Ha. rewrite calculate_angle_supplement, Ha. reflexivity. Qed.

(** In terms of the interior angles: the node is a [T_JUNCTION] exactly
    when the smallest interior angle is at least 180 minus the
    threshold. *)
Lemma classify_node_other_by_interior (G : MultiDiGraph) (n a b c : Z)
    (p0 pa pb pc : point) (x y z angle_threshold : R) :
  und_neighbors G n = [a; b; c] ->
  g_nodes G !! n = Some p0 ->
  g_nodes G !! a = Some pa ->
  g_nodes G !! b = Some pb ->
  g_nodes G !! c = Some pc ->
  interior_angles_doc p0 pa pb pc = [Some x; Some y; Some z] ->
  (180 - angle_threshold <= Rmin x (Rmin y z) ->
   classify_node_other G n angle_threshold = Ok (Some JunctionType.T_JUNCTION))
  /\ (Rmin x (Rmin y z) < 180 - angle_threshold ->
      classify_node_other G n angle_threshold = Ok (Some JunctionType.Y_JUNCTION)).
Proof.
  intros Hn H0 Ha Hb Hc Hang. unfold interior_angles_doc in Hang.
  injection Hang as Hx Hy Hz.
  apply computed_angle_of_interior in Hx, Hy, Hz.
  destruct (classify_node_other_by_max G n a b c p0 pa pb pc
              (180 - x) (180 - y) (180 - z) angle_threshold Hn H0 Ha Hb Hc)
    as [HT HY].
  { unfold leg_angles. rewrite Hx, Hy, Hz. reflexivity. }
  split; intros Hcmp; [apply HT | apply HY];
    revert Hcmp; unfold Rmin, Rmax; repeat (destruct (Rle_dec _ _)); lra.
Qed.

(** C1 fails on the code.  At the fork the interior angles are 0, 180 and
    180 and the angles the code computes are 180, 0 and 0; the greatest is
    180 either way and exceeds the threshold 110, and the node is
    classified [Y_JUNCTION]. *)
Theorem classify_node_other_fork :
  und_neighbors fork_graph 0 = [1; 2; 3]%Z
  /\ leg_angles (0, 0) (1, 0) (2, 0) (-1, 0) = [Some 180; Some 0; Some 0]
  /\ interior_angles_doc (0, 0) (1, 0) (2, 0) (-1, 0)
     = [Some 0; Some 180; Some 180]
  /\ Rmax 180 (Rmax 0 0) > 110
  /\ Rmax 0 (Rmax 180 180) > 110
  /\ classify_node_other fork_graph 0 110 = Ok (Some JunctionType.Y_JUNCTION).
Proof.
  assert (H1 : _calculate_angle (1, 0) (0, 0) (2, 0) = Some 180)
    by (apply calculate_angle_same_side; lra).
  assert (H2 : _calculate_angle (2, 0) (0, 0) (-1, 0) = Some 0)
    by (apply calculate_angle_opposite_sides; lra).
  assert (H3 : _calculate_angle (-1, 0) (0, 0) (1, 0) = Some 0)
    by (apply calculate_angle_opposite_sides; lra).
  assert (Hang : leg_angles (0, 0) (1, 0) (2, 0) (-1, 0)
                 = [Some 180; Some 0; Some 0])
    by (unfold leg_angles; rewrite H1, H2, H3; reflexivity).
  assert (Hmax : Rmax 180 (Rmax 0 0) > 110)
    by (unfold Rmax; repeat destruct (Rle_dec _ _); lra).
  split; [reflexivity |]. split; [exact Hang |]. split; [| split; [exact Hmax |]].
  - unfold interior_angles_doc.
    rewrite (interior_angle_of_computed _ _ _ _ H1),
      (interior_angle_of_computed _ _ _ _ H2),
      (interior_angle_of_computed _ _ _ _ H3).
    repeat f_equal; lra.
  - split; [unfold Rmax; repeat destruct (Rle_dec _ _); lra |].
    apply (classify_node_other_by_max fork_graph 0 1 2 3
             (0, 0) (1, 0) (2, 0) (-1, 0) 180 0 0 110); try reflexivity;
      [exact Hang | exact Hmax].
Qed.

(** The example of the specification, read on interior angles: 100, 130
    and 130 against 110 give [T_JUNCTION], because the smallest of them is
    not below 70. *)
Lemma classify_node_other_interior_100_130_130 (G : MultiDiGraph)
    (n a b c : Z) (p0 pa pb pc : point) :
  und_neighbors G n = [a; b; c] ->
  g_nodes G !! n = Some p0 ->
  g_nodes G !! a = Some pa ->
  g_nodes G !! b = Some pb ->
  g_nodes G !! c = Some pc ->
  interior_angles_doc p0 pa pb pc = [Some 100; Some 130; Some 130] ->
  classify_node_other G n 110 = Ok (Some JunctionType.T_JUNCTION).
Proof.
  intros Hn H0 Ha Hb Hc Hang.
  apply (classify_node_other_by_interior G n a b c p0 pa pb pc 100 130 130 110
           Hn H0 Ha Hb Hc Hang).
  unfold Rmin. repeat destruct (Rle_dec _ _); lra.
Qed.

Lemma norm_from_unit (A : R) : norm (0 - cos A, 0 - sin A) = 1.
Proof.
  unfold norm. cbn [fst snd].
  replace ((0 - cos A) * (0 - cos A) + (0 - sin A) * (0 - sin A))
    with (Rsqr (sin A) + Rsqr (cos A)) by (unfold Rsqr; ring).
  rewrite sin2_cos2. apply sqrt_1.
Qed.

(** Between two legs that end on the unit circle the interior angle is the
    difference of their directions, taken between 0 and 180 degrees. *)
Lemma interior_angle_unit (a b g : R) :
  cos ((b - a) * (PI / 180)) = cos (g * (PI / 180)) ->
  0 <= g <= 180 ->
  interior_angle_doc (unit_at a) (0, 0) (unit_at b) = Some g.
Proof.
  intros Hcos [Hg0 Hg180]. unfold interior_angle_doc, unit_at. cbn [fst snd].
  rewrite !norm_from_unit.
  destruct (Req_dec_T (1 * 1) 0) as [E|_]; [lra |].
  f_equal.
  replace (((0 - cos (a * (PI / 180))) * (0 - cos (b * (PI / 180)))
            + (0 - sin (a * (PI / 180))) * (0 - sin (b * (PI / 180))))
           / (1 * 1))
    with (cos (b * (PI / 180) - a * (PI / 180)))
    by (rewrite cos_minus; field).
  replace (b * (PI / 180) - a * (PI / 180)) with ((b - a) * (PI / 180)) by ring.
  rewrite Hcos.
  assert (Hpi : 0 < PI) by apply PI_RGT_0.
  rewrite clip_inside by (pose proof (COS_bound (g * (PI / 180))); lra).
  rewrite acos_cos.
  - unfold degrees. field. lra.
  - split.
    + apply Rmult_le_pos; [exact Hg0 |]. apply Rlt_le, Rdiv_lt_0_compat; lra.
    + replace PI with (180 * (PI / 180)) at 2 by (field; lra).
      apply Rmult_le_compat_r; [| exact Hg180].
      apply Rlt_le, Rdiv_lt_0_compat; lra.
Qed.

Lemma cos_full_turn (x : R) : cos (x - 2 * PI) = cos x.
Proof. rewrite cos_minus, cos_2PI, sin_2PI. ring. Qed.

(** The example of the specification on a concrete junction: legs at 0,
    100 and -130 degrees have the interior angles 100, 130 and 130, and the
    node is a [T_JUNCTION] at the threshold 110. *)
Lemma classify_node_other_spec_example :
  interior_angles_doc (0, 0) (unit_at 0) (unit_at 100) (unit_at (-130))
  = [Some 100; Some 130; Some 130]
  /\ classify_node_other three_way_graph 0 110
     = Ok (Some JunctionType.T_JUNCTION).
Proof.
  assert (Hang : interior_angles_doc (0, 0) (unit_at 0) (unit_at 100)
                   (unit_at (-130))
                 = [Some 100; Some 130; Some 130]).
  { assert (Hpi : 0 < PI) by apply PI_RGT_0.
    assert (H1 : interior_angle_doc (unit_at 0) (0, 0) (unit_at 100) = Some 100)
      by (apply interior_angle_unit; [f_equal; lra | lra]).
    assert (H2 : interior_angle_doc (unit_at 100) (0, 0) (unit_at (-130))
                 = Some 130).
    { apply interior_angle_unit; [| lra].
      replace ((-130 - 100) * (PI / 180)) with (130 * (PI / 180) - 2 * PI)
        by field.
      apply cos_full_turn. }
    assert (H3 : interior_angle_doc (unit_at (-130)) (0, 0) (unit_at 0)
                 = Some 130)
      by (apply interior_angle_unit; [f_equal; lra | lra]).
    unfold interior_angles_doc. rewrite H1, H2, H3. reflexivity. }
  split; [exact Hang |].
  apply (classify_node_other_interior_100_130_130 three_way_graph 0 1 2 3
           (0, 0) (unit_at 0) (unit_at 100) (unit_at (-130)));
    try reflexivity. exact Hang.
Qed.

(** A junction whose legs leave at 0, 150 and 210 degrees has the interior
    angles 150, 60 and 150; the greatest exceeds 110, and the node is a
    [Y_JUNCTION]. *)
Lemma classify_node_other_wye :
  interior_angles_doc (0, 0) (unit_at 0) (unit_at 150) (unit_at 210)
  = [Some 150; Some 60; Some 150]
  /\ Rmax 150 (Rmax 60 150) > 110
  /\ classify_node_other wye_graph 0 110 = Ok (Some JunctionType.Y_JUNCTION).
Proof.
  assert (Hpi : 0 < PI) by apply PI_RGT_0.
  assert (H1 : interior_angle_doc (unit_at 0) (0, 0) (unit_at 150) = Some 150)
    by (apply interior_angle_unit; [f_equal; lra | lra]).
  assert (H2 : interior_angle_doc (unit_at 150) (0, 0) (unit_at 210) = Some 60)
    by (apply interior_angle_unit; [f_equal; lra | lra]).
  assert (H3 : interior_angle_doc (unit_at 210) (0, 0) (unit_at 0) = Some 150).
  { apply interior_angle_unit; [| lra].
    replace ((0 - 210) * (PI / 180)) with (150 * (PI / 180) - 2 * PI) by field.
    apply cos_full_turn. }
  assert (Hang : interior_angles_doc (0, 0) (unit_at 0) (unit_at 150)
                   (unit_at 210)
                 = [Some 150; Some 60; Some 150])
    by (unfold interior_angles_doc; rewrite H1, H2, H3; reflexivity).
  split; [exact Hang |]. split.
  - unfold Rmax. repeat (destruct (Rle_dec _ _)); lra.
  - apply (classify_node_other_by_interior wye_graph 0 1 2 3
             (0, 0) (unit_at 0) (unit_at 150) (unit_at 210) 150 60 150 110);
      try reflexivity; [exact Hang |].
    unfold Rmin. repeat (destruct (Rle_dec _ _)); lra.
Qed.

(** Had the code computed 100, 130 and 130 itself, the comparison would
    have failed and the node would be a [Y_JUNCTION]. *)
Lemma computed_100_130_130_exceeds :
  nan_le (py_max (Some 100) [Some 130; Some 130]) (Some 110) = false.
Proof.
  rewrite py_max_three. unfold nan_le, Rmax.
  repeat (destruct (Rle_dec _ _)); try reflexivity; lra.
Qed.

Close Scope R_scope.

(** ** Relative position of two legs *)

Section Position.

Context {L : Type} `{LineOps L}.

Open Scope R_scope.

Lemma norm_null : norm (0, 0) = 0.
Proof. rewrite norm_on_x_axis by reflexivity. apply Rabs_R0. Qed.

(** The guard on the magnitudes protects the division: in a graph that
    holds the node, [get_position] returns a position. *)
Lemma get_position_returns (G : MultiDiGraph) (node_id : Z) (p : point)
    (leg1 leg2 : leg L) (angle_threshold : R) (right_lane_drive : bool) :
  g_nodes G !! node_id = Some p ->
  exists pos,
    get_position G node_id leg1 leg2 angle_threshold right_lane_drive = Ok pos.
Proof.
  intros Hp. unfold get_position, node_xy. rewrite Hp. cbn [bind].
  destruct (Req_dec_T (norm (get_dir_vector p leg1)) 0) as [|H1]; [eauto |].
  destruct (Req_dec_T (norm (get_dir_vector p leg2)) 0) as [|H2]; [eauto |].
  unfold py_div.
  destruct (Req_dec_T _ 0) as [E|_].
  - apply Rmult_integral in E. tauto.
  - cbn [bind].
    repeat (match goal with
            | |- context [if ?c then _ else _] => destruct c
            end); eauto.
Qed.

(** C9: when the direction vector of either leg is the null vector, the
    position is [FAR], and no exception is raised. *)
Theorem get_position_degenerate (G : MultiDiGraph) (node_id : Z) (p : point)
    (leg1 leg2 : leg L) (angle_threshold : R) (right_lane_drive : bool) :
  g_nodes G !! node_id = Some p ->
  get_dir_vector p leg1 = (0, 0) \/ get_dir_vector p leg2 = (0, 0) ->
  get_position G node_id leg1 leg2 angle_threshold right_lane_drive
  = Ok NbrPosition.FAR.
Proof.
  intros Hp Hz. unfold get_position, node_xy. rewrite Hp. cbn [bind].
  destruct (Req_dec_T (norm (get_dir_vector p leg1)) 0) as [|H1];
    [reflexivity |].
  destruct (Req_dec_T (norm (get_dir_vector p leg2)) 0) as [|H2];
    [reflexivity |].
  destruct Hz as [Hz|Hz]; rewrite Hz, norm_null in *; contradiction.
Qed.

Close Scope R_scope.

End Position.

Lemma collapsed_leg_direction :
  @get_dir_vector point point_line_ops (0, 0)%R collapsed_leg = (0, 0)%R.
Proof.
  unfold get_dir_vector. cbn.
  destruct (Rle_dec _ _); cbn [fst snd]; f_equal; lra.
Qed.

Lemma get_position_degenerate_witness :
  @get_position point point_line_ops fork_graph 0 collapsed_leg other_leg
    30%R true
  = Ok NbrPosition.FAR.
Proof.
  apply (@get_position_degenerate point point_line_ops fork_graph 0
           (0, 0)%R collapsed_leg other_leg 30%R true).
  - reflexivity.
  - left. apply collapsed_leg_direction.
Defined.

(** ** Counting the conflicts of a pair of legs *)

Lemma get_conflict_type_returns (table : list rule) (a b : Direction.t)
    (p : NbrPosition.t) :
  Forall rule_wf table -> exists c, get_conflict_type a b p table = Ok c.
Proof.
  induction 1 as [|r table [Ha [Hb [Hp Hc]]] _ IH]; cbn [get_conflict_type].
  - eauto.
  - destruct (Direction_of_name (this_move r)) as [x|]; [| contradiction].
    cbn [bind]. destruct (Direction.eqb x a); [| exact IH].
    destruct (Direction_of_name (other_move r)) as [y|]; [| contradiction].
    cbn [bind]. destruct (Direction.eqb y b); [| exact IH].
    destruct (NbrPosition_of_name (nbr_pos r)) as [q|]; [| contradiction].
    cbn [bind]. destruct (NbrPosition.eqb q p); [| exact IH].
    destruct (JuncConflict_of_name (conflict r)) as [c|]; [eauto | contradiction].
Qed.

Lemma default_conflict_classifier_wf : Forall rule_wf default_conflict_classifier.
Proof. unfold default_conflict_classifier. repeat constructor. Qed.

Lemma product_length {A B : Type} (a : list A) (b : list B) :
  length (product a b) = (length a * length b)%nat.
Proof.
  unfold product. induction a as [|x a IH]; [reflexivity |].
  cbn [flat_map]. rewrite length_app, length_map, IH. reflexivity.
Qed.

Lemma looks_up_ok (table : list rule) (right_lane_drive : bool)
    (pos : NbrPosition.t) (k c : JuncConflict.t) (t : LaneTurn.t * LaneTurn.t) :
  get_conflict_type (_to_direction right_lane_drive (fst t))
    (_to_direction right_lane_drive (snd t)) pos table = Ok c ->
  looks_up table right_lane_drive pos k t = JuncConflict.eqb c k.
Proof. intros Hc. unfold looks_up. rewrite Hc. reflexivity. Qed.

(** The loop over the pairs: one classification and one tally for each. *)
Lemma for_each_pair_tallies (table : list rule) (right_lane_drive : bool)
    (pos : NbrPosition.t) (pairs : list (LaneTurn.t * LaneTurn.t)) :
  Forall rule_wf table ->
  forall st, exists st',
    for_each pairs
      (fun t =>
         let this := _to_direction right_lane_drive (fst t) in
         let other := _to_direction right_lane_drive (snd t) in
         let! c := called (CallGetConflictType this other pos)
                     (get_conflict_type this other pos table) in
         count c) st
    = (Ok tt, st')
    /\ calls st' = (calls st ++ map (call_of_pair right_lane_drive pos) pairs)%list
    /\ forall k,
         conflict_counter st' k
         = (conflict_counter st k + tally table right_lane_drive pos k pairs)%nat.
Proof.
  intros Hwf. induction pairs as [|t pairs IH]; intros st.
  - exists st. cbn. rewrite app_nil_r. repeat split. intros k. lia.
  - cbn [for_each]. unfold mbind_M at 1. cbv zeta.
    destruct (get_conflict_type_returns table
                (_to_direction right_lane_drive (fst t))
                (_to_direction right_lane_drive (snd t)) pos Hwf) as [c Hc].
    unfold mbind_M at 1, called at 1. rewrite Hc. unfold count at 1.
    match goal with
    | |- context [for_each pairs _ ?s] => destruct (IH s) as [st' [Hrun [Hcalls Hcnt]]]
    end.
    exists st'. split; [exact Hrun |]. split.
    + rewrite Hcalls. cbn [calls map]. rewrite <- app_assoc. reflexivity.
    + intros k. rewrite Hcnt. cbn [conflict_counter].
      unfold tally, incr. cbn [List.filter].
      rewrite (looks_up_ok _ _ _ k c t Hc).
      destruct (JuncConflict.eqb c k); cbn [length]; lia.
Qed.

(** Each pair is tallied under exactly one conflict type. *)
Lemma tally_total (table : list rule) (right_lane_drive : bool)
    (pos : NbrPosition.t) (pairs : list (LaneTurn.t * LaneTurn.t)) :
  Forall rule_wf table ->
  (tally table right_lane_drive pos JuncConflict.INTERSECT pairs
   + tally table right_lane_drive pos JuncConflict.MERGE pairs
   + tally table right_lane_drive pos JuncConflict.NO_CONFLICT pairs)%nat
  = length pairs.
Proof.
  intros Hwf. unfold tally. induction pairs as [|t pairs IH]; [reflexivity |].
  cbn [List.filter length].
  destruct (get_conflict_type_returns table
              (_to_direction right_lane_drive (fst t))
              (_to_direction right_lane_drive (snd t)) pos Hwf) as [c Hc].
  rewrite !(looks_up_ok _ _ _ _ c t Hc).
  destruct c; cbn [JuncConflict.eqb length]; lia.
Qed.

Section Counting.

Context {L : Type} `{LineOps L}.

(** C7: for a pair of legs at a node of the graph and a table whose rows
    name enumeration members, [count_pair_interaction]
    - adds one [NO_CONFLICT] and calls neither [get_position] nor
      [get_conflict_type] when the turns of either leg are [None];
    - otherwise calls [get_position] once, then [get_conflict_type] once
      for each element of the product of the two sets of turns, and adds
      one tally under the conflict type looked up for it. *)
Theorem count_pair_interaction_tallies (G : MultiDiGraph) (node_id : Z)
    (p : point) (leg1 leg2 : leg L) (table : list rule)
    (angle_threshold : R) (right_lane_drive : bool) (st : run_state) :
  g_nodes G !! node_id = Some p ->
  Forall rule_wf table ->
  (in_turns leg1 = None \/ in_turns leg2 = None ->
   count_pair_interaction G node_id leg1 leg2 table angle_threshold
     right_lane_drive st
   = (Ok tt,
      {| conflict_counter := incr JuncConflict.NO_CONFLICT (conflict_counter st);
         calls := calls st |}))
  /\ (forall t1 t2,
        in_turns leg1 = Some t1 -> in_turns leg2 = Some t2 ->
        exists pos st',
          get_position G node_id leg1 leg2 angle_threshold right_lane_drive
          = Ok pos
          /\ count_pair_interaction G node_id leg1 leg2 table angle_threshold
               right_lane_drive st
             = (Ok tt, st')
          /\ calls st'
             = (calls st
                ++ CallGetPosition
                   :: map (call_of_pair right_lane_drive pos) (product t1 t2))%list
          /\ (forall k,
                conflict_counter st' k
                = (conflict_counter st k
                   + tally table right_lane_drive pos k (product t1 t2))%nat)
          /\ (tally table right_lane_drive pos JuncConflict.INTERSECT
                (product t1 t2)
              + tally table right_lane_drive pos JuncConflict.MERGE
                  (product t1 t2)
              + tally table right_lane_drive pos JuncConflict.NO_CONFLICT
                  (product t1 t2))%nat
             = (length t1 * length t2)%nat).
Proof.
  intros Hp Hwf. split.
  - intros Hnone. unfold count_pair_interaction.
    destruct Hnone as [Hn|Hn]; rewrite Hn; [reflexivity |].
    destruct (in_turns leg1); reflexivity.
  - intros t1 t2 H1 H2. unfold count_pair_interaction. rewrite H1, H2.
    destruct (get_position_returns G node_id p leg1 leg2 angle_threshold
                right_lane_drive Hp) as [pos Hpos].
    exists pos. unfold mbind_M at 1, called at 1. rewrite Hpos.
    match goal with
    | |- context [for_each _ _ ?s] =>
        destruct (for_each_pair_tallies table right_lane_drive pos
                    (product t1 t2) Hwf s) as [st' [Hrun [Hcalls Hcnt]]]
    end.
    exists st'. split; [reflexivity |]. split; [exact Hrun |].
    split; [| split].
    + rewrite Hcalls. cbn [calls]. rewrite <- app_assoc. reflexivity.
    + intros k. rewrite Hcnt. reflexivity.
    + rewrite tally_total by exact Hwf. apply product_length.
Qed.

End Counting.

Lemma count_pair_interaction_tallies_witness :
  exists pos st',
    @count_pair_interaction point point_line_ops fork_graph 0 collapsed_leg
      other_leg default_conflict_classifier 30%R true empty_run
    = (Ok tt, st')
    /\ calls st'
       = CallGetPosition
         :: map (call_of_pair true pos)
              [(LaneTurn.THROUGH, LaneTurn.RIGHT); (LaneTurn.LEFT, LaneTurn.RIGHT)].
Proof.
  destruct (@count_pair_interaction_tallies point point_line_ops fork_graph 0
              (0, 0)%R collapsed_leg other_leg default_conflict_classifier
              30%R true empty_run eq_refl default_conflict_classifier_wf)
    as [_ Hsome].
  destruct (Hsome [LaneTurn.THROUGH; LaneTurn.LEFT] [LaneTurn.RIGHT]
              eq_refl eq_refl) as [pos [st' [_ [Hrun [Hcalls _]]]]].
  exists pos, st'. split; [exact Hrun | exact Hcalls].
Defined.

(** ** The longest compliant network *)

Section NetworkFacts.

Context {P : Type} `{EqDecision P}.

Variable xy : P -> point.

Implicit Types (G : Graph P) (u v w : P) (c seen frontier : list P).

Open Scope list_scope.

Lemma adjacent_sym G u v : adjacent G u v -> adjacent G v u.
Proof. unfold adjacent. tauto. Qed.

Lemma connected_sym G u v : connected G u v -> connected G v u.
Proof.
  induction 1 as [|x y z Hxy _ IH]; [apply rtc_refl |].
  eapply rtc_r; [exact IH | apply adjacent_sym, Hxy].
Qed.

Lemma elem_of_neighbors G u v : v ∈ neighbors G u <-> adjacent G u v.
Proof.
  unfold neighbors, adjacent.
  rewrite list_elem_of_In, in_flat_map. split.
  - intros [[a b] [Hin Hv]]. apply list_elem_of_In in Hin. cbn [fst snd] in Hv.
    destruct (decide (a = u)) as [->|Hne].
    + destruct Hv as [<-|[]]. left. exact Hin.
    + destruct (decide (b = u)) as [->|Hne']; [| destruct Hv].
      destruct Hv as [<-|[]]. right. exact Hin.
  - intros [Hin|Hin].
    + exists (u, v). split; [apply list_elem_of_In, Hin |]. cbn [fst snd].
      rewrite decide_True by reflexivity. left. reflexivity.
    + exists (v, u). split; [apply list_elem_of_In, Hin |]. cbn [fst snd].
      destruct (decide (v = u)) as [->|Hne]; [left; reflexivity |].
      rewrite decide_True by reflexivity. left. reflexivity.
Qed.

Lemma elem_of_flat_map_neighbors G frontier y :
  y ∈ flat_map (neighbors G) frontier
  <-> exists x, x ∈ frontier /\ adjacent G x y.
Proof.
  rewrite list_elem_of_In, in_flat_map. split.
  - intros [x [Hx Hy]]. exists x. rewrite list_elem_of_In.
    split; [exact Hx |]. apply elem_of_neighbors, list_elem_of_In, Hy.
  - intros [x [Hx Hy]]. exists x. rewrite <- !list_elem_of_In.
    split; [exact Hx |]. apply elem_of_neighbors, Hy.
Qed.

Lemma elem_of_next G seen frontier y :
  y ∈ remove_dups (list_difference (flat_map (neighbors G) frontier) seen)
  <-> (exists x, x ∈ frontier /\ adjacent G x y) /\ y ∉ seen.
Proof.
  rewrite elem_of_remove_dups, list_elem_of_difference,
    elem_of_flat_map_neighbors. reflexivity.
Qed.

Lemma adjacent_in_nodes G u v :
  graph_wf G -> adjacent G u v -> u ∈ nodes G /\ v ∈ nodes G.
Proof.
  intros [_ [Hedges _]] [Huv|Hvu].
  - apply Hedges, Huv.
  - apply Hedges in Hvu. tauto.
Qed.

(** The search stops before it runs out of fuel, and what it returns is
    closed under adjacency. *)
Lemma bfs_closed G v :
  graph_wf G ->
  forall fuel seen frontier,
    bfs_inv G v seen frontier ->
    (length (nodes G) < fuel + length seen)%nat ->
    NoDup (bfs G fuel seen frontier)
    /\ (forall x, x ∈ bfs G fuel seen frontier -> x ∈ nodes G)
    /\ v ∈ bfs G fuel seen frontier
    /\ (forall x, x ∈ bfs G fuel seen frontier -> connected G v x)
    /\ (forall x y, x ∈ bfs G fuel seen frontier -> adjacent G x y ->
                    y ∈ bfs G fuel seen frontier).
Proof.
  intros Hwf fuel.
  induction fuel as [|fuel IH];
    intros seen frontier (Hnd & Hsub & Hv & Hconn & Hfr & Hcl) Hfuel.
  - exfalso.
    assert (length seen <= length (nodes G))%nat
      by (apply submseteq_length, NoDup_submseteq; assumption).
    lia.
  - cbn [bfs].
    destruct (remove_dups (list_difference (flat_map (neighbors G) frontier) seen))
      as [|z next] eqn:Hnext.
    + repeat split; try assumption.
      intros x y Hx Hxy.
      destruct (decide (x ∈ frontier)) as [Hin|Hnin]; [| eauto].
      destruct (decide (y ∈ seen)) as [|Hy]; [assumption |].
      assert (Hy' : y ∈ remove_dups
                      (list_difference (flat_map (neighbors G) frontier) seen))
        by (apply elem_of_next; eauto).
      rewrite Hnext in Hy'. inversion Hy'.
    + assert (Hel : forall y, y ∈ z :: next
                <-> (exists x, x ∈ frontier /\ adjacent G x y) /\ y ∉ seen)
        by (intros y; rewrite <- Hnext; apply elem_of_next).
      apply IH.
      * repeat split.
        -- apply NoDup_app. repeat split; [assumption | |].
           ++ intros x Hx Hx'. apply Hel in Hx'. tauto.
           ++ rewrite <- Hnext. apply NoDup_remove_dups.
        -- intros x Hx. apply elem_of_app in Hx as [Hx|Hx]; [eauto |].
           apply Hel in Hx as [[x' [_ Hadj]] _].
           apply (adjacent_in_nodes G x' x Hwf Hadj).
        -- apply elem_of_app. tauto.
        -- intros x Hx. apply elem_of_app in Hx as [Hx|Hx]; [eauto |].
           apply Hel in Hx as [[x' [Hx' Hadj]] _].
           eapply rtc_r; [apply Hconn, Hfr, Hx' | exact Hadj].
        -- intros x Hx. apply elem_of_app. tauto.
        -- intros x y Hx Hnx Hxy. apply elem_of_app.
           apply elem_of_app in Hx as [Hx|Hx]; [| contradiction].
           destruct (decide (x ∈ frontier)) as [Hin|Hnin]; [| eauto].
           destruct (decide (y ∈ seen)) as [|Hy]; [tauto |].
           right. apply Hel. eauto.
      * rewrite length_app. cbn [length]. lia.
Qed.

Lemma closed_under_connected G (r : list P) :
  (forall x y, x ∈ r -> adjacent G x y -> y ∈ r) ->
  forall u w, connected G u w -> u ∈ r -> w ∈ r.
Proof.
  intros Hcl u w Huw. induction Huw as [|x y z Hxy _ IH]; [tauto |].
  intros Hx. apply IH. eapply Hcl; eassumption.
Qed.

(** [plain_bfs G v] holds exactly the nodes joined to [v]. *)
Lemma plain_bfs_spec G v :
  graph_wf G -> v ∈ nodes G ->
  NoDup (plain_bfs G v)
  /\ (forall x, x ∈ plain_bfs G v -> x ∈ nodes G)
  /\ (forall x, x ∈ plain_bfs G v <-> connected G v x).
Proof.
  intros Hwf Hv. unfold plain_bfs.
  destruct (bfs_closed G v Hwf (length (nodes G)) [v] [v])
    as (Hnd & Hsub & Hin & Hconn & Hcl).
  - repeat split.
    + apply NoDup_singleton.
    + intros x Hx. apply list_elem_of_singleton in Hx as ->. exact Hv.
    + apply list_elem_of_singleton. reflexivity.
    + intros x Hx. apply list_elem_of_singleton in Hx as ->. apply rtc_refl.
    + tauto.
    + intros x y Hx Hnx. contradiction.
  - cbn [length]. lia.
  - repeat split; [assumption | assumption | apply Hconn |].
    intros Hvx. apply (closed_under_connected G _ Hcl v x Hvx Hin).
Qed.

Lemma plain_bfs_component G v :
  graph_wf G -> v ∈ nodes G -> is_component G (plain_bfs G v).
Proof.
  intros Hwf Hv.
  destruct (plain_bfs_spec G v Hwf Hv) as (_ & Hsub & Hiff).
  split; [| split].
  - intros Hnil. assert (Hin : v ∈ plain_bfs G v) by (apply Hiff, rtc_refl).
    rewrite Hnil in Hin. inversion Hin.
  - exact Hsub.
  - intros u w Hu. apply Hiff in Hu. rewrite Hiff. split.
    + intros Hw. eapply rtc_trans; [apply connected_sym, Hu | exact Hw].
    + intros Huw. eapply rtc_trans; [exact Hu | exact Huw].
Qed.

(** *** The segment graph is a well-formed graph *)

Lemma elem_of_nodes_add_node G u x :
  x ∈ nodes (add_node G u) <-> x ∈ nodes G \/ x = u.
Proof.
  unfold add_node. destruct (decide (u ∈ nodes G)) as [Hin|Hnin]; cbn [nodes].
  - split; [tauto |]. intros [Hx| ->]; assumption.
  - rewrite elem_of_app, list_elem_of_singleton. reflexivity.
Qed.

Lemma edges_add_node G u : edges (add_node G u) = edges G.
Proof. unfold add_node. destruct (decide _); reflexivity. Qed.

Lemma NoDup_nodes_add_node G u :
  NoDup (nodes G) -> NoDup (nodes (add_node G u)).
Proof.
  intros Hnd. unfold add_node.
  destruct (decide (u ∈ nodes G)) as [Hin|Hnin]; cbn [nodes]; [exact Hnd |].
  apply NoDup_app. repeat split; [exact Hnd | | apply NoDup_singleton].
  intros x Hx Hx'. apply list_elem_of_singleton in Hx' as ->. contradiction.
Qed.

Lemma nodes_add_edge G u v :
  nodes (add_edge G u v) = nodes (add_node (add_node G u) v).
Proof. unfold add_edge. destruct (has_edge _ u v); reflexivity. Qed.

Lemma elem_of_nodes_add_edge G u v x :
  x ∈ nodes (add_edge G u v) <-> x ∈ nodes G \/ x = u \/ x = v.
Proof.
  rewrite nodes_add_edge, !elem_of_nodes_add_node. tauto.
Qed.

Lemma adjacent_add_edge G u v a b :
  adjacent (add_edge G u v) a b
  <-> adjacent G a b \/ (a = u /\ b = v) \/ (a = v /\ b = u).
Proof.
  unfold add_edge, has_edge, adjacent.
  rewrite !edges_add_node.
  destruct (bool_decide ((u, v) ∈ edges G \/ (v, u) ∈ edges G)) eqn:Hb;
    cbn [edges].
  - apply bool_decide_eq_true in Hb. rewrite !edges_add_node. split; [tauto |].
    intros [Hab|[[-> ->]|[-> ->]]]; tauto.
  - rewrite !elem_of_app, !list_elem_of_singleton. split.
    + intros [[H1|H1]|[H1|H1]]; try tauto; inversion H1; tauto.
    + intros [[H1|H1]|[[-> ->]|[-> ->]]]; tauto.
Qed.

Lemma elem_of_edges_add_edge G u v a b :
  (a, b) ∈ edges (add_edge G u v) -> (a, b) ∈ edges G \/ (a = u /\ b = v).
Proof.
  unfold add_edge. destruct (has_edge _ u v); cbn [edges];
    rewrite ?elem_of_app, ?list_elem_of_singleton, !edges_add_node.
  - tauto.
  - intros [Hab|Hab]; [tauto |]. inversion Hab. tauto.
Qed.

Lemma add_edge_wf G u v : graph_wf G -> graph_wf (add_edge G u v).
Proof.
  intros (Hnd & Hedges & Hiso). split; [| split].
  - rewrite nodes_add_edge. apply NoDup_nodes_add_node, NoDup_nodes_add_node, Hnd.
  - intros a b Hab. rewrite !elem_of_nodes_add_edge.
    apply elem_of_edges_add_edge in Hab as [Hab|[-> ->]]; [| tauto].
    destruct (Hedges _ _ Hab). tauto.
  - intros x Hx. apply elem_of_nodes_add_edge in Hx as [Hx|[->| ->]].
    + destruct (Hiso x Hx) as [y Hy]. exists y. apply adjacent_add_edge. tauto.
    + exists v. apply adjacent_add_edge. tauto.
    + exists u. apply adjacent_add_edge. tauto.
Qed.

Lemma add_segments_two G a b (r : list P) :
  add_segments G (a :: b :: r) = add_segments (add_edge G a b) (b :: r).
Proof. reflexivity. Qed.

Lemma add_segments_wf coords :
  forall G, graph_wf G -> graph_wf (add_segments G coords).
Proof.
  induction coords as [|a [|b r] IH]; intros G Hwf; try exact Hwf.
  rewrite add_segments_two. apply IH, add_edge_wf, Hwf.
Qed.

Lemma empty_graph_wf : graph_wf (@empty_graph P).
Proof.
  split; [| split]; cbn.
  - apply NoDup_nil_2.
  - intros u v Huv. inversion Huv.
  - intros u Hu. inversion Hu.
Qed.

Lemma fold_add_segments_wf (lines : list (list P)) :
  forall G, graph_wf G -> graph_wf (fold_left add_segments lines G).
Proof.
  induction lines as [|l lines IH]; intros G Hwf; [exact Hwf |].
  cbn [fold_left]. apply IH, add_segments_wf, Hwf.
Qed.

Lemma segment_graph_wf (lines : list (list P)) : graph_wf (segment_graph lines).
Proof. apply fold_add_segments_wf, empty_graph_wf. Qed.

(** The edges of the segment graph are the pairs of consecutive
    coordinates of the lines, in either direction. *)
Lemma adjacent_add_segments coords :
  forall G u v,
    adjacent (add_segments G coords) u v
    <-> adjacent G u v \/ consecutive u v coords \/ consecutive v u coords.
Proof.
  induction coords as [|a [|b r] IH]; intros G u v.
  - cbn. tauto.
  - cbn. tauto.
  - rewrite add_segments_two, IH, adjacent_add_edge.
    change (consecutive u v (a :: b :: r))
      with ((a = u /\ b = v) \/ consecutive u v (b :: r)).
    change (consecutive v u (a :: b :: r))
      with ((a = v /\ b = u) \/ consecutive v u (b :: r)).
    intuition congruence.
Qed.

Lemma adjacent_fold_add_segments (lines : list (list P)) :
  forall G u v,
    adjacent (fold_left add_segments lines G) u v
    <-> adjacent G u v
        \/ exists l, l ∈ lines /\ (consecutive u v l \/ consecutive v u l).
Proof.
  induction lines as [|l lines IH]; intros G u v.
  - cbn [fold_left]. split; [tauto |].
    intros [Hadj|[l [Hl _]]]; [exact Hadj | inversion Hl].
  - cbn [fold_left]. rewrite IH, adjacent_add_segments. split.
    + intros [[Hadj|Hc]|[l' [Hl' Hc]]].
      * tauto.
      * right. exists l. split; [apply list_elem_of_here | exact Hc].
      * right. exists l'. split; [apply list_elem_of_further, Hl' | exact Hc].
    + intros [Hadj|[l' [Hl' Hc]]]; [tauto |].
      apply elem_of_cons in Hl' as [->|Hl']; [tauto |].
      right. exists l'. tauto.
Qed.

Lemma adjacent_segment_graph (lines : list (list P)) u v :
  adjacent (segment_graph lines) u v
  <-> exists l, l ∈ lines /\ (consecutive u v l \/ consecutive v u l).
Proof.
  unfold segment_graph. rewrite adjacent_fold_add_segments.
  split; [| tauto]. intros [[Hadj|Hadj]|Hl]; [inversion Hadj | inversion Hadj | exact Hl].
Qed.

(** *** The components are a partition *)

Lemma components_from_spec G :
  graph_wf G ->
  forall todo seen,
    (forall x, x ∈ todo -> x ∈ nodes G) ->
    (forall x y, x ∈ seen -> connected G x y -> y ∈ seen) ->
    Forall (fun c => is_component G c /\ forall x, x ∈ c -> x ∉ seen)
      (components_from G todo seen)
    /\ (forall v, v ∈ todo ->
          v ∈ seen \/ exists c, c ∈ components_from G todo seen /\ v ∈ c)
    /\ pairwise_disjoint (components_from G todo seen).
Proof.
  intros Hwf todo.
  induction todo as [|v todo IH]; intros seen Hsub Hcl; cbn [components_from].
  - split; [constructor | split; [| exact I]].
    intros v Hv. inversion Hv.
  - assert (Hsub' : forall x, x ∈ todo -> x ∈ nodes G)
      by (intros x Hx; apply Hsub, list_elem_of_further, Hx).
    destruct (decide (v ∈ seen)) as [Hin|Hnin].
    + destruct (IH seen Hsub' Hcl) as (Hall & Hcov & Hdis).
      split; [exact Hall | split; [| exact Hdis]].
      intros x Hx. apply elem_of_cons in Hx as [->|Hx]; [tauto | eauto].
    + assert (Hv : v ∈ nodes G) by apply Hsub, list_elem_of_here.
      destruct (plain_bfs_spec G v Hwf Hv) as (_ & _ & Hiff).
      assert (Hfresh : forall x, x ∈ plain_bfs G v -> x ∉ seen).
      { intros x Hx Hx'. apply Hiff in Hx. apply Hnin.
        apply (Hcl x v Hx'), connected_sym, Hx. }
      destruct (IH (seen ++ plain_bfs G v) Hsub') as (Hall & Hcov & Hdis).
      { intros x y Hx Hxy. apply elem_of_app.
        apply elem_of_app in Hx as [Hx|Hx]; [left; eauto |].
        right. apply Hiff. apply Hiff in Hx. eapply rtc_trans; eassumption. }
      split; [| split].
      * constructor.
        -- split; [apply plain_bfs_component; assumption | exact Hfresh].
        -- eapply Forall_impl; [exact Hall |].
           intros c [Hc Hc']. split; [exact Hc |].
           intros x Hx Hx'. apply (Hc' x Hx), elem_of_app. tauto.
      * intros x Hx. apply elem_of_cons in Hx as [->|Hx].
        -- right. exists (plain_bfs G v).
           split; [apply list_elem_of_here | apply Hiff, rtc_refl].
        -- destruct (Hcov x Hx) as [Hx'|[c [Hc Hxc]]].
           ++ apply elem_of_app in Hx' as [Hx'|Hx']; [tauto |].
              right. exists (plain_bfs G v).
              split; [apply list_elem_of_here | exact Hx'].
           ++ right. exists c. split; [apply list_elem_of_further, Hc | exact Hxc].
      * split; [| exact Hdis].
        eapply Forall_impl; [exact Hall |].
        intros c [_ Hc'] x Hx Hxc. apply (Hc' x Hxc), elem_of_app. tauto.
Qed.

Lemma connected_components_partition G :
  graph_wf G -> is_partition G (connected_components G).
Proof.
  intros Hwf. unfold connected_components.
  destruct (components_from_spec G Hwf (nodes G) []) as (Hall & Hcov & Hdis).
  - tauto.
  - intros x y Hx. inversion Hx.
  - split; [| split; [| exact Hdis]].
    + eapply Forall_impl; [exact Hall |]. intros c [Hc _]. exact Hc.
    + intros v Hv. destruct (Hcov v Hv) as [Hv'|Hc]; [inversion Hv' | exact Hc].
Qed.

(** A component of a graph without isolated nodes has an edge. *)
Lemma subgraph_edges_nonempty G c :
  graph_wf G -> is_component G c -> subgraph_edges G c <> [].
Proof.
  intros (_ & _ & Hiso) (Hne & Hsub & Hcl).
  destruct c as [|u c]; [congruence |].
  assert (Hu : u ∈ u :: c) by apply list_elem_of_here.
  destruct (Hiso u (Hsub u Hu)) as [v Huv].
  assert (Hv : v ∈ u :: c) by (apply (Hcl u v Hu), rtc_once, Huv).
  intros Hnil.
  assert (Hno : forall e, e ∉ subgraph_edges G (u :: c))
    by (intros e He; rewrite Hnil in He; inversion He).
  destruct Huv as [Huv|Hvu].
  - apply (Hno (u, v)). apply list_elem_of_filter. cbn [fst snd]. tauto.
  - apply (Hno (v, u)). apply list_elem_of_filter. cbn [fst snd]. tauto.
Qed.

(** *** The first greatest item *)

Lemma max_from_spec {A : Type} (key : A -> R) (l : list A) :
  forall (pre : list A) (best : A) (i : nat),
    pre !! i = Some best ->
    (forall j x, pre !! j = Some x -> (key x <= key best)%R) ->
    (forall j x, (j < i)%nat -> pre !! j = Some x -> (key x < key best)%R) ->
    exists i',
      (pre ++ l) !! i' = Some (max_from key best l)
      /\ (forall j x, (pre ++ l) !! j = Some x ->
                      (key x <= key (max_from key best l))%R)
      /\ (forall j x, (j < i')%nat -> (pre ++ l) !! j = Some x ->
                      (key x < key (max_from key best l))%R).
Proof.
  induction l as [|y l IH]; intros pre best i Hi Hle Hlt.
  - exists i. rewrite app_nil_r. cbn [max_from]. auto.
  - cbn [max_from].
    replace (pre ++ y :: l) with ((pre ++ [y]) ++ l)
      by (rewrite <- app_assoc; reflexivity).
    assert (Hilt : (i < length pre)%nat) by (eapply lookup_lt_Some; eassumption).
    destruct (Rgt_dec (key y) (key best)) as [Hgt|Hngt].
    + apply (IH (pre ++ [y]) y (length pre)).
      * rewrite lookup_app_r by lia. rewrite Nat.sub_diag. reflexivity.
      * intros j x Hj.
        destruct (decide (j < length pre)%nat) as [Hjl|Hjl].
        -- rewrite lookup_app_l in Hj by exact Hjl.
           specialize (Hle j x Hj). lra.
        -- rewrite lookup_app_r in Hj by lia.
           destruct (j - length pre)%nat; [| discriminate Hj].
           injection Hj as ->. lra.
      * intros j x Hjl Hj. rewrite lookup_app_l in Hj by exact Hjl.
        specialize (Hle j x Hj). lra.
    + apply (IH (pre ++ [y]) best i).
      * rewrite lookup_app_l by exact Hilt. exact Hi.
      * intros j x Hj.
        destruct (decide (j < length pre)%nat) as [Hjl|Hjl].
        -- rewrite lookup_app_l in Hj by exact Hjl. eauto.
        -- rewrite lookup_app_r in Hj by lia.
           destruct (j - length pre)%nat; [| discriminate Hj].
           injection Hj as ->. lra.
      * intros j x Hjl Hj. rewrite lookup_app_l in Hj by lia. eauto.
Qed.

(** [max] with a key returns the first of the items with the greatest
    key. *)
Lemma py_max_by_first_greatest {A : Type} (key : A -> R) (l : list A) :
  l <> [] ->
  exists i m,
    py_max_by key l = Ok m
    /\ l !! i = Some m
    /\ (forall j x, l !! j = Some x -> (key x <= key m)%R)
    /\ (forall j x, (j < i)%nat -> l !! j = Some x -> (key x < key m)%R).
Proof.
  destruct l as [|a l]; [congruence |]. intros _.
  destruct (max_from_spec key l [a] a 0%nat) as (i & Hi & Hle & Hlt).
  - reflexivity.
  - intros [|j] x Hj; [injection Hj as ->; lra | discriminate Hj].
  - intros j x Hj. lia.
  - exists i, (max_from key a l). cbn [py_max_by]. auto.
Qed.

(** *** The extraction *)

Lemma nodes_add_segments_mono coords :
  forall G x, x ∈ nodes G -> x ∈ nodes (add_segments G coords).
Proof.
  induction coords as [|a [|b r] IH]; intros G x Hx; try exact Hx.
  rewrite add_segments_two. apply IH, elem_of_nodes_add_edge. tauto.
Qed.

Lemma nodes_fold_add_segments_mono (lines : list (list P)) :
  forall G x, x ∈ nodes G -> x ∈ nodes (fold_left add_segments lines G).
Proof.
  induction lines as [|l lines IH]; intros G x Hx; [exact Hx |].
  cbn [fold_left]. apply IH, nodes_add_segments_mono, Hx.
Qed.

Lemma nodes_fold_add_segments_first (lines : list (list P)) a b r :
  (a :: b :: r) ∈ lines ->
  forall G, a ∈ nodes (fold_left add_segments lines G).
Proof.
  induction lines as [|l lines IH]; intros Hin G; [inversion Hin |].
  cbn [fold_left]. apply elem_of_cons in Hin as [<-|Hin]; [| apply IH, Hin].
  apply nodes_fold_add_segments_mono. rewrite add_segments_two.
  apply nodes_add_segments_mono, elem_of_nodes_add_edge. tauto.
Qed.

Lemma segment_graph_nonempty (compliant_geom : list (geometry P)) :
  Exists has_segment compliant_geom ->
  omap line_coords compliant_geom <> []
  /\ nodes (segment_graph (omap line_coords compliant_geom)) <> [].
Proof.
  intros Hex. apply Exists_exists in Hex as [g [Hg (a & b & r & ->)]].
  assert (Hl : (a :: b :: r) ∈ omap line_coords compliant_geom).
  { apply list_elem_of_omap. exists (LineString (a :: b :: r)). auto. }
  split.
  - intros Hnil. rewrite Hnil in Hl. inversion Hl.
  - intros Hnil.
    pose proof (nodes_fold_add_segments_first _ a b r Hl empty_graph) as Ha.
    unfold segment_graph in Hnil. rewrite Hnil in Ha. inversion Ha.
Qed.

Lemma components_nonempty G :
  graph_wf G -> nodes G <> [] -> connected_components G <> [].
Proof.
  intros Hwf Hne Hnil.
  destruct (nodes G) as [|v vs] eqn:Hn; [congruence |].
  destruct (connected_components_partition G Hwf) as (_ & Hcov & _).
  destruct (Hcov v) as [c [Hc _]]; [rewrite Hn; apply list_elem_of_here |].
  rewrite Hnil in Hc. inversion Hc.
Qed.

(** When some line has a segment, the result is the first component of
    greatest total length, as two-point lines. *)
Lemma get_longest_network_spec (compliant_geom : list (geometry P)) :
  Exists has_segment compliant_geom ->
  exists i c,
    is_partition (segment_graph (omap line_coords compliant_geom))
      (connected_components (segment_graph (omap line_coords compliant_geom)))
    /\ connected_components (segment_graph (omap line_coords compliant_geom))
         !! i = Some c
    /\ (forall j c',
          connected_components (segment_graph (omap line_coords compliant_geom))
            !! j = Some c' ->
          (total_length xy
             (subgraph_edges (segment_graph (omap line_coords compliant_geom)) c')
           <= total_length xy
                (subgraph_edges (segment_graph (omap line_coords compliant_geom)) c))%R)
    /\ (forall j c',
          (j < i)%nat ->
          connected_components (segment_graph (omap line_coords compliant_geom))
            !! j = Some c' ->
          (total_length xy
             (subgraph_edges (segment_graph (omap line_coords compliant_geom)) c')
           < total_length xy
               (subgraph_edges (segment_graph (omap line_coords compliant_geom)) c))%R)
    /\ get_longest_network xy compliant_geom
       = Ok (Some (MultiLineString
                     (as_lines
                        (subgraph_edges
                           (segment_graph (omap line_coords compliant_geom)) c)))).
Proof.
  intros Hex.
  destruct (segment_graph_nonempty compliant_geom Hex) as [Hlines Hnodes].
  set (G := segment_graph (omap line_coords compliant_geom)) in *.
  assert (Hwf : graph_wf G) by apply segment_graph_wf.
  pose proof (connected_components_partition G Hwf) as Hpart.
  pose proof (components_nonempty G Hwf Hnodes) as Hcs.
  destruct (py_max_by_first_greatest (total_length xy)
              (map (subgraph_edges G) (connected_components G)))
    as (i & m & Hmax & Hi & Hle & Hlt).
  { destruct (connected_components G); [congruence | discriminate]. }
  change (map (subgraph_edges G) (connected_components G))
    with (subgraph_edges G <$> connected_components G) in Hi, Hle, Hlt.
  rewrite list_lookup_fmap in Hi.
  destruct (connected_components G !! i) as [c|] eqn:Hc; [| discriminate Hi].
  injection Hi as <-.
  exists i, c. split; [exact Hpart |]. split; [exact Hc |].
  split; [| split].
  - intros j c' Hj. apply (Hle j). rewrite list_lookup_fmap, Hj. reflexivity.
  - intros j c' Hji Hj. apply (Hlt j); [exact Hji |].
    rewrite list_lookup_fmap, Hj. reflexivity.
  - unfold get_longest_network. fold G.
    destruct (omap line_coords compliant_geom) as [|l ls] eqn:Hl; [congruence |].
    cbn [is_nil]. rewrite Hmax. cbn [bind].
    assert (Hcomp : is_component G c).
    { destruct Hpart as (Hall & _ & _).
      apply (proj1 (Forall_forall _ _) Hall c).
      eapply list_elem_of_lookup_2. exact Hc. }
    pose proof (subgraph_edges_nonempty G c Hwf Hcomp) as Hne.
    destruct (subgraph_edges G c); [congruence | reflexivity].
Qed.

Lemma omap_line_coords_filter (compliant_geom : list (geometry P)) :
  omap line_coords (List.filter is_line_string compliant_geom)
  = omap line_coords compliant_geom.
Proof.
  induction compliant_geom as [|g l IH]; [reflexivity |].
  destruct g; cbn; rewrite ?IH; reflexivity.
Qed.

(** C10: only the [LineString]s count.  The result is that of the list
    with every other geometry removed, and it is [None] when no element is
    a [LineString]. *)
Theorem non_line_strings_dropped (compliant_geom : list (geometry P)) :
  get_longest_network xy compliant_geom
  = get_longest_network xy (List.filter is_line_string compliant_geom)
  /\ (Forall (fun g => is_line_string g = false) compliant_geom ->
      get_longest_network xy compliant_geom = Ok None).
Proof.
  split.
  - unfold get_longest_network. rewrite omap_line_coords_filter. reflexivity.
  - intros Hall. unfold get_longest_network.
    replace (omap line_coords compliant_geom) with (@nil (list P));
      [reflexivity |].
    induction Hall as [|g l Hg _ IH]; [reflexivity |].
    destruct g; [discriminate Hg | exact IH | exact IH].
Qed.

(** Lines that are all empty give an empty graph, and [max] has nothing
    to choose from. *)
Lemma get_longest_network_no_segment :
  get_longest_network xy [LineString []] = Raise ValueError.
Proof. reflexivity. Qed.

End NetworkFacts.

(** *** Two separate networks of lengths 10 and 25 *)

Lemma two_networks_components :
  map (subgraph_edges (segment_graph [short_line; long_line_1; long_line_2]))
    (connected_components
       (segment_graph [short_line; long_line_1; long_line_2]))
  = [ [((0, 0), (10, 0))];
      [((0, 5), (15, 5)); ((15, 5), (15, 15))] ]%Z.
Proof. vm_compute. reflexivity. Qed.

Lemma sqrt_of_square (a b : R) : (0 <= b)%R -> a = (b * b)%R -> sqrt a = b.
Proof. intros Hb ->. apply sqrt_square, Hb. Qed.

Lemma short_network_length :
  total_length grid_xy [((0, 0), (10, 0))%Z] = 10%R.
Proof.
  unfold total_length, segment_length, grid_xy. cbn [fold_right fst snd].
  rewrite (sqrt_of_square _ 10) by lra. lra.
Qed.

Lemma long_network_length :
  total_length grid_xy [((0, 5), (15, 5)); ((15, 5), (15, 15))]%Z = 25%R.
Proof.
  unfold total_length, segment_length, grid_xy. cbn [fold_right fst snd].
  rewrite (sqrt_of_square _ 15) by lra.
  rewrite (sqrt_of_square _ 10) by lra. lra.
Qed.

Lemma two_networks_longest :
  get_longest_network grid_xy two_networks
  = Ok (Some (MultiLineString [long_line_1; long_line_2])).
Proof.
  unfold get_longest_network.
  change (omap line_coords two_networks)
    with [short_line; long_line_1; long_line_2].
  cbn [is_nil]. rewrite two_networks_components.
  cbn [py_max_by max_from bind].
  rewrite short_network_length, long_network_length.
  destruct (Rgt_dec 25 10) as [_|Hn]; [reflexivity | exfalso; lra].
Qed.

(** C8: whenever some line has a segment, the connected components of the
    segment graph partition its nodes, and the result is the
    [MultiLineString] of the edges of the first component whose total
    length is greatest; of two separate networks of lengths 10 and 25 only
    the second is returned; with no geometry the result is [None]. *)
Theorem longest_network_extraction :
  (forall (P : Type) (dec : EqDecision P) (xy : P -> point)
          (compliant_geom : list (geometry P)),
      Exists has_segment compliant_geom ->
      exists i c,
        let G := segment_graph (omap line_coords compliant_geom) in
        is_partition G (connected_components G)
        /\ connected_components G !! i = Some c
        /\ (forall j c',
              connected_components G !! j = Some c' ->
              (total_length xy (subgraph_edges G c')
               <= total_length xy (subgraph_edges G c))%R)
        /\ (forall j c',
              (j < i)%nat -> connected_components G !! j = Some c' ->
              (total_length xy (subgraph_edges G c')
               < total_length xy (subgraph_edges G c))%R)
        /\ get_longest_network xy compliant_geom
           = Ok (Some (MultiLineString (as_lines (subgraph_edges G c)))))
  /\ (total_length grid_xy [((0, 0), (10, 0))%Z] = 10%R
      /\ total_length grid_xy [((0, 5), (15, 5)); ((15, 5), (15, 15))]%Z = 25%R
      /\ get_longest_network grid_xy two_networks
         = Ok (Some (MultiLineString [long_line_1; long_line_2])))
  /\ (forall (P : Type) (dec : EqDecision P) (xy : P -> point),
        get_longest_network xy [] = Ok None).
Proof.
  split; [| split].
  - intros P dec xy compliant_geom Hex.
    destruct (get_longest_network_spec xy compliant_geom Hex)
      as (i & c & Hpart & Hc & Hle & Hlt & Hres).
    exists i, c. cbv zeta. auto.
  - split; [apply short_network_length |].
    split; [apply long_network_length | apply two_networks_longest].
  - reflexivity.
Qed.

Lemma two_networks_has_segment : Exists has_segment two_networks.
Proof. apply Exists_cons_hd. exists (0, 0)%Z, (10, 0)%Z, []. reflexivity. Qed.

Lemma longest_network_extraction_witness :
  exists c,
    get_longest_network grid_xy two_networks
    = Ok (Some (MultiLineString
                  (as_lines
                     (subgraph_edges
                        (segment_graph (omap line_coords two_networks)) c)))).
Proof.
  destruct (proj1 longest_network_extraction (Z * Z)%type _ grid_xy
              two_networks two_networks_has_segment)
    as (i & c & _ & _ & _ & _ & Hres).
  exists c. exact Hres.
Defined.

Lemma non_line_strings_dropped_witness :
  get_longest_network grid_xy no_line_strings = Ok None.
Proof.
  apply (non_line_strings_dropped grid_xy no_line_strings).
  repeat constructor.
Defined.

(* ===================================================================== *)
(** * Part III: further properties of the code *)
(* ===================================================================== *)

(** ** Width strings, in general *)

Ltac char_arith :=
  unfold is_digit_or_dot, is_digit, is_space, is_lower, is_upper, is_char in *;
  repeat match goal with
    | H : context [(?a <=? ?b)%nat] |- _ => destruct (Nat.leb_spec a b)
    | |- context [(?a <=? ?b)%nat] => destruct (Nat.leb_spec a b)
    | H : context [(?a =? ?b)%nat] |- _ => destruct (Nat.eqb_spec a b)
    | |- context [(?a =? ?b)%nat] => destruct (Nat.eqb_spec a b)
    end;
  cbn in *; try congruence; try lia.

Lemma sapp_nil (s : string) : EmptyString ++ s = s.
Proof. reflexivity. Qed.

Lemma sapp_cons (c : ascii) (a b : string) :
  String c a ++ b = String c (a ++ b).
Proof. reflexivity. Qed.

Ltac ssimpl := rewrite ?sapp_nil, ?sapp_cons; simpl.

Tactic Notation "ssimpl" "in" hyp(H) :=
  rewrite ?sapp_nil, ?sapp_cons in H; simpl in H.

Lemma str_forall_app (p : ascii -> bool) (a b : string) :
  str_forall p (a ++ b) = str_forall p a && str_forall p b.
Proof.
  induction a as [|c a IH]; [reflexivity |].
  rewrite sapp_cons. simpl. rewrite IH. apply andb_assoc.
Qed.

Lemma str_forall_impl (p q : ascii -> bool) (s : string) :
  (forall c, p c = true -> q c = true) ->
  str_forall p s = true -> str_forall q s = true.
Proof.
  intros Hpq. induction s as [|c s IH]; [reflexivity |].
  simpl. intros H. apply andb_true_iff in H as [Hc Hs].
  rewrite (Hpq c Hc), (IH Hs). reflexivity.
Qed.

Lemma starts_with_app (p : ascii -> bool) (a b : string) :
  starts_with p (a ++ b)
  = if is_empty a then starts_with p b else starts_with p a.
Proof. destruct a; reflexivity. Qed.

(** [span] splits a string that is a run of [p] followed by something
    that does not start with [p] at exactly that place. *)
Lemma span_app (p : ascii -> bool) (a b : string) :
  str_forall p a = true -> starts_with p b = false ->
  span p (a ++ b) = (a, b).
Proof.
  intros Ha Hb. induction a as [|c a IH].
  - rewrite sapp_nil.
    destruct b as [|d b]; [reflexivity |]. simpl in *. rewrite Hb. reflexivity.
  - rewrite sapp_cons. simpl in *. apply andb_true_iff in Ha as [Hc Ha].
    rewrite Hc, (IH Ha). reflexivity.
Qed.

Lemma str_map_id (f : ascii -> ascii) (p : ascii -> bool) (s : string) :
  (forall c, p c = true -> f c = c) ->
  str_forall p s = true -> str_map f s = s.
Proof.
  intros Hf. induction s as [|c s IH]; [reflexivity |].
  simpl. intros H. apply andb_true_iff in H as [Hc Hs].
  rewrite (Hf c Hc), (IH Hs). reflexivity.
Qed.

Lemma rstrip_no_space (u : string) :
  str_forall (fun c => negb (is_space c)) u = true -> rstrip u = u.
Proof.
  induction u as [|c u IH]; [reflexivity |].
  simpl. intros H. apply andb_true_iff in H as [Hc Hu].
  rewrite (IH Hu). destruct u; [| reflexivity].
  apply negb_true_iff in Hc. rewrite Hc. reflexivity.
Qed.

Lemma rstrip_app_keep (a b : string) :
  b <> EmptyString -> rstrip b = b -> rstrip (a ++ b) = a ++ b.
Proof.
  intros Hne Hb. induction a as [|c a IH]; [exact Hb |].
  change (String c a ++ b) with (String c (a ++ b)).
  cbn [rstrip]. rewrite IH. destruct (a ++ b) eqn:E; [| reflexivity].
  destruct a as [|d a]; [change (b = EmptyString) in E; congruence |].
  change (String d (a ++ b) = EmptyString) in E. discriminate E.
Qed.

Lemma lstrip_no_space (s : string) :
  starts_with is_space s = false -> lstrip s = s.
Proof.
  unfold lstrip. destruct s as [|c s]; [reflexivity |].
  simpl. intros ->. reflexivity.
Qed.

(** A run of digits and dots, followed by something that starts with
    neither: what [span is_digit] leaves is the tail, or begins with a
    dot. *)
Lemma span_digits_of_number (num tail : string) :
  str_forall is_digit_or_dot num = true ->
  starts_with is_digit tail = false ->
  exists a n2,
    span is_digit (num ++ tail) = (a, n2 ++ tail)
    /\ (n2 = EmptyString \/ starts_with (is_char 46) n2 = true)
    /\ str_forall is_digit_or_dot n2 = true
    /\ (is_empty a = true -> starts_with is_digit num = false).
Proof.
  intros Hnum Htail. induction num as [|c num IH].
  - exists EmptyString, EmptyString. rewrite !sapp_nil.
    destruct tail as [|d tail]; [simpl; auto |].
    simpl in *. rewrite Htail. auto.
  - simpl in Hnum. apply andb_true_iff in Hnum as [Hc Hnum].
    destruct (IH Hnum) as (a & n2 & Hspan & Hn2 & Hall & Ha).
    rewrite sapp_cons. simpl. destruct (is_digit c) eqn:Hd.
    + rewrite Hspan. exists (String c a), n2. simpl. repeat split; auto.
    + exists EmptyString, (String c num). rewrite sapp_cons.
      simpl. repeat split; auto.
      * right. unfold is_digit_or_dot in Hc. rewrite Hd in Hc. exact Hc.
      * rewrite Hc, Hnum. reflexivity.
Qed.

(** The feet-and-inches pattern does not match a number that is followed,
    after blanks, by a letter. *)
Lemma match_feet_inches_number_unit (num ws unit rest : string) :
  str_forall is_digit_or_dot num = true ->
  str_forall is_space ws = true ->
  starts_with is_lower unit = true ->
  match_feet_inches (num ++ ws ++ unit ++ rest) = None.
Proof.
  intros Hnum Hws Hunit. unfold match_feet_inches.
  assert (Htail : starts_with is_digit (ws ++ unit ++ rest) = false).
  { rewrite starts_with_app. destruct ws as [|c ws]; simpl.
    - destruct unit as [|d unit]; [discriminate |]. rewrite sapp_cons.
      simpl in *. char_arith.
    - simpl in Hws. apply andb_true_iff in Hws as [Hc _]. char_arith. }
  destruct (span_digits_of_number num _ Hnum Htail)
    as (a & n2 & Hspan & Hn2 & _ & _).
  rewrite Hspan. destruct (is_empty a); [reflexivity |].
  destruct Hn2 as [->|Hdot].
  - rewrite sapp_nil. rewrite (span_app is_space ws (unit ++ rest) Hws).
    + destruct unit as [|d unit]; [discriminate |]. rewrite sapp_cons.
      simpl in *.
      replace (is_char 39 d) with false by char_arith. reflexivity.
    + destruct unit as [|d unit]; [discriminate |]. rewrite sapp_cons.
      simpl in *. char_arith.
  - destruct n2 as [|d n2]; [discriminate |]. rewrite sapp_cons. simpl in *.
    replace (is_space d) with false by char_arith. simpl.
    replace (is_char 39 d) with false by char_arith. reflexivity.
Qed.

Lemma match_number_unit_number_unit (num ws unit rest : string) :
  num <> EmptyString ->
  str_forall is_digit_or_dot num = true ->
  str_forall is_space ws = true ->
  unit <> EmptyString ->
  str_forall is_lower unit = true ->
  starts_with is_lower rest = false ->
  match_number_unit (num ++ ws ++ unit ++ rest) = Some (num, unit).
Proof.
  intros Hne Hnum Hws Hune Hunit Hrest. unfold match_number_unit.
  assert (Hu : starts_with is_lower unit = true).
  { destruct unit as [|d unit]; [congruence |]. simpl in *.
    apply andb_true_iff in Hunit as [Hd _]. exact Hd. }
  change (fun c => is_digit c || is_char 46 c) with is_digit_or_dot.
  rewrite (span_app is_digit_or_dot num (ws ++ unit ++ rest) Hnum).
  - destruct num as [|c num]; [congruence |]. cbn [is_empty].
    rewrite (span_app is_space ws (unit ++ rest) Hws).
    + cbn [snd]. rewrite (span_app is_lower unit rest Hunit Hrest).
      destruct unit; [congruence | reflexivity].
    + destruct unit as [|d unit]; [congruence |]. rewrite sapp_cons.
      simpl in *. char_arith.
  - rewrite starts_with_app. destruct ws as [|c ws]; simpl.
    + destruct unit as [|d unit]; [congruence |]. rewrite sapp_cons.
      simpl in *. char_arith.
    + simpl in Hws. apply andb_true_iff in Hws as [Hc _]. char_arith.
Qed.

(** X1 -- a number, blanks, a known unit: the value of the number times
    the factor of the unit, whatever follows the unit. *)
Theorem convert_number_with_unit (val num ws unit rest : string) (q k : Q) :
  py_lower (py_strip val) = num ++ ws ++ unit ++ rest ->
  num <> EmptyString ->
  str_forall is_digit_or_dot num = true ->
  str_forall is_space ws = true ->
  unit <> EmptyString ->
  str_forall is_lower unit = true ->
  starts_with is_lower rest = false ->
  py_float num = Some (FFin q) ->
  unit_factor unit = Some k ->
  exists q', _convert_to_meters val = Ok (FFin q') /\ (q' == q * k)%Q.
Proof.
  intros Hs Hne Hnum Hws Hune Hunit Hrest Hq Hk.
  assert (Hu : starts_with is_lower unit = true).
  { destruct unit as [|d unit]; [congruence |]. simpl in *.
    apply andb_true_iff in Hunit as [Hd _]. exact Hd. }
  unfold _convert_to_meters. cbv zeta. rewrite Hs.
  rewrite (match_feet_inches_number_unit num ws unit rest Hnum Hws Hu).
  rewrite (match_number_unit_number_unit num ws unit rest
             Hne Hnum Hws Hune Hunit Hrest).
  rewrite Hq. unfold unit_factor in Hk.
  repeat (match goal with
          | |- context [if in_strs unit ?l then _ else _] =>
              destruct (in_strs unit l)
          end;
          [injection Hk as <-; eexists; split; [reflexivity |];
           cbn [flt_scale]; try reflexivity; ring |]).
  discriminate Hk.
Qed.

Lemma convert_number_with_unit_witness :
  exists q', _convert_to_meters "  2.5 KM long " = Ok (FFin q')
             /\ (q' == 2500)%Q.
Proof.
  destruct (convert_number_with_unit "  2.5 KM long " "2.5" " " "km" " long"
              2.5 1000) as [q' [Hc Hq]]; try reflexivity; try discriminate.
  exists q'. split; [exact Hc |]. rewrite Hq. reflexivity.
Defined.

Lemma no_underscore_ok (s : string) (prev : ascii) :
  is_char 95 prev = false ->
  str_forall (fun c => negb (is_char 95 c)) s = true ->
  underscores_ok prev s = true /\ remove_underscores s = s.
Proof.
  revert prev. induction s as [|c s IH]; intros prev Hprev Hs.
  - simpl. rewrite Hprev. auto.
  - simpl in *. apply andb_true_iff in Hs as [Hc Hs].
    apply negb_true_iff in Hc. rewrite Hc, Hprev. simpl.
    destruct (IH c Hc Hs) as [-> ->]. auto.
Qed.

Lemma split_sign_number (s : string) :
  starts_with is_digit_or_dot s = true -> split_sign s = (false, s).
Proof.
  destruct s as [|c s]; [discriminate |]. simpl. intros Hc.
  unfold split_sign.
  replace (is_char 43 c) with false by char_arith.
  replace (is_char 45 c) with false by char_arith. reflexivity.
Qed.

Lemma parse_exponent_unit (ws unit : string) :
  str_forall is_space ws = true ->
  unit <> EmptyString ->
  str_forall is_lower unit = true ->
  parse_exponent (ws ++ unit) = None.
Proof.
  intros Hws Hne Hunit. destruct ws as [|c ws].
  - rewrite sapp_nil. destruct unit as [|d unit]; [congruence |].
    simpl in Hunit. apply andb_true_iff in Hunit as [Hd Hunit].
    unfold parse_exponent. destruct (is_char 101 d) eqn:Hd101; [| reflexivity].
    destruct unit as [|d2 unit].
    + reflexivity.
    + simpl in Hunit. apply andb_true_iff in Hunit as [Hd2 _].
      unfold split_sign.
      replace (is_char 43 d2) with false by char_arith.
      replace (is_char 45 d2) with false by char_arith.
      simpl. replace (is_digit d2) with false by char_arith. reflexivity.
  - rewrite sapp_cons. simpl in Hws. apply andb_true_iff in Hws as [Hc _].
    unfold parse_exponent. replace (is_char 101 c) with false by char_arith.
    reflexivity.
Qed.

Lemma not_inf_nan (s : string) :
  starts_with is_digit_or_dot s = true ->
  in_strs s ["inf"; "infinity"] = false /\ String.eqb s "nan" = false.
Proof.
  destruct s as [|c s]; [discriminate |]. simpl. intros Hc.
  destruct (Ascii.eqb_spec c "i") as [->|_]; [discriminate Hc |].
  destruct (Ascii.eqb_spec c "n") as [->|_]; [discriminate Hc |].
  auto.
Qed.

(** [float] rejects a number that is followed by blanks and letters. *)
Lemma py_float_number_unit (num ws unit : string) :
  num <> EmptyString ->
  str_forall is_digit_or_dot num = true ->
  str_forall is_space ws = true ->
  unit <> EmptyString ->
  str_forall is_lower unit = true ->
  py_float (num ++ ws ++ unit) = None.
Proof.
  intros Hne Hnum Hws Hune Hunit.
  assert (Hu : starts_with is_lower unit = true).
  { destruct unit as [|d unit]; [congruence |]. simpl in *.
    apply andb_true_iff in Hunit as [Hd _]. exact Hd. }
  assert (Hstart : starts_with is_digit_or_dot (num ++ ws ++ unit) = true).
  { destruct num as [|c num]; [congruence |]. rewrite sapp_cons. simpl in *.
    apply andb_true_iff in Hnum as [Hc _]. exact Hc. }
  assert (Hplain : str_forall plain_char (num ++ ws ++ unit) = true).
  { rewrite !str_forall_app. rewrite !andb_true_iff. repeat split.
    - apply (str_forall_impl is_digit_or_dot); [| exact Hnum].
      intros c Hc. unfold plain_char. rewrite Hc. reflexivity.
    - apply (str_forall_impl is_space); [| exact Hws].
      intros c Hc. unfold plain_char. rewrite Hc. apply orb_true_r || idtac.
      destruct (is_digit_or_dot c); reflexivity.
    - apply (str_forall_impl is_lower); [| exact Hunit].
      intros c Hc. unfold plain_char. rewrite Hc. apply orb_true_r. }
  unfold py_float, py_strip.
  rewrite lstrip_no_space.
  2:{ destruct num as [|c num]; [congruence |]. rewrite sapp_cons. simpl in *.
      apply andb_true_iff in Hnum as [Hc _]. char_arith. }
  rewrite (rstrip_app_keep num (ws ++ unit)).
  2:{ destruct ws; [rewrite sapp_nil; exact Hune | rewrite sapp_cons; discriminate]. }
  2:{ apply rstrip_app_keep; [exact Hune |]. apply rstrip_no_space.
      apply (str_forall_impl is_lower); [| exact Hunit].
      intros c Hc. char_arith. }
  destruct (no_underscore_ok (num ++ ws ++ unit) zero) as [-> ->].
  { reflexivity. }
  { apply (str_forall_impl plain_char); [| exact Hplain].
    intros c Hc. unfold plain_char in Hc. char_arith. }
  unfold py_lower. rewrite (str_map_id lower_char plain_char).
  2:{ intros c Hc. unfold lower_char, plain_char in *.
      replace (is_upper c) with false by char_arith. reflexivity. }
  2:{ exact Hplain. }
  unfold parse_float_body. rewrite (split_sign_number _ Hstart).
  destruct (not_inf_nan _ Hstart) as [-> ->].
  assert (Htail : starts_with is_digit (ws ++ unit) = false).
  { rewrite starts_with_app. destruct ws as [|c ws]; simpl.
    - destruct unit as [|d unit]; [discriminate |]. simpl in *. char_arith.
    - simpl in Hws. apply andb_true_iff in Hws as [Hc _]. char_arith. }
  pose proof (parse_exponent_unit ws unit Hws Hune Hunit) as Hexp.
  destruct (span_digits_of_number num _ Hnum Htail)
    as (a & n2 & Hspan & Hn2 & Hall2 & _).
  rewrite Hspan. destruct Hn2 as [->|Hdot].
  - rewrite sapp_nil.
    destruct (ws ++ unit) as [|c1 s1] eqn:Et; [discriminate Hexp |].
    replace (is_char 46 c1) with false.
    2:{ destruct ws as [|c ws].
        - rewrite sapp_nil in Et. subst unit. simpl in Hu. char_arith.
        - rewrite sapp_cons in Et. injection Et as <- _. simpl in Hws.
          apply andb_true_iff in Hws as [Hc _]. char_arith. }
    rewrite Hexp. destruct (is_empty a && is_empty EmptyString); reflexivity.
  - destruct n2 as [|d n2]; [discriminate Hdot |]. rewrite sapp_cons.
    simpl in Hdot. rewrite Hdot.
    simpl in Hall2. apply andb_true_iff in Hall2 as [_ Hall2].
    destruct (span_digits_of_number n2 _ Hall2 Htail)
      as (a' & n3 & Hspan' & Hn3 & _ & _).
    rewrite Hspan'.
    assert (Hexp' : parse_exponent (n3 ++ ws ++ unit) = None).
    { destruct Hn3 as [->|Hdot3]; [exact Hexp |].
      destruct n3 as [|d3 n3]; [discriminate Hdot3 |]. rewrite sapp_cons.
      simpl in Hdot3. unfold parse_exponent.
      replace (is_char 101 d3) with false by char_arith. reflexivity. }
    rewrite Hexp'. destruct (is_empty a && is_empty a'); reflexivity.
Qed.

(** X2 -- a number followed by a unit the function does not know gives
    0.0, not the number. *)
Theorem convert_unknown_unit (val num ws unit : string) (f : pyfloat) :
  py_lower (py_strip val) = num ++ ws ++ unit ->
  num <> EmptyString ->
  str_forall is_digit_or_dot num = true ->
  str_forall is_space ws = true ->
  unit <> EmptyString ->
  str_forall is_lower unit = true ->
  py_float num = Some f ->
  unit_factor unit = None ->
  _convert_to_meters val = Ok (FFin 0).
Proof.
  intros Hs Hne Hnum Hws Hune Hunit Hf Hk.
  assert (Hu : starts_with is_lower unit = true).
  { destruct unit as [|d unit]; [congruence |]. simpl in *.
    apply andb_true_iff in Hunit as [Hd _]. exact Hd. }
  assert (Hs' : py_lower (py_strip val) = num ++ ws ++ unit ++ EmptyString).
  { rewrite Hs. f_equal. f_equal. clear. induction unit as [|c u IH];
      [reflexivity |]. rewrite sapp_cons, <- IH. reflexivity. }
  unfold _convert_to_meters, bare_number. cbv zeta. rewrite Hs'.
  rewrite (match_feet_inches_number_unit num ws unit EmptyString Hnum Hws Hu).
  rewrite (match_number_unit_number_unit num ws unit EmptyString
             Hne Hnum Hws Hune Hunit eq_refl).
  rewrite Hf. rewrite <- Hs', Hs.
  rewrite (py_float_number_unit num ws unit Hne Hnum Hws Hune Hunit).
  unfold unit_factor in Hk.
  repeat (match goal with
          | |- context [if in_strs unit ?l then _ else _] =>
              destruct (in_strs unit l); [discriminate Hk |]
          end).
  reflexivity.
Qed.

Lemma convert_unknown_unit_witness :
  _convert_to_meters "350 cm" = Ok (FFin 0)
  /\ _convert_to_meters "12mm" = Ok (FFin 0).
Proof.
  split.
  - apply (convert_unknown_unit "350 cm" "350" " " "cm" (FFin 350));
      try reflexivity; discriminate.
  - apply (convert_unknown_unit "12mm" "12" EmptyString "mm" (FFin 12));
      try reflexivity; discriminate.
Defined.

(** X3 -- feet and inches: a run of digits, a quote and a run of digits,
    with blanks allowed around the quote, give feet times 0.3048 plus
    inches times 0.0254; what follows the inches is not looked at. *)
Theorem convert_feet_inches (val ft ws1 ws2 inch rest : string) :
  py_lower (py_strip val) = ft ++ ws1 ++ "'" ++ ws2 ++ inch ++ rest ->
  ft <> EmptyString -> str_forall is_digit ft = true ->
  str_forall is_space ws1 = true ->
  str_forall is_space ws2 = true ->
  inch <> EmptyString -> str_forall is_digit inch = true ->
  starts_with is_digit rest = false ->
  _convert_to_meters val
  = Ok (FFin (inject_Z (digits_val 0 ft) * 0.3048
              + inject_Z (digits_val 0 inch) * 0.0254)%Q).
Proof.
  intros Hs Hft Hftd Hws1 Hws2 Hin Hind Hrest.
  unfold _convert_to_meters. cbv zeta. rewrite Hs.
  assert (Hi : starts_with is_digit inch = true).
  { destruct inch as [|d inch]; [congruence |]. simpl in *.
    apply andb_true_iff in Hind as [Hd _]. exact Hd. }
  unfold match_feet_inches.
  rewrite (span_app is_digit ft _ Hftd).
  2:{ rewrite starts_with_app. destruct ws1 as [|c ws1]; simpl; [reflexivity |].
      simpl in Hws1. apply andb_true_iff in Hws1 as [Hc _]. char_arith. }
  destruct ft as [|c0 ft]; [congruence |]. cbn [is_empty].
  rewrite (span_app is_space ws1 _ Hws1) by reflexivity.
  cbn [snd]. rewrite sapp_cons, sapp_nil.
  change (is_char 39 "'") with true. cbv iota.
  rewrite (span_app is_space ws2 _ Hws2).
  2:{ rewrite starts_with_app. destruct inch as [|d inch]; [congruence |].
      simpl in *. char_arith. }
  cbn [snd]. rewrite (span_app is_digit inch rest Hind Hrest).
  destruct inch; [congruence | reflexivity].
Qed.

Lemma convert_feet_inches_witness :
  _convert_to_meters " 16 ' 3 and a bit"
  = Ok (FFin (inject_Z 16 * 0.3048 + inject_Z 3 * 0.0254)%Q).
Proof.
  apply (convert_feet_inches " 16 ' 3 and a bit" "16" " " " " "3" " and a bit");
    try reflexivity; discriminate.
Defined.

(** ** The classifier table *)

Lemma rule_matches_step (this other : Direction.t) (pos : NbrPosition.t)
    (r : rule) (rest : list rule) :
  rule_wf r ->
  get_conflict_type this other pos (r :: rest)
  = if rule_matches this other pos r then JuncConflict_of_name (conflict r)
    else get_conflict_type this other pos rest.
Proof.
  intros (Ha & Hb & Hp & _). unfold rule_matches. cbn [get_conflict_type].
  destruct (Direction_of_name (this_move r)) as [a|]; [| contradiction].
  destruct (Direction_of_name (other_move r)) as [b|]; [| contradiction].
  destruct (NbrPosition_of_name (nbr_pos r)) as [p|]; [| contradiction].
  cbn [bind].
  destruct (Direction.eqb a this), (Direction.eqb b other),
    (NbrPosition.eqb p pos); reflexivity.
Qed.

(** X4 -- the first row that matches decides: the rows before it are
    passed over, and the rows after it are never looked at, so they may
    hold any names. *)
Theorem get_conflict_type_first_match (this other : Direction.t)
    (pos : NbrPosition.t) (before after : list rule) (r : rule) :
  Forall rule_wf before ->
  Forall (fun x => rule_matches this other pos x = false) before ->
  rule_matches this other pos r = true ->
  get_conflict_type this other pos (before ++ r :: after)%list
  = JuncConflict_of_name (conflict r).
Proof.
  intros Hwf Hno Hr. induction before as [|x before IH].
  - cbn [app get_conflict_type]. unfold rule_matches in Hr.
    destruct (Direction_of_name (this_move r)) as [a|]; [| discriminate Hr].
    destruct (Direction_of_name (other_move r)) as [b|]; [| discriminate Hr].
    destruct (NbrPosition_of_name (nbr_pos r)) as [p|]; [| discriminate Hr].
    cbn [bind].
    destruct (Direction.eqb a this), (Direction.eqb b other),
      (NbrPosition.eqb p pos); try discriminate Hr. reflexivity.
  - inversion Hwf as [|? ? Hx Hwf']; subst.
    inversion Hno as [|? ? Hnx Hno']; subst.
    change ((x :: before) ++ r :: after)%list
      with (x :: (before ++ r :: after))%list.
    rewrite rule_matches_step by exact Hx. rewrite Hnx. auto.
Qed.

Lemma get_conflict_type_first_match_witness :
  get_conflict_type Direction.THRU Direction.TURN NbrPosition.NEAR
    ([mk_rule "THRU" "THRU" "NEAR" "INTERSECT"]
     ++ mk_rule "THRU" "TURN" "NEAR" "MERGE"
     :: [mk_rule "THRU" "TURN" "NEAR" "INTERSECT";
         mk_rule "sideways" "TURN" "NEAR" "unheard of"])%list
  = Ok JuncConflict.MERGE.
Proof.
  apply (get_conflict_type_first_match Direction.THRU Direction.TURN
           NbrPosition.NEAR [mk_rule "THRU" "THRU" "NEAR" "INTERSECT"]).
  - repeat constructor.
  - repeat constructor.
  - reflexivity.
Defined.

(** A table none of whose rows matches gives [NO_CONFLICT]. *)
Lemma get_conflict_type_no_match (this other : Direction.t)
    (pos : NbrPosition.t) (table : list rule) :
  Forall rule_wf table ->
  Forall (fun x => rule_matches this other pos x = false) table ->
  get_conflict_type this other pos table = Ok JuncConflict.NO_CONFLICT.
Proof.
  intros Hwf Hno. induction table as [|x table IH]; [reflexivity |].
  inversion Hwf as [|? ? Hx Hwf']; subst.
  inversion Hno as [|? ? Hnx Hno']; subst.
  rewrite rule_matches_step by exact Hx. rewrite Hnx. auto.
Qed.

Lemma get_conflict_type_no_match_example :
  get_conflict_type Direction.CROSS Direction.CROSS NbrPosition.OPP
    [mk_rule "THRU" "THRU" "NEAR" "INTERSECT";
     mk_rule "CROSS" "CROSS" "FAR" "INTERSECT"]
  = Ok JuncConflict.NO_CONFLICT.
Proof.
  apply get_conflict_type_no_match; repeat constructor.
Defined.

(** X6 -- the default table is complete and unambiguous: every triple of
    two movements and a position has exactly one row, and the lookup
    returns the conflict of that row. *)
Theorem default_classifier_complete (this other : Direction.t)
    (pos : NbrPosition.t) :
  exists r,
    List.filter (rule_matches this other pos) default_conflict_classifier = [r]
    /\ get_conflict_type this other pos default_conflict_classifier
       = JuncConflict_of_name (conflict r).
Proof.
  destruct this, other, pos; eexists; split; vm_compute; reflexivity.
Qed.

(** X7 -- the default table does not depend on which of the two vehicles
    is called this one: exchanging the movements and taking the position
    as seen from the other leg gives the same conflict. *)
Theorem default_classifier_symmetric (this other : Direction.t)
    (pos : NbrPosition.t) :
  get_conflict_type other this (mirror pos) default_conflict_classifier
  = get_conflict_type this other pos default_conflict_classifier.
Proof.
  destruct this, other, pos; vm_compute; reflexivity.
Qed.

(** ** The relative position of two legs *)

Section PositionFacts.

Context {L : Type} `{LineOps L}.

Open Scope R_scope.

Lemma degrees_acos_bounds (x : R) :
  0 <= degrees (acos x) <= 180.
Proof.
  pose proof (acos_bound x) as [Hlo Hhi]. pose proof PI_RGT_0 as Hpi.
  unfold degrees. split.
  - apply Rmult_le_pos; [exact Hlo |].
    apply Rlt_le, Rdiv_lt_0_compat; lra.
  - replace 180 with (PI * (180 / PI)) at 2 by (field; lra).
    apply Rmult_le_compat_r; [| exact Hhi].
    apply Rlt_le, Rdiv_lt_0_compat; lra.
Qed.

(** X8 -- with a threshold of zero or less no pair of legs is opposite
    or near: every position is [FAR]. *)
Theorem get_position_threshold_nonpositive (G : MultiDiGraph) (node_id : Z)
    (p : point) (leg1 leg2 : leg L) (angle_threshold : R)
    (right_lane_drive : bool) :
  g_nodes G !! node_id = Some p ->
  angle_threshold <= 0 ->
  get_position G node_id leg1 leg2 angle_threshold right_lane_drive
  = Ok NbrPosition.FAR.
Proof.
  intros Hp Hthr. unfold get_position, node_xy. rewrite Hp. cbn [bind].
  destruct (Req_dec_T (norm (get_dir_vector p leg1)) 0) as [|H1];
    [reflexivity |].
  destruct (Req_dec_T (norm (get_dir_vector p leg2)) 0) as [|H2];
    [reflexivity |].
  unfold py_div. destruct (Req_dec_T _ 0) as [E|_].
  { apply Rmult_integral in E. tauto. }
  cbn [bind].
  match goal with
  | |- context [degrees (acos ?x)] =>
      pose proof (degrees_acos_bounds x) as [Hlo Hhi];
      set (angle := degrees (acos x)) in *
  end.
  destruct (Rgt_dec angle (180 - angle_threshold)) as [Hgt|_]; [lra |].
  destruct (Rlt_dec (Rabs (angle - 90)) angle_threshold) as [Hlt|_];
    [| reflexivity].
  pose proof (Rabs_pos (angle - 90)). lra.
Qed.

(** X9 -- the two orders of a pair of legs: opposite in one order is
    opposite in the other, and a leg that is near in one order is far in
    the other. *)
Theorem get_position_swap (G : MultiDiGraph) (node_id : Z) (p : point)
    (leg1 leg2 : leg L) (angle_threshold : R) (right_lane_drive : bool) :
  g_nodes G !! node_id = Some p ->
  exists pos12 pos21,
    get_position G node_id leg1 leg2 angle_threshold right_lane_drive
    = Ok pos12
    /\ get_position G node_id leg2 leg1 angle_threshold right_lane_drive
       = Ok pos21
    /\ (pos12 = NbrPosition.OPP <-> pos21 = NbrPosition.OPP)
    /\ (pos12 = NbrPosition.NEAR -> pos21 = NbrPosition.FAR).
Proof.
  intros Hp. unfold get_position, node_xy. rewrite Hp. cbn [bind].
  set (v1 := get_dir_vector p leg1). set (v2 := get_dir_vector p leg2).
  destruct (Req_dec_T (norm v1) 0) as [|H1];
    destruct (Req_dec_T (norm v2) 0) as [|H2];
    try (do 2 eexists; repeat split; intros; congruence).
  unfold py_div.
  destruct (Req_dec_T (norm v1 * norm v2) 0) as [E|_].
  { apply Rmult_integral in E. tauto. }
  destruct (Req_dec_T (norm v2 * norm v1) 0) as [E|_].
  { apply Rmult_integral in E. tauto. }
  cbn [bind].
  replace (fst v2 * fst v1 + snd v2 * snd v1)
    with (fst v1 * fst v2 + snd v1 * snd v2) by ring.
  replace (norm v2 * norm v1) with (norm v1 * norm v2) by ring.
  set (angle := degrees (acos _)).
  replace (fst v2 * snd v1 - snd v2 * fst v1)
    with (- (fst v1 * snd v2 - snd v1 * fst v2)) by ring.
  set (cross := fst v1 * snd v2 - snd v1 * fst v2).
  destruct (Rgt_dec angle (180 - angle_threshold));
    [do 2 eexists; repeat split; intros; congruence |].
  destruct (Rlt_dec (Rabs (angle - 90)) angle_threshold);
    [| do 2 eexists; repeat split; intros; congruence].
  destruct right_lane_drive.
  - destruct (Rlt_dec cross 0), (Rlt_dec (- cross) 0); try lra;
      do 2 eexists; repeat split; intros; congruence.
  - destruct (Rgt_dec cross 0), (Rgt_dec (- cross) 0); try lra;
      do 2 eexists; repeat split; intros; congruence.
Qed.

(** X10 -- the two driving sides: whether two legs are opposite does not
    depend on the side, and a leg that is near on one side is far on the
    other. *)
Theorem get_position_driving_side (G : MultiDiGraph) (node_id : Z)
    (p : point) (leg1 leg2 : leg L) (angle_threshold : R) :
  g_nodes G !! node_id = Some p ->
  exists pos_right pos_left,
    get_position G node_id leg1 leg2 angle_threshold true = Ok pos_right
    /\ get_position G node_id leg1 leg2 angle_threshold false = Ok pos_left
    /\ (pos_right = NbrPosition.OPP <-> pos_left = NbrPosition.OPP)
    /\ (pos_right = NbrPosition.NEAR -> pos_left = NbrPosition.FAR)
    /\ (pos_left = NbrPosition.NEAR -> pos_right = NbrPosition.FAR).
Proof.
  intros Hp. unfold get_position, node_xy. rewrite Hp. cbn [bind].
  set (v1 := get_dir_vector p leg1). set (v2 := get_dir_vector p leg2).
  destruct (Req_dec_T (norm v1) 0) as [|H1];
    destruct (Req_dec_T (norm v2) 0) as [|H2];
    try (do 2 eexists; repeat split; intros; congruence).
  unfold py_div.
  destruct (Req_dec_T (norm v1 * norm v2) 0) as [E|_].
  { apply Rmult_integral in E. tauto. }
  cbn [bind].
  set (angle := degrees (acos _)).
  set (cross := fst v1 * snd v2 - snd v1 * fst v2).
  destruct (Rgt_dec angle (180 - angle_threshold));
    [do 2 eexists; repeat split; intros; congruence |].
  destruct (Rlt_dec (Rabs (angle - 90)) angle_threshold);
    [| do 2 eexists; repeat split; intros; congruence].
  destruct (Rlt_dec cross 0), (Rgt_dec cross 0); try lra;
    do 2 eexists; repeat split; intros; congruence.
Qed.

Close Scope R_scope.

End PositionFacts.

Lemma get_position_threshold_nonpositive_witness :
  @get_position point ray_line_ops fork_graph 0 east_leg north_leg 0%R true
  = Ok NbrPosition.FAR.
Proof.
  apply (@get_position_threshold_nonpositive point ray_line_ops fork_graph 0
           (0, 0)%R east_leg north_leg 0%R true).
  - reflexivity.
  - lra.
Defined.

Lemma get_position_swap_witness :
  exists pos12 pos21,
    @get_position point ray_line_ops fork_graph 0 east_leg north_leg 30%R true
    = Ok pos12
    /\ @get_position point ray_line_ops fork_graph 0 north_leg east_leg 30%R
         true = Ok pos21
    /\ (pos12 = NbrPosition.OPP <-> pos21 = NbrPosition.OPP)
    /\ (pos12 = NbrPosition.NEAR -> pos21 = NbrPosition.FAR).
Proof.
  apply (@get_position_swap point ray_line_ops fork_graph 0 (0, 0)%R
           east_leg north_leg 30%R true).
  reflexivity.
Defined.

Lemma get_position_driving_side_witness :
  exists pos_right pos_left,
    @get_position point ray_line_ops fork_graph 0 east_leg north_leg 30%R true
    = Ok pos_right
    /\ @get_position point ray_line_ops fork_graph 0 east_leg north_leg 30%R
         false = Ok pos_left
    /\ (pos_right = NbrPosition.OPP <-> pos_left = NbrPosition.OPP)
    /\ (pos_right = NbrPosition.NEAR -> pos_left = NbrPosition.FAR)
    /\ (pos_left = NbrPosition.NEAR -> pos_right = NbrPosition.FAR).
Proof.
  apply (@get_position_driving_side point ray_line_ops fork_graph 0 (0, 0)%R
           east_leg north_leg 30%R).
  reflexivity.
Defined.

Lemma ray_dir_vector (l : leg point) :
  @get_dir_vector point ray_line_ops (0, 0)%R l
  = (fst (geom l) / 1000, snd (geom l) / 1000)%R.
Proof.
  unfold get_dir_vector. cbn [project interpolate line_length ray_line_ops].
  assert (E : Rmin (1 * (1 / 100)) (1 / 1000) = (1 / 1000)%R).
  { apply Rmin_right. lra. }
  rewrite E. destruct (Rle_dec _ _) as [_|Hn]; [| exfalso; apply Hn; lra].
  cbn [fst snd]. f_equal; field.
Qed.

(** Two legs at a right angle, right-hand traffic, threshold 30: the leg
    to the north is far from the leg to the east, which is near to it. *)
Lemma perpendicular_legs_positions :
  @get_position point ray_line_ops fork_graph 0 east_leg north_leg 30%R true
  = Ok NbrPosition.FAR
  /\ @get_position point ray_line_ops fork_graph 0 north_leg east_leg 30%R
       true = Ok NbrPosition.NEAR.
Proof.
  assert (Hn1 : norm (1 / 1000, 0 / 1000)%R = (1 / 1000)%R).
  { unfold norm. cbn [fst snd].
    replace (1 / 1000 * (1 / 1000) + 0 / 1000 * (0 / 1000))%R
      with ((1 / 1000) * (1 / 1000))%R by field.
    apply sqrt_square. lra. }
  assert (Hn2 : norm (0 / 1000, 1 / 1000)%R = (1 / 1000)%R).
  { unfold norm. cbn [fst snd].
    replace (0 / 1000 * (0 / 1000) + 1 / 1000 * (1 / 1000))%R
      with ((1 / 1000) * (1 / 1000))%R by field.
    apply sqrt_square. lra. }
  assert (Hang : (degrees (acos (Rmax (-1) (Rmin 1 0))) = 90)%R).
  { rewrite Rmin_right by lra. rewrite Rmax_right by lra.
    rewrite acos_0. unfold degrees. field. apply PI_neq0. }
  split.
  - unfold get_position, node_xy.
    replace (g_nodes fork_graph !! 0%Z) with (Some (0, 0)%R) by reflexivity.
    cbn [bind]. rewrite !ray_dir_vector. cbn [geom east_leg north_leg fst snd].
    rewrite Hn1, Hn2.
    destruct (Req_dec_T (1 / 1000) 0) as [E|_]; [lra |].
    unfold py_div. destruct (Req_dec_T _ 0) as [E|_]; [lra |]. cbn [bind].
    replace ((1 / 1000 * (0 / 1000) + 0 / 1000 * (1 / 1000))
             / (1 / 1000 * (1 / 1000)))%R with 0%R by field.
    rewrite Hang.
    destruct (Rgt_dec 90 (180 - 30)) as [E|_]; [lra |].
    destruct (Rlt_dec (Rabs (90 - 90)) 30) as [_|Hn].
    2:{ exfalso. apply Hn. replace (90 - 90)%R with 0%R by ring.
        rewrite Rabs_R0. lra. }
    destruct (Rlt_dec _ 0) as [E|_]; [lra | reflexivity].
  - unfold get_position, node_xy.
    replace (g_nodes fork_graph !! 0%Z) with (Some (0, 0)%R) by reflexivity.
    cbn [bind]. rewrite !ray_dir_vector. cbn [geom east_leg north_leg fst snd].
    rewrite Hn1, Hn2.
    destruct (Req_dec_T (1 / 1000) 0) as [E|_]; [lra |].
    unfold py_div. destruct (Req_dec_T _ 0) as [E|_]; [lra |]. cbn [bind].
    replace ((0 / 1000 * (1 / 1000) + 1 / 1000 * (0 / 1000))
             / (1 / 1000 * (1 / 1000)))%R with 0%R by field.
    rewrite Hang.
    destruct (Rgt_dec 90 (180 - 30)) as [E|_]; [lra |].
    destruct (Rlt_dec (Rabs (90 - 90)) 30) as [_|Hn].
    2:{ exfalso. apply Hn. replace (90 - 90)%R with 0%R by ring.
        rewrite Rabs_R0. lra. }
    destruct (Rlt_dec _ 0) as [_|Hn]; [reflexivity |].
    exfalso. apply Hn. lra.
Qed.

(** ** ODD compliance of one junction *)

Lemma counter_of_names_ok (items : list (string * Z)) :
  Forall (fun item => is_ok (JuncConflict_of_name (fst item))) items ->
  exists ctr,
    counter_of_names items = Ok ctr /\ map snd ctr = map snd items.
Proof.
  induction 1 as [|item items Hi _ IH].
  - exists []. auto.
  - destruct IH as (ctr & Hctr & Hsnd). unfold counter_of_names in *.
    cbn [mapM]. destruct (JuncConflict_of_name (fst item)) as [c|];
      [| contradiction].
    cbn [bind]. rewrite Hctr. cbn [bind].
    exists ((c, snd item) :: ctr). split; [reflexivity |].
    cbn [map snd]. rewrite Hsnd. reflexivity.
Qed.

Lemma counter_of_names_unknown (items : list (string * Z)) :
  Exists (fun item => ~ is_ok (JuncConflict_of_name (fst item))) items ->
  counter_of_names items = Raise KeyError.
Proof.
  assert (Hk : forall s, ~ is_ok (JuncConflict_of_name s) ->
                 JuncConflict_of_name s = Raise KeyError).
  { intros s Hs. unfold JuncConflict_of_name in *.
    repeat (match goal with
            | |- context [if ?c then _ else _] => destruct c
            | H : context [if ?c then _ else _] |- _ => destruct c
            end; try (exfalso; apply Hs; exact I)).
    reflexivity. }
  induction items as [|item items IH]; intros Hex.
  - inversion Hex.
  - unfold counter_of_names in *. cbn [mapM].
    destruct (JuncConflict_of_name (fst item)) as [c|e] eqn:Ec.
    + cbn [bind]. rewrite IH; [reflexivity |].
      inversion Hex as [? ? Hbad|? ? Hbad]; subst; [| exact Hbad].
      exfalso. apply Hbad. rewrite Ec. exact I.
    + cbn [bind]. pose proof (Hk (fst item)) as He. rewrite Ec in He.
      assert (Hr : Raise (A := JuncConflict.t) e = Raise KeyError).
      { apply He. intros []. }
      injection Hr as ->. reflexivity.
Qed.



Lemma counter_names_items (m : gmap string Z) :
  counter_names_known m ->
  Forall (fun item => is_ok (JuncConflict_of_name (fst item))) (map_to_list m).
Proof.
  intros Hk. apply List.Forall_forall. intros [name n] Hin.
  apply (Hk name n). apply elem_of_map_to_list, list_elem_of_In. exact Hin.
Qed.



(** X12 -- the counter is rebuilt before anything is checked: a name in
    it that is no member of [JuncConflict] raises [KeyError], also under
    an ODD that restricts nothing. *)
Theorem junction_unknown_conflict_name (odd : pydict)
    (metadata : junction_metadata) (name : string) (n : Z) :
  conflict_counter_str metadata !! name = Some n ->
  ~ is_ok (JuncConflict_of_name name) ->
  check_single_junction_odd_incompliance odd metadata = Raise KeyError.
Proof.
  intros Hm Hbad. unfold check_single_junction_odd_incompliance.
  rewrite counter_of_names_unknown; [reflexivity |].
  apply List.Exists_exists. exists (name, n). split; [| exact Hbad].
  apply list_elem_of_In, elem_of_map_to_list. exact Hm.
Qed.

Lemma junction_unknown_conflict_name_witness :
  check_single_junction_odd_incompliance ∅ stale_junction = Raise KeyError.
Proof.
  apply (junction_unknown_conflict_name ∅ stale_junction "CROSSING" 1%Z).
  - reflexivity.
  - intros [].
Defined.

(** X13 -- 'ALL' anywhere in a list lifts its restriction, and a missing
    key stands for ['ALL']: with both lifted, every junction whose counter
    can be read is compliant. *)
Theorem junction_all_lifts_restrictions (odd : pydict)
    (metadata : junction_metadata) :
  py_contains ALL (get_or odd "junction_type" (PList [AStr "ALL"])) = Ok true ->
  py_contains ALL (get_or odd "junction_conflict" (PList [AStr "ALL"]))
  = Ok true ->
  counter_names_known (conflict_counter_str metadata) ->
  check_single_junction_odd_incompliance odd metadata = Ok false.
Proof.
  intros Ht Hc Hk. unfold check_single_junction_odd_incompliance.
  destruct (counter_of_names_ok _ (counter_names_items _ Hk)) as (ctr & -> & _).
  cbn [bind]. rewrite Ht. cbn [bind]. rewrite Hc. reflexivity.
Qed.

Lemma junction_all_lifts_restrictions_witness :
  check_single_junction_odd_incompliance
    {[ "junction_type" := PList [AStr "ROUNDABOUT"; AStr "ALL"] ]}
    merging_t_junction = Ok false.
Proof.
  apply junction_all_lifts_restrictions.
  - reflexivity.
  - reflexivity.
  - intros name n Hm. cbn [conflict_counter_str merging_t_junction] in Hm.
    apply lookup_singleton_Some in Hm as [<- _]. exact I.
Defined.

(** X14 -- under a list of junction types without 'ALL', a junction is
    incompliant as soon as it has no type or its type is not listed; its
    conflicts are not looked at. *)
Theorem junction_type_not_listed (odd : pydict) (metadata : junction_metadata)
    (types : list atom) :
  odd !! "junction_type" = Some (PList types) ->
  py_in ALL types = false ->
  py_in (junc_type metadata) types = false
  \/ junc_type metadata = PAtom ANone ->
  counter_names_known (conflict_counter_str metadata) ->
  check_single_junction_odd_incompliance odd metadata = Ok true.
Proof.
  intros Ht Hnall Hjt Hk. unfold check_single_junction_odd_incompliance, get_or.
  rewrite Ht. cbn [default from_option Datatypes.id].
  destruct (counter_of_names_ok _ (counter_names_items _ Hk)) as (ctr & -> & _).
  cbn [bind py_contains]. rewrite Hnall. cbn [bind].
  destruct Hjt as [Hjt| ->]; [| reflexivity].
  destruct (is_none (junc_type metadata)); [reflexivity |].
  cbn [bind]. rewrite Hjt. reflexivity.
Qed.

Lemma junction_type_not_listed_witness :
  check_single_junction_odd_incompliance
    {[ "junction_type" := PList [AStr "ROUNDABOUT"; AStr "CROSSROAD"] ]}
    merging_t_junction = Ok true
  /\ check_single_junction_odd_incompliance
       {[ "junction_type" := PList [AStr "ROUNDABOUT"; AStr "CROSSROAD"] ]}
       untyped_junction = Ok true.
Proof.
  split.
  - apply (junction_type_not_listed _ merging_t_junction
             [AStr "ROUNDABOUT"; AStr "CROSSROAD"]).
    + reflexivity.
    + reflexivity.
    + left. reflexivity.
    + intros name n Hm. cbn [conflict_counter_str merging_t_junction] in Hm.
      apply lookup_singleton_Some in Hm as [<- _]. exact I.
  - apply (junction_type_not_listed _ untyped_junction
             [AStr "ROUNDABOUT"; AStr "CROSSROAD"]).
    + reflexivity.
    + reflexivity.
    + right. reflexivity.
    + intros name n Hm. cbn [conflict_counter_str untyped_junction] in Hm.
      rewrite lookup_empty in Hm. discriminate Hm.
Defined.

(** ** ODD compliance of an edge, continued *)

Lemma get_min_numeric_delete_ne (d : pydict) (k k' : string) (dflt : pyval) :
  k <> k' -> get_min_numeric (delete k d) k' dflt = get_min_numeric d k' dflt.
Proof.
  intros Hne. unfold get_min_numeric. rewrite get_or_delete_ne by exact Hne.
  reflexivity.
Qed.

Lemma get_or_delete_eq (d : pydict) (k : string) (dflt : pyval) :
  get_or (delete k d) k dflt = dflt.
Proof. unfold get_or. rewrite lookup_delete_eq. reflexivity. Qed.

Lemma get_or_absent (d : pydict) (k : string) (dflt : pyval) :
  d !! k = None -> get_or d k dflt = dflt.
Proof. intros Hk. unfold get_or. rewrite Hk. reflexivity. Qed.

Lemma rule_passes_ALL (value : pyval) : rule_passes value ALL = true.
Proof. reflexivity. Qed.

Lemma get_min_numeric_no_threshold (d : pydict) (k : string) :
  d !! k = None -> get_min_numeric d k (PAtom ANone) = None.
Proof. intros Hk. unfold get_min_numeric. rewrite get_or_absent by exact Hk. reflexivity. Qed.

(** X15 -- under an ODD that holds no highway types, lane markings, speed
    limit or lane width, the check is the flags check that
    [reproduce_boolean_bug.py] copies. *)
Theorem edge_check_flags_only (odd metadata : pydict) :
  odd !! "highway_type" = None ->
  odd !! "lane_markings" = None ->
  odd !! "speed_limit" = None ->
  odd !! "lane_width" = None ->
  check_single_edge_odd_compliance odd metadata
  = check_single_edge_odd_compliance_simulated odd metadata.
Proof.
  intros Hh Hm Hs Hw.
  unfold check_single_edge_odd_compliance,
    check_single_edge_odd_compliance_simulated.
  rewrite (get_or_absent odd "highway_type" ALL Hh),
    (get_or_absent odd "lane_markings" ALL Hm), !rule_passes_ALL.
  rewrite (get_min_numeric_no_threshold odd _ Hs),
    (get_min_numeric_no_threshold odd _ Hw).
  cbn [negb]. cbv zeta.
  destruct (get_min_numeric metadata "speed_limit" _),
    (get_min_numeric metadata "lane_width" _); reflexivity.
Qed.

Lemma edge_check_flags_only_witness :
  check_single_edge_odd_compliance odd_oneway_text_false two_way_edge
  = check_single_edge_odd_compliance_simulated odd_oneway_text_false
      two_way_edge.
Proof.
  apply edge_check_flags_only; reflexivity.
Defined.

(** X16 -- a flag is read by its truth value: any value that is true in
    that sense, such as the text 'False' or a list that starts with it,
    switches the filter off, as leaving the flag out does. *)
Theorem truthy_flag_is_no_flag (odd metadata : pydict) (key : string)
    (v : pyval) :
  key = "oneway" \/ key = "is_major_road" ->
  truthy (unwrap_flag v) = true ->
  check_single_edge_odd_compliance (<[key := v]> odd) metadata
  = check_single_edge_odd_compliance (delete key odd) metadata.
Proof.
  intros [-> | ->] Hv; unfold check_single_edge_odd_compliance;
    rewrite ?get_or_insert_eq, ?get_or_delete_eq;
    rewrite !get_or_insert_ne, !get_or_delete_ne by discriminate;
    rewrite !get_min_numeric_insert_ne, !get_min_numeric_delete_ne
      by discriminate;
    rewrite Hv; reflexivity.
Qed.

Lemma truthy_flag_is_no_flag_witness :
  check_single_edge_odd_compliance
    (<["oneway" := PList [AStr "False"]]> ∅) two_way_edge
  = check_single_edge_odd_compliance (delete "oneway" ∅) two_way_edge.
Proof.
  apply truthy_flag_is_no_flag.
  - left. reflexivity.
  - reflexivity.
Defined.

Lemma list_in_no_scalars (l : list atom) (allowed : list atom) :
  py_in (PList l) allowed = false.
Proof. induction allowed as [|a allowed IH]; [reflexivity | exact IH]. Qed.

(** X17 -- the lane markings of an edge are compared as one value: when
    the edge stores them as a list, as the road-feature documents do, no
    list of allowed markings holds that list, and every ODD that
    restricts lane markings without 'ALL' rejects the edge. *)
Theorem lane_markings_list_rejected (odd metadata : pydict)
    (markings allowed : list atom) :
  metadata !! "lane_markings_forward" = Some (PList markings) ->
  odd !! "lane_markings" = Some (PList allowed) ->
  allowed <> [] ->
  py_in ALL allowed = false ->
  check_single_edge_odd_compliance odd metadata = false.
Proof.
  intros Hm Ho Hne Hall. unfold check_single_edge_odd_compliance.
  destruct (negb (rule_passes (get metadata "highway_type") _));
    [reflexivity |].
  assert (Hr : rule_passes (get metadata "lane_markings_forward")
                 (get_or odd "lane_markings" ALL) = false).
  { unfold get, get_or. rewrite Hm, Ho. cbn [default from_option Datatypes.id].
    destruct allowed as [|x allowed]; [congruence |].
    unfold rule_passes. rewrite Hall, list_in_no_scalars. reflexivity. }
  rewrite Hr. reflexivity.
Qed.

Lemma lane_markings_list_rejected_witness :
  check_single_edge_odd_compliance odd_markings marked_edge = false.
Proof.
  apply (lane_markings_list_rejected odd_markings marked_edge
           [AStr "left"; AStr "through"] [AStr "left"; AStr "through"]).
  - reflexivity.
  - reflexivity.
  - discriminate.
  - reflexivity.
Defined.

Lemma Q_ltb_false (a b : Q) : Q_ltb a b = false <-> (b <= a)%Q.
Proof.
  unfold Q_ltb. rewrite negb_false_iff. apply Qle_bool_iff.
Qed.

Lemma flt_gt_ceiling_mono (m : pyfloat) (c c' : Q) :
  (c <= c')%Q -> flt_gt m (FFin c) = false -> flt_gt m (FFin c') = false.
Proof.
  intros Hc. unfold flt_gt, flt_lt. destruct m as [x|neg|]; auto.
  rewrite !Q_ltb_false. intros Hx. eapply Qle_trans; eassumption.
Qed.

(** The minimum of a list that holds a finite value at or below [c] is
    not above [c]. *)
Lemma py_min_below (c x : Q) (rest : list pyfloat) (first : pyfloat) :
  (x <= c)%Q ->
  flt_gt first (FFin c) = false \/ In (FFin x) rest ->
  flt_gt (py_min first rest) (FFin c) = false.
Proof.
  intros Hx. unfold py_min. revert first.
  induction rest as [|y rest IH]; intros first Hin.
  - destruct Hin as [Hf|[]]. exact Hf.
  - cbn [fold_left]. apply IH.
    destruct Hin as [Hf|[->|Hin]]; [| | right; exact Hin]; left.
    + destruct (flt_lt y first) eqn:Hlt; [| exact Hf].
      unfold flt_gt, flt_lt in *.
      destruct y as [y|ny|], first as [f|nf|]; try discriminate Hlt; auto.
      * apply Q_ltb_false. apply Q_ltb_false in Hf.
        unfold Q_ltb in Hlt. apply negb_true_iff in Hlt.
        destruct (Qle_bool f y) eqn:Hfy; [discriminate Hlt |].
        apply Qnot_lt_le. intros Hcy.
        assert (Hle : (f <= y)%Q).
        { eapply Qle_trans; [exact Hf |]. apply Qlt_le_weak. exact Hcy. }
        apply Qle_bool_iff in Hle. congruence.
      * destruct nf; [discriminate Hlt | discriminate Hf].
      * destruct ny; [reflexivity | discriminate Hlt].
      * destruct ny, nf; try discriminate Hlt; reflexivity.
    + destruct (flt_lt (FFin x) first) eqn:Hlt.
      * unfold flt_gt, flt_lt. apply Q_ltb_false. exact Hx.
      * unfold flt_gt, flt_lt in *. destruct first as [f|nf|]; auto.
        apply Q_ltb_false. apply Q_ltb_false in Hlt.
        eapply Qle_trans; eassumption.
Qed.

Lemma omap_to_float_in (a : atom) (f : pyfloat) (l : list atom) :
  In a l -> to_float a = Some f -> In f (omap to_float l).
Proof.
  intros Hin Hf. apply list_elem_of_In, list_elem_of_omap.
  exists a. split; [apply list_elem_of_In; exact Hin | exact Hf].
Qed.

(** X18 -- an edge with several speed limits is judged by the lowest:
    as soon as one of them is at or below the ceiling of the ODD, the
    ceiling rejects nothing. *)
Theorem lowest_speed_limit_decides (odd metadata : pydict) (l : list atom)
    (a : atom) (x c : Q) :
  metadata !! "speed_limit" = Some (PList l) ->
  In a l ->
  to_float a = Some (FFin x) ->
  get_min_numeric odd "speed_limit" (PAtom ANone) = Some (FFin c) ->
  (x <= c)%Q ->
  check_single_edge_odd_compliance odd metadata
  = check_single_edge_odd_compliance (delete "speed_limit" odd) metadata.
Proof.
  intros Hm Hin Ha Ho Hx. unfold check_single_edge_odd_compliance.
  rewrite !get_or_delete_ne by discriminate.
  rewrite (get_min_numeric_delete_ne odd "speed_limit" "lane_width")
    by discriminate.
  rewrite Ho.
  assert (Hd : get_min_numeric (delete "speed_limit" odd) "speed_limit"
                 (PAtom ANone) = None).
  { unfold get_min_numeric. rewrite get_or_delete_eq. reflexivity. }
  rewrite Hd.
  assert (Hmin : exists m,
             get_min_numeric metadata "speed_limit" (PAtom (AInt 999)) = Some m
             /\ flt_gt m (FFin c) = false).
  { unfold get_min_numeric, get_or. rewrite Hm.
    cbn [default from_option Datatypes.id].
    pose proof (omap_to_float_in a (FFin x) l Hin Ha) as Hf.
    destruct (omap to_float l) as [|first rest]; [destruct Hf |].
    eexists. split; [reflexivity |].
    apply (py_min_below c x); [exact Hx |].
    destruct Hf as [->|Hf]; [left | right; exact Hf].
    unfold flt_gt, flt_lt. apply Q_ltb_false. exact Hx. }
  destruct Hmin as (m & -> & ->). reflexivity.
Qed.

Lemma lowest_speed_limit_decides_witness :
  check_single_edge_odd_compliance odd_speed_50 marked_edge
  = check_single_edge_odd_compliance (delete "speed_limit" odd_speed_50)
      marked_edge.
Proof.
  apply (lowest_speed_limit_decides odd_speed_50 marked_edge
           [AInt 30; AInt 60] (AInt 30) 30 50).
  - reflexivity.
  - left. reflexivity.
  - reflexivity.
  - reflexivity.
  - discriminate.
Defined.

(** X19 -- raising the speed ceiling of an ODD never turns a compliant
    edge into an incompliant one. *)
Theorem raising_speed_ceiling (odd metadata : pydict) (c c' : Q) :
  get_min_numeric odd "speed_limit" (PAtom ANone) = Some (FFin c) ->
  (c <= c')%Q ->
  check_single_edge_odd_compliance odd metadata = true ->
  check_single_edge_odd_compliance
    (<["speed_limit" := PAtom (AFloat (FFin c'))]> odd) metadata = true.
Proof.
  intros Ho Hc. unfold check_single_edge_odd_compliance.
  rewrite !get_or_insert_ne by discriminate.
  rewrite (get_min_numeric_insert_ne odd "speed_limit" "lane_width")
    by discriminate.
  rewrite Ho.
  assert (Hi : get_min_numeric
                 (<["speed_limit" := PAtom (AFloat (FFin c'))]> odd)
                 "speed_limit" (PAtom ANone) = Some (FFin c')).
  { unfold get_min_numeric. rewrite get_or_insert_eq. reflexivity. }
  rewrite Hi.
  destruct (negb (rule_passes _ _)); [discriminate |].
  destruct (negb (rule_passes _ _)); [discriminate |].
  cbv zeta.
  destruct (negb _ && negb _); [discriminate |].
  destruct (negb _ && negb _); [discriminate |].
  destruct (get_min_numeric metadata "speed_limit" _) as [m|]; [| auto].
  destruct (flt_gt m (FFin c)) eqn:Hgt; [discriminate |].
  rewrite (flt_gt_ceiling_mono m c c' Hc Hgt). auto.
Qed.

Lemma raising_speed_ceiling_witness :
  check_single_edge_odd_compliance
    (<["speed_limit" := PAtom (AFloat (FFin 90))]> odd_speed_50) marked_edge
  = true.
Proof.
  apply (raising_speed_ceiling odd_speed_50 marked_edge 50 90).
  - reflexivity.
  - discriminate.
  - reflexivity.
Defined.

(** ** The turns of an edge *)

Lemma LaneTurn_eqb_eq (a b : LaneTurn.t) : LaneTurn.eqb a b = true <-> a = b.
Proof. destruct a, b; cbn; split; intros E; try reflexivity; discriminate E. Qed.

Lemma existsb_LaneTurn (x : LaneTurn.t) (s : list LaneTurn.t) :
  existsb (LaneTurn.eqb x) s = true <-> In x s.
Proof.
  rewrite existsb_exists. split.
  - intros (y & Hin & E). apply LaneTurn_eqb_eq in E. subst. exact Hin.
  - intros Hin. exists x. split; [exact Hin | apply LaneTurn_eqb_eq; reflexivity].
Qed.

Lemma turns_add_spec (x : LaneTurn.t) (s : list LaneTurn.t) :
  NoDup s ->
  NoDup (turns_add x s) /\ forall t, In t (turns_add x s) <-> In t s \/ t = x.
Proof.
  intros Hnd. unfold turns_add.
  destruct (existsb (LaneTurn.eqb x) s) eqn:E.
  - apply existsb_LaneTurn in E. split; [exact Hnd |].
    intros t. split; [auto |]. intros [Ht| ->]; assumption.
  - split.
    + apply NoDup_app. split; [exact Hnd |]. split.
      * intros y Hy [<-|[]]%list_elem_of_In. apply list_elem_of_In in Hy.
        apply existsb_LaneTurn in Hy. congruence.
      * apply NoDup_singleton.
    + intros t. rewrite in_app_iff. cbn [In]. intuition congruence.
Qed.

Lemma add_lane_turns_spec (lane_str : string) (acc : list LaneTurn.t) :
  NoDup acc ->
  NoDup (add_lane_turns lane_str acc)
  /\ forall t, In t (add_lane_turns lane_str acc)
               <-> In t acc
                   \/ exists tok, In tok (py_split 59 lane_str) /\ names_turn tok t.
Proof.
  unfold add_lane_turns. generalize (py_split 59 lane_str) as toks.
  intros toks. revert acc. induction toks as [|tok toks IH]; intros acc Hnd.
  - cbn. split; [exact Hnd |]. intros t. split; [auto |].
    intros [Ht|(tok & [] & _)]. exact Ht.
  - cbn [fold_left].
    set (d := py_upper (py_strip tok)).
    assert (Hnone : is_empty d = true -> LaneTurn.of_name d = None).
    { destruct d; [reflexivity | discriminate]. }
    destruct (LaneTurn.of_name d) as [t0|] eqn:Ed.
    + assert (Hd : is_empty d = false).
      { destruct (is_empty d); [| reflexivity]. discriminate Hnone; reflexivity. }
      rewrite Hd. destruct (turns_add_spec t0 acc Hnd) as [Hnd' Hin'].
      destruct (IH _ Hnd') as [Hnd'' Hin'']. split; [exact Hnd'' |].
      intros t. rewrite Hin'', Hin'. cbn [In]. split.
      * intros [[Ht| ->]|(tok' & Htok & Hn)]; [auto | | eauto].
        right. exists tok. split; [left; reflexivity | exact Ed].
      * intros [Ht|(tok' & [<-|Htok] & Hn)]; [auto | | eauto].
        left. right. unfold names_turn in Hn. fold d in Hn. congruence.
    + assert (Hsame : (if is_empty d then acc else acc) = acc)
        by (destruct (is_empty d); reflexivity).
      rewrite Hsame. destruct (IH _ Hnd) as [Hnd'' Hin'']. split; [exact Hnd'' |].
      intros t. rewrite Hin''. cbn [In]. split.
      * intros [Ht|(tok' & Htok & Hn)]; eauto.
      * intros [Ht|(tok' & [<-|Htok] & Hn)]; [auto | | eauto].
        unfold names_turn in Hn. fold d in Hn. congruence.
Qed.

Lemma lane_turns_spec (lanes : list string) (acc : list LaneTurn.t) :
  NoDup acc ->
  NoDup (fold_left (fun acc lane_str => add_lane_turns lane_str acc) lanes acc)
  /\ forall t,
       In t (fold_left (fun acc lane_str => add_lane_turns lane_str acc)
               lanes acc)
       <-> In t acc
           \/ exists tok, In tok (turn_tokens lanes) /\ names_turn tok t.
Proof.
  revert acc. induction lanes as [|lane lanes IH]; intros acc Hnd.
  - cbn. split; [exact Hnd |]. intros t. split; [auto |].
    intros [Ht|(tok & [] & _)]. exact Ht.
  - cbn [fold_left]. destruct (add_lane_turns_spec lane acc Hnd) as [Hnd' Hin'].
    destruct (IH _ Hnd') as [Hnd'' Hin'']. split; [exact Hnd'' |].
    intros t. rewrite Hin'', Hin'. unfold turn_tokens. cbn [flat_map].
    setoid_rewrite in_app_iff. split.
    + intros [[Ht|(tok & Htok & Hn)]|(tok & Htok & Hn)]; eauto.
    + intros [Ht|(tok & [Htok|Htok] & Hn)]; eauto.
Qed.

(** The turns [_parse_lane_data] returns are those it collected from the
    lanes of the turn tag, [THROUGH] alone when it collected none. *)
Lemma parse_lane_data_turns_eq (data : pydict) (turns : list LaneTurn.t)
    (n : Z) (est : bool) :
  _parse_lane_data data = Ok (turns, n, est) ->
  exists lanes,
    lanes_of_tag (turn_tag data) = Ok lanes
    /\ turns
       = let collected :=
           fold_left (fun acc lane_str => add_lane_turns lane_str acc) lanes []
         in if is_nil collected then [LaneTurn.THROUGH] else collected.
Proof.
  unfold _parse_lane_data.
  destruct (lanes_of_tag (turn_tag data)) as [lanes|e]; [| discriminate].
  cbn [bind]. intros Hr. exists lanes. split; [reflexivity |].
  cbv zeta in *. unfold bind in Hr.
  repeat (match type of Hr with
          | context [match ?x with _ => _ end] => destruct x
          end; try discriminate Hr);
    injection Hr as <- _ _; reflexivity.
Qed.

(** X20 -- the turns of an edge: the set is never empty and holds no
    turn twice; a turn is in it exactly when a token of the turn tag
    names it, in any case and with blanks around it, and when no token
    names a turn the set is [THROUGH] alone. *)
Theorem parse_lane_data_turns (data : pydict) (turns : list LaneTurn.t)
    (n : Z) (est : bool) :
  _parse_lane_data data = Ok (turns, n, est) ->
  exists lanes,
    lanes_of_tag (turn_tag data) = Ok lanes
    /\ turns <> []
    /\ NoDup turns
    /\ forall t,
         In t turns
         <-> (exists tok, In tok (turn_tokens lanes) /\ names_turn tok t)
             \/ (t = LaneTurn.THROUGH
                 /\ forall tok t', In tok (turn_tokens lanes) ->
                                   ~ names_turn tok t').
Proof.
  intros Hr. destruct (parse_lane_data_turns_eq _ _ _ _ Hr) as (lanes & Hl & ->).
  exists lanes. split; [exact Hl |]. cbv zeta.
  destruct (lane_turns_spec lanes [] (NoDup_nil_2 (A := LaneTurn.t))) as [Hnd Hin].
  destruct (fold_left _ lanes []) as [|t0 collected] eqn:Ec; cbn [is_nil].
  - split; [discriminate |]. split; [apply NoDup_singleton |].
    assert (Hnone : forall tok t', In tok (turn_tokens lanes) ->
                      ~ names_turn tok t').
    { intros tok t' Htok Hn. apply (Hin t'). right. eauto. }
    intros t. cbn [In]. split.
    + intros [<-|[]]. right. split; [reflexivity | exact Hnone].
    + intros [(tok & Htok & Hn)|[-> _]]; [| auto].
      exfalso. exact (Hnone tok t Htok Hn).
  - split; [discriminate |]. split; [exact Hnd |].
    intros t. rewrite Hin. cbn [In]. split.
    + intros [[]|Hex]. left. exact Hex.
    + intros [Hex|[_ Hnone]]; [right; exact Hex |].
      exfalso. destruct (proj1 (Hin t0) (or_introl eq_refl))
        as [[]|(tok & Htok & Hn)].
      exact (Hnone tok t0 Htok Hn).
Qed.

Lemma parse_lane_data_turns_witness :
  exists lanes,
    lanes_of_tag (turn_tag mixed_turn_data) = Ok lanes
    /\ [LaneTurn.LEFT; LaneTurn.THROUGH; LaneTurn.RIGHT] <> []
    /\ NoDup [LaneTurn.LEFT; LaneTurn.THROUGH; LaneTurn.RIGHT]
    /\ forall t,
         In t [LaneTurn.LEFT; LaneTurn.THROUGH; LaneTurn.RIGHT]
         <-> (exists tok, In tok (turn_tokens lanes) /\ names_turn tok t)
             \/ (t = LaneTurn.THROUGH
                 /\ forall tok t', In tok (turn_tokens lanes) ->
                                   ~ names_turn tok t').
Proof.
  apply (parse_lane_data_turns mixed_turn_data
           [LaneTurn.LEFT; LaneTurn.THROUGH; LaneTurn.RIGHT] 1%Z true).
  reflexivity.
Defined.

(** ** The width of an edge *)

Lemma bind_ok {A B : Type} (m : result A) (k : A -> result B) (b : B) :
  bind m k = Ok b -> exists a, m = Ok a /\ k a = Ok b.
Proof. destruct m as [a|e]; [eauto | discriminate]. Qed.

Lemma lanes_at_least_one_spec (x : atom) (r : option Z) :
  lanes_at_least_one x = Ok r ->
  match r with
  | Some n => (1 <= n)%Z
  | None => True
  end.
Proof.
  unfold lanes_at_least_one. destruct (py_int x) as [nl|[]]; try discriminate.
  - destruct (Z.leb_spec 1 nl); intros [= <-]; auto.
  - intros [= <-]. exact I.
  - intros [= <-]. exact I.
  - intros [= <-]. exact I.
Qed.

(** X21 -- without a width and an estimated width the result is a whole
    number of default lane widths, at least one, and it is always flagged
    as an estimate. *)
Theorem parse_edge_width_fallback (py_str : pyval -> string) (data : pydict)
    (default_lane_width : Q)
    (w : pyfloat) (est : bool) :
  data !! "width" = None ->
  data !! "est_width" = None ->
  _parse_edge_width py_str data default_lane_width = Ok (w, est) ->
  est = true
  /\ exists num_lanes,
       (1 <= num_lanes)%Z
       /\ w = FFin (default_lane_width * inject_Z num_lanes).
Proof.
  intros Hw He. unfold _parse_edge_width. rewrite Hw, He. cbv zeta.
  intros Hr.
  apply bind_ok in Hr as (n1 & _ & Hr).
  apply bind_ok in Hr as ([n2 pe] & _ & Hr).
  apply bind_ok in Hr as (n3 & _ & Hr).
  injection Hr as <- <-. split; [reflexivity |].
  eexists. split; [| reflexivity].
  destruct n3 as [n|]; [| lia]. destruct (Z.ltb_spec n 1); lia.
Qed.

Lemma parse_edge_width_fallback_witness :
  true = true
  /\ exists num_lanes,
       (1 <= num_lanes)%Z /\ FFin (3.5 * inject_Z 2) = FFin (3.5 * inject_Z num_lanes).
Proof.
  apply (parse_edge_width_fallback str_of_scalar two_lane_data 3.5 (FFin (3.5 * inject_Z 2)) true);
    reflexivity.
Defined.

(** X22 -- a lanes tag that converts to an integer of at least 1 gives
    that many default lane widths; the turn and directional lane tags are
    not read, so nothing they hold can make the call fail. *)
Theorem parse_edge_width_lanes (py_str : pyval -> string) (data : pydict)
    (default_lane_width : Q)
    (a : atom) (n : Z) :
  data !! "width" = None ->
  data !! "est_width" = None ->
  data !! "lanes" = Some (PAtom a) ->
  py_int a = Ok n ->
  (1 <= n)%Z ->
  _parse_edge_width py_str data default_lane_width
  = Ok (FFin (default_lane_width * inject_Z n), true).
Proof.
  intros Hw He Hl Ha Hn. unfold _parse_edge_width, get.
  rewrite Hw, He, Hl. cbn [default from_option Datatypes.id]. cbv zeta.
  assert (Hone : lanes_at_least_one a = Ok (Some n)).
  { unfold lanes_at_least_one. rewrite Ha.
    destruct (Z.leb_spec 1 n); [reflexivity | lia]. }
  destruct a as [| b | z | f | s]; [discriminate Ha | | | |];
    rewrite Hone; cbn [bind];
    destruct (Z.ltb_spec n 1); try lia; reflexivity.
Qed.

Lemma parse_edge_width_lanes_witness :
  _parse_edge_width str_of_scalar
    (<[ "turn:lanes:forward" := PAtom (AInt 3) ]> two_lane_data) 3.5
  = Ok (FFin (3.5 * inject_Z 2), true).
Proof.
  apply (parse_edge_width_lanes str_of_scalar _ 3.5 (AStr "2") 2).
  - reflexivity.
  - reflexivity.
  - reflexivity.
  - reflexivity.
  - lia.
Defined.

(** X23 -- an explicit width decides alone: the lanes, the estimated
    width and the default lane width are not consulted, and the result is
    not flagged as an estimate, also when the width is in a unit the
    conversion maps to 0.0. *)
Theorem parse_edge_width_explicit (py_str : pyval -> string) (data : pydict)
    (v : pyval)
    (default_lane_width other_lane_width : Q) :
  data !! "width" = Some v ->
  _parse_edge_width py_str data default_lane_width
  = _parse_edge_width py_str {[ "width" := v ]} other_lane_width
  /\ forall w est,
       _parse_edge_width py_str data default_lane_width = Ok (w, est) -> est = false.
Proof.
  intros Hw. unfold _parse_edge_width. rewrite Hw, lookup_singleton_eq.
  split; [reflexivity |].
  intros w est Hr. apply bind_ok in Hr as (w' & _ & Hr).
  injection Hr as _ <-. reflexivity.
Qed.

Lemma parse_edge_width_explicit_witness :
  _parse_edge_width str_of_scalar width_in_cm_data 3.5
  = _parse_edge_width str_of_scalar {[ "width" := PAtom (AStr "350 cm") ]} 0
  /\ forall w est,
       _parse_edge_width str_of_scalar width_in_cm_data 3.5 = Ok (w, est) -> est = false.
Proof.
  apply (parse_edge_width_explicit str_of_scalar width_in_cm_data (PAtom (AStr "350 cm"))).
  reflexivity.
Defined.

(** The width of the edge tagged with 350 cm and two lanes is 0.0. *)
Lemma width_in_cm_is_zero :
  _parse_edge_width str_of_scalar width_in_cm_data 3.5 = Ok (FFin 0, false).
Proof. reflexivity. Qed.

(** ** Junction type by tag *)

Lemma first_edge_tag_passes (before after : list pydict) :
  Forall edge_tag_unknown before ->
  first_edge_tag (before ++ after)%list = first_edge_tag after.
Proof.
  induction 1 as [|data before Hd _ IH]; [reflexivity |].
  change ((data :: before) ++ after)%list with (data :: (before ++ after))%list.
  cbn [first_edge_tag]. cbv zeta.
  destruct Hd as [Hf|(s & Hs & Hn)].
  - rewrite Hf. exact IH.
  - rewrite Hs, Hn. destruct (negb (truthy (PAtom (AStr s)))); exact IH.
Qed.

(** X24 -- the tag of an outgoing edge decides the junction type: the
    first outgoing edge whose junction tag names a member of
    [JunctionType] gives the type of the node, whatever the tags of the
    node, its neighbours and the threshold are; the node need not even
    have coordinates. *)
Theorem edge_tag_decides {L : Type} (G : OsmGraph L) (node_id : Z)
    (before after : list (osm_edge L)) (e : osm_edge L) (s : string)
    (jt : JunctionType.t) (junc_ty_angle_threshold : R) :
  og_out_edges G node_id = (before ++ e :: after)%list ->
  Forall (fun x => edge_tag_unknown (e_data x)) before ->
  e_data e !! "junction" = Some (PAtom (AStr s)) ->
  JunctionType_of_name (tag_key s) = Some jt ->
  junction_type_of G node_id junc_ty_angle_threshold = Ok (Some jt).
Proof.
  intros Hout Hbefore Hs Hjt.
  unfold junction_type_of, classify_edge_tag. rewrite Hout.
  rewrite map_app. rewrite first_edge_tag_passes.
  2:{ apply List.Forall_forall. intros d Hd.
      apply in_map_iff in Hd as (x & <- & Hx).
      rewrite List.Forall_forall in Hbefore. apply Hbefore. exact Hx. }
  cbn [map first_edge_tag]. unfold get. rewrite Hs.
  cbn [default from_option Datatypes.id truthy truthy_atom].
  destruct s as [|c s]; [discriminate Hjt |]. cbn [is_empty negb].
  rewrite Hjt. reflexivity.
Qed.

Lemma edge_tag_decides_witness :
  junction_type_of roundabout_exit 7 30%R = Ok (Some JunctionType.ROUNDABOUT).
Proof.
  apply (edge_tag_decides roundabout_exit 7
           [ {| e_src := 7; e_dst := 8;
                e_data := {[ "junction" := PAtom (AStr "yes") ]};
                e_geometry := NoGeometry |} ]
           []
           {| e_src := 7; e_dst := 9;
              e_data := {[ "junction" := PAtom (AStr "Roundabout") ]};
              e_geometry := NoGeometry |}
           "Roundabout").
  - reflexivity.
  - constructor; [| constructor]. right. exists "yes". split; reflexivity.
  - reflexivity.
  - reflexivity.
Defined.

(** X25 -- a junction tag on a node shadows its highway tag: when the
    junction tag is a text that names no member of [JunctionType], the
    node has no type by tag, also when its highway tag names one. *)
Theorem node_junction_tag_shadows_highway {L : Type} (G : OsmGraph L)
    (node_id : Z) (p : point) (data : pydict) (s : string) :
  g_nodes (og_graph G) !! node_id = Some p ->
  og_tags G !! node_id = Some data ->
  data !! "junction" = Some (PAtom (AStr s)) ->
  JunctionType_of_name (tag_key s) = None ->
  classify_node_tag G node_id = Ok None.
Proof.
  intros Hp Hd Hs Hn. unfold classify_node_tag. rewrite Hp, Hd.
  cbn [default from_option Datatypes.id]. unfold get. rewrite Hs.
  cbn [default from_option Datatypes.id is_none first_node_tag].
  rewrite Hn. reflexivity.
Qed.

Lemma node_junction_tag_shadows_highway_witness :
  classify_node_tag shadowed_turning_circle 7 = Ok None.
Proof.
  apply (node_junction_tag_shadows_highway shadowed_turning_circle 7 (0, 0)%R
           (<[ "junction" := PAtom (AStr "yes") ]>
              {[ "highway" := PAtom (AStr "turning_circle") ]}) "yes");
    reflexivity.
Defined.

(** Without the junction tag the same node is a turning circle. *)
Lemma unshadowed_turning_circle :
  classify_node_tag
    {| og_graph := og_graph shadowed_turning_circle;
       og_tags := {[ 7%Z := {[ "highway" := PAtom (AStr "turning_circle") ]} ]};
       og_out_edges := fun _ => @nil (osm_edge point);
       og_in_edges := fun _ => [] |} 7
  = Ok (Some JunctionType.TURNING_CIRCLE).
Proof. reflexivity. Qed.

(** ** The legs of a node *)

Lemma parse_lane_data_turns_nonempty (data : pydict)
    (turns : list LaneTurn.t) (n : Z) (est : bool) :
  _parse_lane_data data = Ok (turns, n, est) -> turns <> [].
Proof.
  intros Hr. destruct (parse_lane_data_turns_eq _ _ _ _ Hr) as (lanes & _ & ->).
  cbv zeta. destruct (fold_left _ lanes []); cbn [is_nil]; discriminate.
Qed.

Section LegsFacts.

Context {L : Type}.

Variable wkt_loads : string -> result L.

Lemma incoming_legs_spec (G : OsmGraph L) (node_id : Z)
    (in_edges : list (osm_edge L)) (legs : list (leg (raw_geom L))) :
  incoming_legs G node_id in_edges = Ok legs ->
  map nbr_id legs
  = map e_src (List.filter (fun e => (e_dst e =? node_id)%Z) in_edges)
  /\ Forall (fun l => exists turns, in_turns l = Some turns /\ turns <> [])
       legs.
Proof.
  revert legs. induction in_edges as [|e rest IH]; intros legs Hr.
  - injection Hr as <-. split; [reflexivity | constructor].
  - cbn [incoming_legs List.filter] in *.
    destruct (e_dst e =? node_id)%Z; cbn [negb] in Hr; [| auto].
    cbv zeta in Hr.
    apply bind_ok in Hr as (coord & _ & Hr).
    apply bind_ok in Hr as ([[turns n] est] & Hparse & Hr).
    apply bind_ok in Hr as (legs' & Hrest & Hr).
    injection Hr as <-. destruct (IH _ Hrest) as [Hids Hturns].
    split.
    + cbn [map nbr_id]. rewrite Hids. reflexivity.
    + constructor; [| exact Hturns]. exists turns. split; [reflexivity |].
      exact (parse_lane_data_turns_nonempty _ _ _ _ Hparse).
Qed.

Lemma outgoing_legs_spec (G : OsmGraph L) (node_id : Z)
    (out_edges : list (osm_edge L)) (seen : list Z)
    (legs : list (leg (raw_geom L))) :
  outgoing_legs wkt_loads G node_id seen out_edges = Ok legs ->
  Forall (fun l => in_turns l = None) legs
  /\ NoDup (map nbr_id legs)
  /\ forall x,
       In x (map nbr_id legs)
       <-> In x (map e_dst
                   (List.filter (fun e => (e_src e =? node_id)%Z) out_edges))
           /\ ~ In x seen.
Proof.
  revert seen legs. induction out_edges as [|e rest IH]; intros seen legs Hr.
  - injection Hr as <-. split; [constructor |]. split; [constructor |].
    intros x. cbn. tauto.
  - cbn [outgoing_legs List.filter] in *.
    destruct (e_src e =? node_id)%Z; cbn [negb] in Hr; [| auto].
    cbv zeta in Hr.
    destruct (existsb (Z.eqb (e_dst e)) seen) eqn:Hseen.
    + destruct (IH _ _ Hr) as (Hnone & Hnd & Hin).
      split; [exact Hnone |]. split; [exact Hnd |].
      intros x. rewrite Hin. cbn [map In]. split; [tauto |].
      intros [[<-|Hx] Hns]; [| tauto].
      exfalso. apply Hns. apply existsb_exists in Hseen as (y & Hy & E).
      apply Z.eqb_eq in E. subst. exact Hy.
    + apply bind_ok in Hr as (coord & _ & Hr).
      apply bind_ok in Hr as (g & _ & Hr).
      apply bind_ok in Hr as (legs' & Hrest & Hr).
      injection Hr as <-. destruct (IH _ _ Hrest) as (Hnone & Hnd & Hin).
      assert (Hns : ~ In (e_dst e) seen).
      { intros Hy. assert (existsb (Z.eqb (e_dst e)) seen = true); [| congruence].
        apply existsb_exists. exists (e_dst e). split; [exact Hy |].
        apply Z.eqb_refl. }
      split; [constructor; [reflexivity | exact Hnone] |]. split.
      * cbn [map nbr_id]. constructor; [| exact Hnd].
        rewrite list_elem_of_In, Hin. cbn [In]. tauto.
      * intros x. cbn [map nbr_id In]. rewrite Hin. cbn [In]. split.
        -- intros [<-|[Hx Hnx]]; tauto.
        -- intros [[<-|Hx] Hnx]; [tauto |].
           destruct (Z.eq_dec (e_dst e) x) as [E|E]; [tauto |]. right. tauto.
Qed.

(** X26 -- the legs of a node: first one leg for every incoming edge, in
    order and with the turns of that edge, which are never empty; then
    one leg without turns for every neighbour that only outgoing edges
    reach, no neighbour twice.  The incoming legs are not told apart by
    neighbour: parallel incoming edges give one leg each. *)
Theorem get_legs_structure (G : OsmGraph L) (node_id : Z)
    (legs : list (leg (raw_geom L))) :
  get_legs wkt_loads G node_id = Ok legs ->
  exists incoming outgoing,
    legs = (incoming ++ outgoing)%list
    /\ map nbr_id incoming
       = map e_src (List.filter (fun e => (e_dst e =? node_id)%Z)
                      (og_in_edges G node_id))
    /\ Forall (fun l => exists turns, in_turns l = Some turns /\ turns <> [])
         incoming
    /\ Forall (fun l => in_turns l = None) outgoing
    /\ NoDup (map nbr_id outgoing)
    /\ forall x,
         In x (map nbr_id outgoing)
         <-> In x (map e_dst
                     (List.filter (fun e => (e_src e =? node_id)%Z)
                        (og_out_edges G node_id)))
             /\ ~ In x (map nbr_id incoming).
Proof.
  unfold get_legs. intros Hr.
  apply bind_ok in Hr as (incoming & Hin & Hr).
  apply bind_ok in Hr as (outgoing & Hout & Hr).
  injection Hr as <-. exists incoming, outgoing.
  destruct (incoming_legs_spec _ _ _ _ Hin) as [Hids Hturns].
  destruct (outgoing_legs_spec _ _ _ _ _ Hout) as (Hnone & Hnd & Hmem).
  split; [reflexivity |]. split; [exact Hids |]. split; [exact Hturns |].
  split; [exact Hnone |]. split; [exact Hnd | exact Hmem].
Qed.

End LegsFacts.

Lemma mixed_junction_legs :
  get_legs wkt_west mixed_junction 0
  = Ok [ {| nbr_id := 1; nbr_coord := (1, 0)%R;
            in_turns := Some [LaneTurn.LEFT; LaneTurn.THROUGH];
            geom := Line (1, 0)%R |};
         {| nbr_id := 2; nbr_coord := (0, 1)%R;
            in_turns := Some [LaneTurn.THROUGH]; geom := Line (0, 1)%R |};
         {| nbr_id := 2; nbr_coord := (0, 1)%R;
            in_turns := Some [LaneTurn.THROUGH]; geom := Line (0, 1)%R |};
         {| nbr_id := 3; nbr_coord := (-1, 0)%R;
            in_turns := None; geom := Line (-1, 0)%R |} ].
Proof. reflexivity. Qed.

Lemma get_legs_structure_witness :
  exists incoming outgoing,
    [ {| nbr_id := 1; nbr_coord := (1, 0)%R;
         in_turns := Some [LaneTurn.LEFT; LaneTurn.THROUGH];
         geom := Line (1, 0)%R |};
      {| nbr_id := 2; nbr_coord := (0, 1)%R;
         in_turns := Some [LaneTurn.THROUGH]; geom := Line (0, 1)%R |};
      {| nbr_id := 2; nbr_coord := (0, 1)%R;
         in_turns := Some [LaneTurn.THROUGH]; geom := Line (0, 1)%R |};
      {| nbr_id := 3; nbr_coord := (-1, 0)%R;
         in_turns := None; geom := Line (-1, 0)%R |} ]
    = (incoming ++ outgoing)%list
    /\ map nbr_id incoming
       = map e_src (List.filter (fun e => (e_dst e =? 0)%Z)
                      (og_in_edges mixed_junction 0))
    /\ Forall (fun l => exists turns, in_turns l = Some turns /\ turns <> [])
         incoming
    /\ Forall (fun l => in_turns l = None) outgoing
    /\ NoDup (map nbr_id outgoing)
    /\ forall x,
         In x (map nbr_id outgoing)
         <-> In x (map e_dst
                     (List.filter (fun e => (e_src e =? 0)%Z)
                        (og_out_edges mixed_junction 0)))
             /\ ~ In x (map nbr_id incoming).
Proof.
  apply (get_legs_structure wkt_west mixed_junction 0).
  reflexivity.
Defined.

(** ** The counting loop of a node *)

Section NodeCounting.

Context {L : Type} `{LineOps L}.

Lemma count_pair_total (G : MultiDiGraph) (node_id : Z) (p : point)
    (pair : leg L * leg L) (table : list rule) (angle_threshold : R)
    (right_lane_drive : bool) (st : run_state) :
  g_nodes G !! node_id = Some p ->
  Forall rule_wf table ->
  exists st',
    count_pair_interaction G node_id (fst pair) (snd pair) table
      angle_threshold right_lane_drive st = (Ok tt, st')
    /\ counter_total (conflict_counter st')
       = (counter_total (conflict_counter st) + pair_weight pair)%nat.
Proof.
  intros Hp Hwf. unfold count_pair_interaction, pair_weight.
  destruct (in_turns (fst pair)) as [t1|] eqn:E1.
  2:{ eexists. split; [reflexivity |]. unfold counter_total, count, incr.
      cbn. lia. }
  destruct (in_turns (snd pair)) as [t2|] eqn:E2.
  2:{ eexists. split; [reflexivity |]. unfold counter_total, count, incr.
      cbn. lia. }
  destruct (get_position_returns G node_id p (fst pair) (snd pair)
              angle_threshold right_lane_drive Hp) as [pos Hpos].
  unfold mbind_M at 1, called at 1. rewrite Hpos.
  match goal with
  | |- context [for_each _ _ ?s] =>
      destruct (for_each_pair_tallies table right_lane_drive pos
                  (product t1 t2) Hwf s) as [st' [Hrun [_ Hcnt]]]
  end.
  exists st'. split; [exact Hrun |].
  unfold counter_total. rewrite !Hcnt. cbn [conflict_counter].
  pose proof (tally_total table right_lane_drive pos (product t1 t2) Hwf) as Ht.
  rewrite product_length in Ht. lia.
Qed.

(** X27 -- the counter of a node: in a graph that holds the node and
    with a table whose rows name enumeration members, the loop over the
    pairs of legs ends without an exception, and it adds to the counter
    one count for every pair of turns of every pair of legs that both have
    turns, and one for every other pair of legs. *)
Theorem node_counter_total (G : MultiDiGraph) (node_id : Z) (p : point)
    (legs : list (leg L)) (table : list rule) (angle_threshold : R)
    (right_lane_drive : bool) (st : run_state) :
  g_nodes G !! node_id = Some p ->
  Forall rule_wf table ->
  exists st',
    count_node_interactions G node_id legs table angle_threshold
      right_lane_drive st = (Ok tt, st')
    /\ counter_total (conflict_counter st')
       = (counter_total (conflict_counter st)
          + list_sum (map pair_weight (combinations2 legs)))%nat.
Proof.
  intros Hp Hwf. unfold count_node_interactions.
  generalize (combinations2 legs) as pairs. intros pairs. revert st.
  induction pairs as [|pair pairs IH]; intros st.
  - exists st. split; [reflexivity |]. cbn. lia.
  - cbn [for_each]. unfold mbind_M at 1.
    destruct (count_pair_total G node_id p pair table angle_threshold
                right_lane_drive st Hp Hwf) as (st1 & -> & Ht1).
    destruct (IH st1) as (st' & Hrun & Ht).
    exists st'. split; [exact Hrun |]. rewrite Ht, Ht1.
    cbn [map]. unfold list_sum. cbn [fold_right]. lia.
Qed.

End NodeCounting.

Lemma node_counter_total_witness :
  exists st',
    @count_node_interactions point ray_line_ops fork_graph 0
      [east_leg_two_turns; north_leg; west_leg] default_conflict_classifier
      30%R true empty_run = (Ok tt, st')
    /\ counter_total (conflict_counter st')
       = (counter_total (conflict_counter empty_run)
          + list_sum (map pair_weight
                        (combinations2
                           [east_leg_two_turns; north_leg; west_leg])))%nat.
Proof.
  apply (@node_counter_total point ray_line_ops fork_graph 0 (0, 0)%R).
  - reflexivity.
  - apply default_conflict_classifier_wf.
Defined.

(** ** The longest network, continued *)

Section NetworkSegments.

Context {P : Type} `{EqDecision P}.

Variable xy : P -> point.

Open Scope list_scope.

(** X28 -- what the longest network is made of: when some line has a
    segment, the result is a non-empty [MultiLineString] of two-point
    lines, each of which joins two coordinates that follow one another, in
    one direction or the other, in a [LineString] of the input, and any
    two of which are joined by a path of such segments. *)
Theorem longest_network_segments (compliant_geom : list (geometry P)) :
  Exists has_segment compliant_geom ->
  exists lines_out,
    get_longest_network xy compliant_geom
    = Ok (Some (MultiLineString lines_out))
    /\ lines_out <> []
    /\ (forall l, l ∈ lines_out ->
          exists u v coords,
            l = [u; v]
            /\ LineString coords ∈ compliant_geom
            /\ (consecutive u v coords \/ consecutive v u coords))
    /\ (forall u v u' v',
          [u; v] ∈ lines_out -> [u'; v'] ∈ lines_out ->
          connected (segment_graph (omap line_coords compliant_geom)) u u').
Proof.
  intros Hex.
  destruct (get_longest_network_spec xy compliant_geom Hex)
    as (i & c & Hpart & Hc & _ & _ & Hres).
  set (G := segment_graph (omap line_coords compliant_geom)) in *.
  assert (Hwf : graph_wf G) by exact (segment_graph_wf xy _).
  assert (Hcomp : is_component G c).
  { destruct Hpart as (Hall & _ & _). rewrite List.Forall_forall in Hall.
    apply Hall. apply list_elem_of_In. eapply list_elem_of_lookup_2. exact Hc. }
  exists (as_lines (subgraph_edges G c)). split; [exact Hres |].
  assert (Hedge : forall u v, [u; v] ∈ as_lines (subgraph_edges G c) ->
                    (u, v) ∈ edges G /\ u ∈ c /\ v ∈ c).
  { intros u v Hl. unfold as_lines in Hl.
    apply list_elem_of_fmap in Hl as ([a b] & Heq & He).
    cbn [fst snd] in Heq. injection Heq as -> ->.
    unfold subgraph_edges in He. apply list_elem_of_filter in He as [[Ha Hb] He].
    auto. }
  split; [| split].
  - unfold as_lines. intros Hnil. apply map_eq_nil in Hnil.
    exact (subgraph_edges_nonempty xy G c Hwf Hcomp Hnil).
  - intros l Hl.
    assert (Hshape : exists u v, l = [u; v]).
    { unfold as_lines in Hl. apply list_elem_of_fmap in Hl as (e & -> & _).
      eauto. }
    destruct Hshape as (u & v & ->). exists u, v.
    destruct (Hedge u v Hl) as (He & _ & _).
    assert (Hadj : adjacent G u v) by (left; exact He).
    apply (adjacent_segment_graph xy) in Hadj as (coords & Hin & Hcons).
    apply list_elem_of_omap in Hin as (g & Hg & Hlc).
    destruct g as [coords'| |]; try discriminate Hlc.
    injection Hlc as ->. exists coords. auto.
  - intros u v u' v' Hl Hl'.
    destruct (Hedge u v Hl) as (_ & Hu & _).
    destruct (Hedge u' v' Hl') as (_ & Hu' & _).
    destruct Hcomp as (_ & _ & Hcl). apply (Hcl u u' Hu). exact Hu'.
Qed.

Lemma add_segments_short (G : Graph P) (coords : list P) :
  (length coords < 2)%nat -> add_segments G coords = G.
Proof.
  destruct coords as [|a [|b r]]; cbn [length]; intros Hl;
    [reflexivity | reflexivity | lia].
Qed.

Lemma segment_graph_short (lines : list (list P)) :
  Forall (fun coords => (length coords < 2)%nat) lines ->
  segment_graph lines = empty_graph.
Proof.
  unfold segment_graph. generalize (@empty_graph P) as G.
  induction lines as [|l lines IH]; intros G Hall; [reflexivity |].
  inversion Hall as [|? ? Hl Hall']; subst. cbn [fold_left].
  rewrite add_segments_short by exact Hl. apply IH. exact Hall'.
Qed.

(** X29 -- line strings none of which has two coordinates: when there is
    a [LineString] but no segment, the graph has no component and [max]
    raises [ValueError]; the result is not [None]. *)
Theorem longest_network_no_segment (compliant_geom : list (geometry P)) :
  omap line_coords compliant_geom <> [] ->
  Forall (fun coords => (length coords < 2)%nat)
    (omap line_coords compliant_geom) ->
  get_longest_network xy compliant_geom = Raise ValueError.
Proof.
  intros Hne Hshort. unfold get_longest_network. cbv zeta.
  destruct (omap line_coords compliant_geom) as [|l lines] eqn:El;
    [congruence |].
  cbn [is_nil]. rewrite segment_graph_short by exact Hshort. reflexivity.
Qed.

End NetworkSegments.

Lemma longest_network_segments_witness :
  exists lines_out,
    get_longest_network grid_xy two_networks
    = Ok (Some (MultiLineString lines_out))
    /\ lines_out <> []
    /\ (forall l, l ∈ lines_out ->
          exists u v coords,
            l = [u; v]
            /\ LineString coords ∈ two_networks
            /\ (consecutive u v coords \/ consecutive v u coords))
    /\ (forall u v u' v',
          [u; v] ∈ lines_out -> [u'; v'] ∈ lines_out ->
          connected (segment_graph (omap line_coords two_networks)) u u').
Proof.
  apply (longest_network_segments grid_xy two_networks).
  apply two_networks_has_segment.
Defined.

Lemma longest_network_no_segment_witness :
  get_longest_network grid_xy [OtherGeometry; LineString []]
  = Raise ValueError.
Proof.
  apply longest_network_no_segment.
  - discriminate.
  - repeat constructor.
Defined.

(** ** The order of the neighbours *)

Open Scope R_scope.

Lemma calculate_angle_sym (p1 p2 p3 : point) :
  _calculate_angle p1 p2 p3 = _calculate_angle p3 p2 p1.
Proof.
  unfold _calculate_angle. cbn [fst snd].
  replace (norm (fst p2 - fst p3, snd p2 - snd p3))
    with (norm (fst p3 - fst p2, snd p3 - snd p2))
    by (rewrite <- norm_opp; f_equal; f_equal; ring).
  replace (norm (fst p1 - fst p2, snd p1 - snd p2))
    with (norm (fst p2 - fst p1, snd p2 - snd p1))
    by (rewrite <- norm_opp; f_equal; f_equal; ring).
  rewrite (Rmult_comm (norm (fst p3 - fst p2, snd p3 - snd p2))).
  destruct (Req_dec_T _ 0); [reflexivity |].
  match goal with
  | |- Some (degrees (acos (clip (?d / _) _ _)))
       = Some (degrees (acos (clip (?d' / _) _ _))) =>
      replace d' with d by ring
  end.
  reflexivity.
Qed.

Lemma norm_zero (v : point) : norm v = 0 -> v = (0, 0).
Proof.
  destruct v as [x y]. unfold norm. cbn [fst snd]. intros Hs.
  apply sqrt_eq_0 in Hs; [| nra].
  assert (x = 0) by nra. assert (y = 0) by nra. subst. reflexivity.
Qed.

Lemma calculate_angle_defined (p1 p2 p3 : point) :
  p1 <> p2 -> p3 <> p2 -> exists x, _calculate_angle p1 p2 p3 = Some x.
Proof.
  intros H1 H3. unfold _calculate_angle. cbn [fst snd].
  destruct (Req_dec_T _ 0) as [E|_]; [| eauto].
  exfalso. apply Rmult_integral in E as [E|E]; apply norm_zero in E;
    injection E as Ex Ey; [apply H1 | apply H3];
    destruct p1, p2, p3; cbn [fst snd] in *; f_equal; lra.
Qed.

Close Scope R_scope.

Lemma permutation_of_three {A : Type} (l : list A) (a b c : A) :
  Permutation l [a; b; c] ->
  l = [a; b; c] \/ l = [a; c; b] \/ l = [b; a; c]
  \/ l = [b; c; a] \/ l = [c; a; b] \/ l = [c; b; a].
Proof.
  intros Hp. pose proof (Permutation_length Hp) as Hl.
  destruct l as [|x [|y [|z [|w l]]]]; try discriminate Hl.
  assert (Hx : In x [a; b; c]).
  { apply (Permutation_in x Hp). left. reflexivity. }
  destruct Hx as [<-|[<-|[<-|[]]]].
  - apply Permutation_cons_inv in Hp.
    apply Permutation_length_2 in Hp as [[-> ->]|[-> ->]]; auto.
  - assert (Hp' : Permutation (b :: [y; z]) (b :: [a; c])).
    { etransitivity; [exact Hp |]. apply perm_swap. }
    apply Permutation_cons_inv in Hp'.
    apply Permutation_length_2 in Hp' as [[-> ->]|[-> ->]]; auto 6.
  - assert (Hp' : Permutation (c :: [y; z]) (c :: [a; b])).
    { etransitivity; [exact Hp |].
      etransitivity; [apply perm_skip, perm_swap | apply perm_swap]. }
    apply Permutation_cons_inv in Hp'.
    apply Permutation_length_2 in Hp' as [[-> ->]|[-> ->]]; auto 8.
Qed.

(** X30 -- the order of the neighbours does not matter: at a node with
    three neighbours, none of which lies on the node itself, the junction
    type by angle is the same in every graph that has the same coordinates
    and gives the same three neighbours in another order. *)
Theorem classify_node_other_any_order (G G' : MultiDiGraph) (n a b c : Z)
    (p0 pa pb pc : point) (angle_threshold : R) :
  und_neighbors G n = [a; b; c] ->
  Permutation (und_neighbors G' n) [a; b; c] ->
  g_nodes G' = g_nodes G ->
  g_nodes G !! n = Some p0 ->
  g_nodes G !! a = Some pa ->
  g_nodes G !! b = Some pb ->
  g_nodes G !! c = Some pc ->
  pa <> p0 -> pb <> p0 -> pc <> p0 ->
  classify_node_other G' n angle_threshold
  = classify_node_other G n angle_threshold.
Proof.
  intros Hn Hperm Hnodes H0 Ha Hb Hc Hpa Hpb Hpc.
  rewrite (classify_node_other_three_way G n a b c p0 pa pb pc _ Hn H0 Ha Hb Hc).
  destruct (calculate_angle_defined pa p0 pb Hpa Hpb) as [x Hx].
  destruct (calculate_angle_defined pb p0 pc Hpb Hpc) as [y Hy].
  destruct (calculate_angle_defined pc p0 pa Hpc Hpa) as [z Hz].
  pose proof (calculate_angle_sym pa p0 pb) as Sx.
  pose proof (calculate_angle_sym pb p0 pc) as Sy.
  pose proof (calculate_angle_sym pc p0 pa) as Sz.
  rewrite <- Hnodes in H0, Ha, Hb, Hc.
  destruct (permutation_of_three _ a b c Hperm)
    as [Hn'|[Hn'|[Hn'|[Hn'|[Hn'|Hn']]]]];
    erewrite (classify_node_other_three_way G' n) by eassumption;
    rewrite <- ?Sx, <- ?Sy, <- ?Sz, ?Hx, ?Hy, ?Hz;
    rewrite !py_max_three; do 2 f_equal;
    unfold nan_le, Rmax;
    repeat (destruct (Rle_dec _ _)); try reflexivity; lra.
Qed.

Lemma unit_at_not_origin (d : R) : unit_at d <> (0, 0)%R.
Proof.
  unfold unit_at. intros E. injection E as Ec Es.
  pose proof (sin2_cos2 (d * (PI / 180))) as Hsc. unfold Rsqr in Hsc.
  rewrite Ec, Es in Hsc. lra.
Qed.

Lemma classify_node_other_any_order_witness :
  classify_node_other three_way_graph_reordered 0 110%R
  = classify_node_other three_way_graph 0 110%R.
Proof.
  apply (classify_node_other_any_order three_way_graph
           three_way_graph_reordered 0 1 2 3
           (0, 0)%R (unit_at 0) (unit_at 100) (unit_at (-130))).
  - reflexivity.
  - change (und_neighbors three_way_graph_reordered 0) with [3; 1; 2]%Z.
    etransitivity; [apply perm_swap |]. apply perm_skip, perm_swap.
  - reflexivity.
  - reflexivity.
  - reflexivity.
  - reflexivity.
  - reflexivity.
  - apply unit_at_not_origin.
  - apply unit_at_not_origin.
  - apply unit_at_not_origin.
Defined.

(** ** The degree of a node *)

Lemma add_new_spec (x : Z) (l : list Z) :
  NoDup l ->
  NoDup (add_new x l) /\ forall y, In y (add_new x l) <-> In y l \/ y = x.
Proof.
  intros Hnd. unfold add_new. destruct (existsb (Z.eqb x) l) eqn:E.
  - split; [exact Hnd |]. intros y. split; [auto |].
    intros [Hy| ->]; [exact Hy |].
    apply existsb_exists in E as (z & Hz & Ez). apply Z.eqb_eq in Ez.
    subst. exact Hz.
  - split.
    + apply NoDup_app. split; [exact Hnd |]. split; [| apply NoDup_singleton].
      intros y Hy Hy'. apply list_elem_of_In in Hy, Hy'.
      destruct Hy' as [Ey|[]]. subst y.
      assert (existsb (Z.eqb x) l = true); [| congruence].
      apply existsb_exists. exists x. split; [exact Hy | apply Z.eqb_refl].
    + intros y. rewrite in_app_iff. cbn [In]. intuition congruence.
Qed.

Lemma und_neighbors_spec (G : MultiDiGraph) (n : Z) :
  NoDup (und_neighbors G n)
  /\ forall x, In x (und_neighbors G n)
               <-> In (n, x) (g_edges G) \/ In (x, n) (g_edges G).
Proof.
  unfold und_neighbors.
  assert (Hgen : forall es acc,
             NoDup acc ->
             let r := fold_left
                        (fun acc e =>
                           if (fst e =? n)%Z then add_new (snd e) acc
                           else if (snd e =? n)%Z then add_new (fst e) acc
                           else acc) es acc in
             NoDup r
             /\ forall x, In x r <-> In x acc \/ In (n, x) es \/ In (x, n) es).
  { induction es as [|[u v] es IH]; intros acc Hnd; cbv zeta.
    - cbn. split; [exact Hnd |]. intros x. tauto.
    - cbn [fold_left fst snd].
      destruct (Z.eqb_spec u n) as [->|Hu].
      + destruct (add_new_spec v acc Hnd) as [Hnd' Hin'].
        destruct (IH _ Hnd') as [Hnd'' Hin'']. split; [exact Hnd'' |].
        intros x. rewrite Hin'', Hin'. cbn [In]. split.
        * intros [[Hx| ->]|[Hx|Hx]]; auto.
        * intros [Hx|[[E|Hx]|[E|Hx]]]; auto.
          -- injection E as <-. auto.
          -- injection E as -> ->. auto.
      + destruct (Z.eqb_spec v n) as [->|Hv].
        * destruct (add_new_spec u acc Hnd) as [Hnd' Hin'].
          destruct (IH _ Hnd') as [Hnd'' Hin'']. split; [exact Hnd'' |].
          intros x. rewrite Hin'', Hin'. cbn [In]. split.
          -- intros [[Hx| ->]|[Hx|Hx]]; auto.
          -- intros [Hx|[[E|Hx]|[E|Hx]]]; auto.
             ++ injection E as E1 E2. congruence.
             ++ injection E as <-. auto.
        * destruct (IH _ Hnd) as [Hnd'' Hin'']. split; [exact Hnd'' |].
          intros x. rewrite Hin''. cbn [In]. split.
          -- intros [Hx|[Hx|Hx]]; auto.
          -- intros [Hx|[[E|Hx]|[E|Hx]]]; auto.
             ++ injection E as E1 E2. congruence.
             ++ injection E as E1 E2. congruence. }
  destruct (Hgen (g_edges G) [] (NoDup_nil_2 (A := Z))) as [Hnd Hin].
  split; [exact Hnd |]. intros x. rewrite Hin. cbn [In]. tauto.
Qed.

(** X5 -- the degree that decides is the number of distinct nodes joined
    to the node by an edge in either direction, so that a two-way street
    and parallel edges count once; with at most two such nodes the node is
    no junction, and with four or more it is a [CROSSROAD], in both cases
    without a look at the coordinates. *)
Theorem classify_node_other_by_degree (G : MultiDiGraph) (node_id : Z)
    (angle_threshold : R) :
  exists nbrs,
    NoDup nbrs
    /\ (forall x, In x nbrs
                  <-> In (node_id, x) (g_edges G) \/ In (x, node_id) (g_edges G))
    /\ ((length nbrs <= 2)%nat ->
        classify_node_other G node_id angle_threshold = Ok None)
    /\ ((4 <= length nbrs)%nat ->
        classify_node_other G node_id angle_threshold
        = Ok (Some JunctionType.CROSSROAD)).
Proof.
  exists (und_neighbors G node_id).
  destruct (und_neighbors_spec G node_id) as [Hnd Hin].
  split; [exact Hnd |]. split; [exact Hin |].
  unfold classify_node_other. cbv zeta. split; intros Hl.
  - destruct (Nat.leb_spec (length (und_neighbors G node_id)) 2);
      [reflexivity | lia].
  - destruct (Nat.leb_spec (length (und_neighbors G node_id)) 2); [lia |].
    destruct (Nat.leb_spec 4 (length (und_neighbors G node_id)));
      [reflexivity | lia].
Qed.
